(** * lightlab.laboratory.state: the lab registry and its persisted state

    A shallow embedding of [src/lightlab/laboratory/state.py]: the class
    [LabState] (registry operations, serialisation, the load and save
    protocol), the function [patch_labstate] and the lazy loading of the
    module variable [lab]; and of the class [ElectricalSource] of
    [src/lightlab/equipment/abstract_drivers/electrical_sources.py].

    Python values are modelled as the code has them: strings as [string],
    the schema version as [Z], a [dict] with string keys as
    [gmap string _], the connections as a Python [list] of dicts whose
    items keep their insertion order.  Methods that mutate [self], write
    the log or touch the file system are written in a small state and
    exception monad [Py]: an exception leaves the state as it was when it
    was raised, exactly as in Python. *)

From Stdlib Require Import ZArith Lia Ascii.
From stdpp Require Import base decidable option list gmap strings pretty sorting.

Local Open Scope Z_scope.
Local Open Scope string_scope.
Local Open Scope list_scope.

(** ** Exceptions, outcomes and the [Py] monad *)

Inductive exn : Type :=
  | FileNotFoundError (path : string)
  | JSONDecodeError
  | KeyError (key : string)
  | TypeError
  | AttributeError
  | RuntimeError (msg : string)
  | AssertionError
  | NotImplementedError (msg : string).

Inductive outcome (A : Type) : Type :=
  | Returned (a : A)
  | Raised (e : exn).
Arguments Returned {A} a.
Arguments Raised {A} e.

Definition Py (St A : Type) : Type := St -> outcome A * St.

Definition ret {St A} (a : A) : Py St A := fun st => (Returned a, st).

Definition bind {St A B} (m : Py St A) (k : A -> Py St B) : Py St B :=
  fun st =>
    match m st with
    | (Returned a, st') => k a st'
    | (Raised e, st') => (Raised e, st')
    end.

Definition raise {St A} (e : exn) : Py St A := fun st => (Raised e, st).
Definition get {St} : Py St St := fun st => (Returned st, st).
Definition put {St} (st : St) : Py St unit := fun _ => (Returned tt, st).
Definition modify {St} (f : St -> St) : Py St unit :=
  fun st => (Returned tt, f st).

Declare Scope py_scope.
Delimit Scope py_scope with py.
Notation "x <- c1 ;; c2" := (bind c1 (fun x => c2))
  (at level 100, c1 at next level, right associativity) : py_scope.
Notation "c1 ;; c2" := (bind c1 (fun _ => c2))
  (at level 100, right associativity) : py_scope.
Local Open Scope py_scope.

(** A [for] loop whose body may raise. *)
Fixpoint for_each {St A} (l : list A) (body : A -> Py St unit) : Py St unit :=
  match l with
  | [] => ret tt
  | x :: l' => body x ;; for_each l' body
  end.

(** ** The logger *)

Definition newline : string := String "010"%char EmptyString.

Inductive level : Type := DEBUG | INFO | WARNING | ERROR.

Record LogRecord : Type := { log_level : level; log_msg : string }.

#[global] Instance level_eq_dec : EqDecision level.
Proof. solve_decision. Defined.
#[global] Instance LogRecord_eq_dec : EqDecision LogRecord.
Proof. solve_decision. Defined.

(** ** Lab entities

    The classes [Host], [LocalHost], [Bench], [Instrument] and [Device]
    live in [lightlab.laboratory.instruments], which state.py imports. *)

(** Modelled from the spec: the class [Bench] of
    lightlab.laboratory.instruments is missing; "a named physical
    grouping; contains no direct children post-v2".  state.py builds one
    with [Bench(name=...)]. *)
Record Bench : Type := { bench_name : string }.

(** Modelled from the spec: the classes [Host] and [LocalHost] are
    missing; a host is "identified by unique name; optional fields
    (network address, OS, is-local-flag)".  state.py builds one with
    [Host(name, mac_address, hostname, os)] and tests
    [isinstance(h, LocalHost)], here the flag [host_local]. *)
Record Host : Type := {
  host_name : string;
  mac_address : option string;
  hostname : option string;
  os : option string;
  host_local : bool
}.

(** Modelled from the spec: the class [Instrument] is missing;
    "identified by unique name; has an ordered set of named ports;
    references exactly one Bench (optional) and one Host (optional)". *)
Record Instrument : Type := {
  instr_name : string;
  instr_ports : list string;
  instr_bench : option Bench;
  instr_host : option Host
}.

(** Modelled from the spec: the class [Device] is missing; "identified by
    unique name; has ports; references exactly one Bench (optional)". *)
Record Device : Type := {
  dev_name : string;
  dev_ports : list string;
  dev_bench : option Bench
}.

#[global] Instance Bench_eq_dec : EqDecision Bench.
Proof. solve_decision. Defined.
#[global] Instance Host_eq_dec : EqDecision Host.
Proof. solve_decision. Defined.
#[global] Instance Instrument_eq_dec : EqDecision Instrument.
Proof. solve_decision. Defined.
#[global] Instance Device_eq_dec : EqDecision Device.
Proof. solve_decision. Defined.

(** Modelled from the spec: [LocalHost(name=...)], a host with the
    is-local flag set. *)
Definition LocalHost (name : string) : Host :=
  {| host_name := name; mac_address := None; hostname := None; os := None;
     host_local := true |}.

(** The keys of a connection dict: an instrument or a device. *)
Inductive Entity : Type :=
  | EInstrument (i : Instrument)
  | EDevice (d : Device).

#[global] Instance Entity_eq_dec : EqDecision Entity.
Proof. solve_decision. Defined.

Definition ports (k : Entity) : list string :=
  match k with
  | EInstrument i => instr_ports i
  | EDevice d => dev_ports d
  end.

Definition entity_name (k : Entity) : string :=
  match k with
  | EInstrument i => instr_name i
  | EDevice d => dev_name d
  end.

(** A connection is a Python dict [{entity: port, ...}]; [items] is
    [connection.items()], in insertion order.  Equality of dicts does not
    look at that order. *)
Definition Connection : Type := list (Entity * string).

Definition dict_eqb (c1 c2 : Connection) : bool := bool_decide (c1 ≡ₚ c2).

(** [connection in connections], with [==] on dicts. *)
Definition connection_in (c : Connection) (l : list Connection) : bool :=
  existsb (dict_eqb c) l.

(** ** TypedList *)

(** The attribute [name] that every item of a [TypedList] has. *)
Class Named (A : Type) : Type := name : A -> string.
#[global] Instance Bench_named : Named Bench := bench_name.
#[global] Instance Host_named : Named Host := host_name.
#[global] Instance Instrument_named : Named Instrument := instr_name.
#[global] Instance Device_named : Named Device := dev_name.

Module TypedList.
(** The class [TypedList] of lightlab.laboratory is not in the sources.
    state.py appends to its collections, iterates them ([values()]),
    indexes them by name and reads their [dict]: a list in insertion
    order, addressed by the items' names. *)
Section ops.
Context {A : Type} `{Named A} `{EqDecision A}.

(** Modelled from the spec: [TypedList.dict.keys()] is missing; the
    collections are "keyed by name". *)
Definition keys (l : list A) : list string := name <$> l.

(** Modelled from the spec: [TypedList.values()] is missing; the items, in
    insertion order. *)
Definition values (l : list A) : list A := l.

(** Modelled from the spec: [TypedList.__contains__] is missing; [x in l]
    with the structural equality of [Hashable]. *)
Definition contains (x : A) (l : list A) : bool := bool_decide (x ∈ l).

(** Modelled from the spec: [TypedList.append] is missing; it "appends to
    the collection; fails with a DuplicateNameError if the name already
    exists", here the [RuntimeError] that the docstrings of
    [insertInstrument] and [insertDevice] announce. *)
Definition append (x : A) (l : list A) : exn + list A :=
  if bool_decide (name x ∈ keys l)
  then inl (RuntimeError (name x +:+ " already exists in list"))
  else inr (l ++ [x]).

(** Modelled from the spec: [TypedList.__setitem__] is missing; [l[n] = x]
    "inserts or overwrites by name". *)
Definition setitem (n : string) (x : A) (l : list A) : list A :=
  if bool_decide (n ∈ keys l)
  then (fun y => if bool_decide (name y = n) then x else y) <$> l
  else l ++ [x].

(** Modelled from the spec: [TypedList.__delitem__] is missing; [del l[n]]
    is the "explicit delete-by-name operation". *)
Definition delitem (n : string) (l : list A) : list A :=
  filter (fun y => name y ≠ n) l.

(** Modelled from the spec: [TypedList.extend] is missing; one [append]
    per item. *)
Fixpoint extend (xs : list A) (l : list A) : exn + list A :=
  match xs with
  | [] => inr l
  | x :: xs' =>
      match append x l with
      | inl e => inl e
      | inr l' => extend xs' l'
      end
  end.
End ops.
End TypedList.

(** ** LabState *)

(** The attributes [__version__], [__sha256__], [__user__],
    [__datetime__] and [__filename__]. *)
Record Meta : Type := {
  __version__ : Z;
  __sha256__ : option string;
  __user__ : option string;
  __datetime__ : option string;
  __filename__ : option string
}.

Record LabState : Type := {
  hosts : list Host;
  benches : list Bench;
  connections : list Connection;
  devices : list Device;
  instruments : list Instrument;
  meta : Meta
}.

(** The class attribute [LabState.__version__]. *)
Definition LabState_version : Z := 2.

(** The module variable [_filename] after the fallback. *)
Definition _filename : string := "labstate-local.json".

(** [LabState(filename)]. *)
Definition new_LabState (filename : option string) : LabState :=
  {| hosts := []; benches := []; connections := []; devices := [];
     instruments := [];
     meta := {| __version__ := LabState_version; __sha256__ := None;
                __user__ := None; __datetime__ := None;
                __filename__ := Some (default _filename filename) |} |}.

(** What a call sees besides [self]: the files, the log, and what
    [getpass.getuser()] and [datetime.now()] answer. *)
Record World : Type := {
  files : gmap string string;
  logs : list LogRecord;
  env_user : string;
  env_now : string
}.

Record St : Type := { self : LabState; world : World }.

Definition log_to (lv : level) (msg : string) (w : World) : World :=
  {| files := files w; logs := logs w ++ [{| log_level := lv; log_msg := msg |}];
     env_user := env_user w; env_now := env_now w |}.

Definition logger (lv : level) (msg : string) : Py St unit :=
  modify (fun st => {| self := self st; world := log_to lv msg (world st) |}).

Definition set_hosts (l : list Host) (s : LabState) : LabState :=
  {| hosts := l; benches := benches s; connections := connections s;
     devices := devices s; instruments := instruments s; meta := meta s |}.
Definition set_benches (l : list Bench) (s : LabState) : LabState :=
  {| hosts := hosts s; benches := l; connections := connections s;
     devices := devices s; instruments := instruments s; meta := meta s |}.
Definition set_connections (l : list Connection) (s : LabState) : LabState :=
  {| hosts := hosts s; benches := benches s; connections := l;
     devices := devices s; instruments := instruments s; meta := meta s |}.
Definition set_devices (l : list Device) (s : LabState) : LabState :=
  {| hosts := hosts s; benches := benches s; connections := connections s;
     devices := l; instruments := instruments s; meta := meta s |}.
Definition set_instruments (l : list Instrument) (s : LabState) : LabState :=
  {| hosts := hosts s; benches := benches s; connections := connections s;
     devices := devices s; instruments := l; meta := meta s |}.
Definition set_meta (m : Meta) (s : LabState) : LabState :=
  {| hosts := hosts s; benches := benches s; connections := connections s;
     devices := devices s; instruments := instruments s; meta := m |}.

Definition update_self (f : LabState -> LabState) : Py St unit :=
  modify (fun st => {| self := f (self st); world := world st |}).

Definition get_self : Py St LabState := st <- get ;; ret (self st).

(** A [TypedList] operation that may raise. *)
Definition lift_exn {St' A} (r : exn + A) : Py St' A :=
  match r with
  | inl e => raise e
  | inr a => ret a
  end.

(** A [for] loop that carries a local variable. *)
Fixpoint for_fold {St' A V} (l : list A) (v : V) (body : A -> V -> Py St' V)
  : Py St' V :=
  match l with
  | [] => ret v
  | x :: l' => v' <- body x v ;; for_fold l' v' body
  end.

Definition when {St'} (b : bool) (m : Py St' unit) : Py St' unit :=
  if b then m else ret tt.

(** ** The entity registry *)

(** The first loop of [updateHost]: the name of the last [LocalHost] of
    [self.hosts], with a warning for every further one. *)
Definition note_localhost (old_host : Host) (localhost_name : option string)
  : Py St (option string) :=
  if host_local old_host then
    when (bool_decide (localhost_name ≠ None))
         (logger WARNING "Duplicate localhost found in lab.hosts") ;;
    ret (Some (host_name old_host))
  else ret localhost_name.

Definition find_localhost (old_hosts : list Host) : Py St (option string) :=
  for_fold old_hosts None note_localhost.

(** One turn of the second loop of [updateHost]. *)
Definition update_one_host (old_hostnames : list string) (new_host : Host)
    (localhost_name : option string) : Py St (option string) :=
  (* Updating localhost *)
  if host_local new_host && bool_decide (localhost_name ≠ None)
     && bool_decide (Some (host_name new_host) ≠ localhost_name)
  then
    (* Check for localhost clash: [continue] *)
    logger WARNING ("Localhost is already present: " +:+
                    default "" localhost_name +:+ newline +:+
                    "Not updating host " +:+ host_name new_host +:+ "!") ;;
    ret localhost_name
  else
    let localhost_name :=
      if host_local new_host && bool_decide (localhost_name ≠ None)
      then Some (host_name new_host) else localhost_name in
    (* Will an update happen? *)
    localhost_name <-
      (if bool_decide (host_name new_host ∈ old_hostnames) then
         logger INFO ("Overwriting host: " +:+ host_name new_host) ;;
         (* Will it end up removing the localhost? *)
         ret (if bool_decide (Some (host_name new_host) = localhost_name)
                 && negb (host_local new_host)
              then None else localhost_name)
       else ret localhost_name) ;;
    update_self (fun s =>
      set_hosts (TypedList.setitem (host_name new_host) new_host (hosts s)) s) ;;
    ret localhost_name.

(** [LabState.updateHost] with [*hosts]. *)
Definition updateHost (new_hosts : list Host) : Py St unit :=
  s <- get_self ;;
  let old_hostnames := host_name <$> TypedList.values (hosts s) in
  localhost_name <- find_localhost (TypedList.values (hosts s)) ;;
  localhost_name <- for_fold new_hosts localhost_name (update_one_host old_hostnames) ;;
  when (bool_decide (localhost_name = None))
       (logger WARNING "Localhost not yet present").

(** [LabState.updateBench] with [*benches]. *)
Definition updateBench (new_benches : list Bench) : Py St unit :=
  for_each new_benches (fun bench =>
    update_self (fun s =>
      set_benches (TypedList.setitem (bench_name bench) bench (benches s)) s)).

(** [LabState.deleteInstrumentFromName(name)]. *)
Definition deleteInstrumentFromName (n : string) : Py St unit :=
  s <- get_self ;;
  let matching_instruments :=
    filter (fun x => instr_name x = n) (instruments s) in
  if bool_decide (length matching_instruments = 1%nat) then
    update_self (fun s => set_instruments (TypedList.delitem n (instruments s)) s)
  else raise AssertionError.

(** [LabState.insertInstrument(instrument)]. *)
Definition insertInstrument (instrument : Instrument) : Py St unit :=
  s <- get_self ;;
  l <- lift_exn (TypedList.append instrument (instruments s)) ;;
  update_self (set_instruments l) ;;
  match instr_bench instrument with
  | Some bench =>
      s <- get_self ;;
      when (negb (TypedList.contains bench (benches s)))
        (logger WARNING ("Insterting *new* bench " +:+ bench_name bench) ;;
         l <- lift_exn (TypedList.append bench (benches s)) ;;
         update_self (set_benches l))
  | None => ret tt
  end ;;
  match instr_host instrument with
  | Some host =>
      s <- get_self ;;
      when (negb (TypedList.contains host (hosts s)))
        (logger WARNING ("Inserting *new* host " +:+ host_name host) ;;
         l <- lift_exn (TypedList.append host (hosts s)) ;;
         update_self (set_hosts l))
  | None => ret tt
  end.

(** [LabState.insertDevice(device)]. *)
Definition insertDevice (device : Device) : Py St unit :=
  s <- get_self ;;
  l <- lift_exn (TypedList.append device (devices s)) ;;
  update_self (set_devices l) ;;
  match dev_bench device with
  | Some bench =>
      s <- get_self ;;
      when (negb (TypedList.contains bench (benches s)))
        (logger WARNING ("Insterting *new* bench " +:+ bench_name bench) ;;
         l <- lift_exn (TypedList.append bench (benches s)) ;;
         update_self (set_benches l))
  | None => ret tt
  end.

(** *** Connections *)

(** The text that names an entity in a log line (its name stands for the
    object's [repr]). *)
Definition repr_connection (c : Connection) : string :=
  "{" +:+ String.concat ", "
            ((fun kv => entity_name kv.1 +:+ ": " +:+ kv.2) <$> c) +:+ "}".

Definition port_error (k1 : Entity) (v1 : string) : string :=
  "Port '" +:+ v1 +:+ "' is not in '" +:+ entity_name k1 +:+ ": " +:+
  String.concat ", " (ports k1) +:+ "'".

(** The first [(k1, v1)] of the batch, in iteration order, with
    [v1 not in k1.ports]. *)
Definition first_invalid_port (conns : list Connection)
  : option (Entity * string) :=
  head (filter (fun kv => kv.2 ∉ ports kv.1) (concat conns)).

(** The inner function [check_if_port_is_not_connected], without its log
    line (the caller writes it for every connection it drops). *)
Definition check_if_port_is_not_connected (connection : Connection)
    (k1 : Entity) (v1 : string) : bool :=
  negb (existsb (fun kv2 => bool_decide ((k1, v1) = kv2)) connection).

(** [self.connections[:] = [x for x in self.connections if connectioncheck2(x)]]. *)
Definition drop_conflicting (k1 : Entity) (v1 : string) : Py St unit :=
  s <- get_self ;;
  for_each (filter (fun x => check_if_port_is_not_connected x k1 v1 = false)
                   (connections s))
    (fun x => logger WARNING
       ("Deleting existing connection " +:+ repr_connection x +:+ ".")) ;;
  update_self (set_connections
    (filter (fun x => check_if_port_is_not_connected x k1 v1 = true)
            (connections s))).

(** One turn of the last loop of [updateConnections]. *)
Definition add_connection (connection : Connection) : Py St unit :=
  s <- get_self ;;
  if connection_in connection (connections s)
  then logger WARNING
         ("Connection already exists: " +:+ repr_connection connection)
  else update_self (set_connections (connections s ++ [connection])).

(** [LabState.updateConnections] with [*connections]. *)
Definition updateConnections (conns : list Connection) : Py St bool :=
  (* Verify if ports are valid, otherwise do nothing. *)
  match first_invalid_port conns with
  | Some (k1, v1) =>
      logger ERROR (port_error k1 v1) ;;
      raise (RuntimeError (port_error k1 v1))
  | None =>
      (* Remove old conflicting connections *)
      for_each conns (fun connection =>
        for_each connection (fun kv => drop_conflicting kv.1 kv.2)) ;;
      (* Add new connections *)
      for_each conns add_connection ;;
      ret true
  end.

(** * Persistence *)

(** ** JSON documents *)

#[local] Set Warnings "-register-all".

Inductive json : Type :=
  | JNull
  | JBool (b : bool)
  | JNum (z : Z)
  | JStr (s : string)
  | JArr (l : list json)
  | JObj (kvs : list (string * json)).

(** [j == s] for a Python string [s]. *)
Definition json_eq_str (j : json) (s : string) : bool :=
  match j with
  | JStr t => bool_decide (t = s)
  | _ => false
  end.

(** The value an attribute takes when it is set from a document (the
    attributes are kept as optional strings: a value that is no string is
    kept as [None]). *)
Definition json_to_str (j : json) : option string :=
  match j with
  | JStr t => Some t
  | _ => None
  end.

(** [str(j)] for the values a digest field holds; a list or a dict is
    abbreviated. *)
Definition str_of_json (j : json) : string :=
  match j with
  | JNull => "None"
  | JBool true => "True"
  | JBool false => "False"
  | JNum z => pretty z
  | JStr t => t
  | JArr _ => "[...]"
  | JObj _ => "{...}"
  end.

(** ["Labstate is corrupted. {} vs {}.".format(sha256, computed)]. *)
Definition corrupted (sha256 : json) (computed : string) : exn :=
  RuntimeError ("Labstate is corrupted. " +:+ str_of_json sha256 +:+
                " vs " +:+ computed +:+ ".").

(** [d.pop(k)]. *)
Definition dict_pop (k : string) (d : gmap string json)
  : exn + (json * gmap string json) :=
  match d !! k with
  | Some v => inr (v, delete k d)
  | None => inl (KeyError k)
  end.

(** ** Version 1 objects

    In a version 1 document the instruments and devices sit in lists
    inside the benches and hosts ([bench.__dict__['instruments']], ...).
    A field is [None] when the key is not in the object's [__dict__]. *)

Record OldBench : Type := {
  old_bench_name : string;
  old_bench_instruments : option (list Instrument);
  old_bench_devices : option (list Device)
}.

Record OldHost : Type := {
  old_host_name : string;
  old_host_mac_address : option string;
  old_host_hostname : option string;
  old_host_os : option string;
  old_host_instruments : option (list Instrument)
}.

Record OldLabState : Type := {
  old_hosts : list OldHost;
  old_benches : list OldBench;
  old_connections : list Connection;
  old_meta : Meta
}.

(** What the unpickler hands back: a lab of the current shape, or one of
    the version 1 shape. *)
Inductive LabObject : Type :=
  | CurrentLab (lab : LabState)
  | LegacyLab (old : OldLabState).

Definition obj_meta (o : LabObject) : Meta :=
  match o with
  | CurrentLab lab => meta lab
  | LegacyLab old => old_meta old
  end.

Definition set_obj_meta (m : Meta) (o : LabObject) : LabObject :=
  match o with
  | CurrentLab lab => CurrentLab (set_meta m lab)
  | LegacyLab old =>
      LegacyLab {| old_hosts := old_hosts old; old_benches := old_benches old;
                   old_connections := old_connections old; old_meta := m |}
  end.

(** How [patch_labstate] reads the benches, hosts and connections of the
    object it is given: those of a lab of the current shape have no
    [instruments] or [devices] in their [__dict__]. *)
Definition obj_benches (o : LabObject) : list OldBench :=
  match o with
  | CurrentLab lab =>
      (fun b => {| old_bench_name := bench_name b;
                   old_bench_instruments := None;
                   old_bench_devices := None |}) <$> benches lab
  | LegacyLab old => old_benches old
  end.

Definition obj_hosts (o : LabObject) : list OldHost :=
  match o with
  | CurrentLab lab =>
      (fun h => {| old_host_name := host_name h;
                   old_host_mac_address := mac_address h;
                   old_host_hostname := hostname h;
                   old_host_os := os h;
                   old_host_instruments := None |}) <$> hosts lab
  | LegacyLab old => old_hosts old
  end.

Definition obj_connections (o : LabObject) : list Connection :=
  match o with
  | CurrentLab lab => connections lab
  | LegacyLab old => old_connections old
  end.

(** ** patch_labstate *)

(** The local variables [instruments], [benches], [devices] and [hosts]
    of the version 1 patch. *)
Record PatchVars : Type := {
  p_instruments : list Instrument;
  p_benches : list Bench;
  p_devices : list Device;
  p_hosts : list Host
}.

Definition set_instr_bench (b : Bench) (i : Instrument) : Instrument :=
  {| instr_name := instr_name i; instr_ports := instr_ports i;
     instr_bench := Some b; instr_host := instr_host i |}.
Definition set_instr_host (h : Host) (i : Instrument) : Instrument :=
  {| instr_name := instr_name i; instr_ports := instr_ports i;
     instr_bench := instr_bench i; instr_host := Some h |}.
Definition set_dev_bench (b : Bench) (d : Device) : Device :=
  {| dev_name := dev_name d; dev_ports := dev_ports d; dev_bench := Some b |}.

(** [if x.name in xs.dict.keys(): xs[x.name].__dict__.update(x.__dict__)
     else: xs.append(x)].  The update overwrites every attribute of the
    stored object with those of [x].  (Objects are values here: an
    instrument listed under its bench and under its host is two equal
    values, not one shared object.) *)
Definition update_or_append {A} `{Named A} (x : A) (xs : list A) : list A :=
  TypedList.setitem (name x) x xs.

Definition dict_item {St' A} (key : string) (o : option A) : Py St' A :=
  match o with
  | Some a => ret a
  | None => raise (KeyError key)
  end.

Definition patch_bench (old_bench : OldBench) : Py PatchVars unit :=
  (* restarting new bench afresh (only name matters so far) *)
  let new_bench := {| bench_name := old_bench_name old_bench |} in
  v <- get ;;
  l <- lift_exn (TypedList.append new_bench (p_benches v)) ;;
  put {| p_instruments := p_instruments v; p_benches := l;
         p_devices := p_devices v; p_hosts := p_hosts v |} ;;
  old_instruments <- dict_item "instruments" (old_bench_instruments old_bench) ;;
  for_each old_instruments (fun instrument =>
    modify (fun v =>
      {| p_instruments :=
           update_or_append (set_instr_bench new_bench instrument)
                            (p_instruments v);
         p_benches := p_benches v; p_devices := p_devices v;
         p_hosts := p_hosts v |})) ;;
  (* same for devices *)
  old_devices <- dict_item "devices" (old_bench_devices old_bench) ;;
  for_each old_devices (fun device =>
    modify (fun v =>
      {| p_instruments := p_instruments v; p_benches := p_benches v;
         p_devices :=
           update_or_append (set_dev_bench new_bench device) (p_devices v);
         p_hosts := p_hosts v |})).

Definition patch_host (old_host : OldHost) : Py PatchVars unit :=
  let new_host := {| host_name := old_host_name old_host;
                     mac_address := old_host_mac_address old_host;
                     hostname := old_host_hostname old_host;
                     os := old_host_os old_host;
                     host_local := false |} in
  v <- get ;;
  l <- lift_exn (TypedList.append new_host (p_hosts v)) ;;
  put {| p_instruments := p_instruments v; p_benches := p_benches v;
         p_devices := p_devices v; p_hosts := l |} ;;
  old_instruments <- dict_item "instruments" (old_host_instruments old_host) ;;
  for_each old_instruments (fun instrument =>
    modify (fun v =>
      {| p_instruments :=
           update_or_append (set_instr_host new_host instrument)
                            (p_instruments v);
         p_benches := p_benches v; p_devices := p_devices v;
         p_hosts := p_hosts v |})).

(** The body of [if from_version == 1:] after the [assert]. *)
Definition patch_v1 (old_lab : LabObject) : Py PatchVars LabState :=
  for_each (obj_benches old_lab) patch_bench ;;
  (* Same code as above *)
  for_each (obj_hosts old_lab) patch_host ;;
  (* instantiating new labstate from scratch. *)
  v <- get ;;
  let lab := new_LabState None in
  l_instruments <- lift_exn (TypedList.extend (p_instruments v) (instruments lab)) ;;
  l_benches <- lift_exn (TypedList.extend (p_benches v) (benches lab)) ;;
  l_devices <- lift_exn (TypedList.extend (p_devices v) (devices lab)) ;;
  l_hosts <- lift_exn (TypedList.extend (p_hosts v) (hosts lab)) ;;
  ret {| hosts := TypedList.setitem "cassander" (LocalHost "cassander") l_hosts;
         benches := l_benches;
         connections := obj_connections old_lab;
         devices := l_devices;
         instruments := l_instruments;
         meta := meta lab |}.

(** [patch_labstate(from_version, old_lab)]. *)
Definition patch_labstate (from_version : Z) (old_lab : LabObject)
  : exn + LabState :=
  if bool_decide (from_version = 1) then
    if bool_decide (__version__ (obj_meta old_lab) = from_version) then
      match patch_v1 old_lab
              {| p_instruments := []; p_benches := []; p_devices := [];
                 p_hosts := [] |} with
      | (Returned lab, _) => inr lab
      | (Raised e, _) => inl e
      end
    else inl AssertionError
  else inl (NotImplementedError "Patch not found").

(** ** The libraries state.py calls

    [jsonpickle] (its pickler, its unpickler and its [json] backend),
    [hashlib] and [pathlib] are not part of the repository.  The load and
    save protocol is stated for any implementation of them. *)
Class Libs : Type := {
  (** [json.encode(d)] under [sort_keys=True, indent=4] *)
  json_encode : gmap string json -> string;
  (** [json.decode(text)]; [None] is a [JSONDecodeError] *)
  json_decode : string -> option (gmap string json);
  (** [hashlib.sha256(s.encode()).hexdigest()] *)
  sha256_hexdigest : string -> string;
  (** [Pickler(unpicklable=True, warn=True, keys=True).flatten(lab, reset=True)] *)
  flatten : LabState -> gmap string json;
  (** [Unpickler(backend=json, safe=True, keys=True).restore(d, reset=True)];
      [None] when what comes back is no lab object *)
  restore : gmap string json -> option LabObject;
  (** [Path(p).with_name("{}_{}.json".format(Path(p).stem, timestamp))] *)
  backup_path : string -> string -> string
}.

Section persistence.
Context `{Libs}.

(** [hash_sha256(string)]. *)
Definition hash_sha256 (s : string) : string := sha256_hexdigest s.

Definition lift_world {A} (m : Py World A) : Py St A :=
  fun st =>
    match m (world st) with
    | (r, w) => (r, {| self := self st; world := w |})
    end.

Definition log_world (lv : level) (msg : string) : Py World unit :=
  modify (log_to lv msg).

Definition read_file (filename : string) : Py World string :=
  w <- get ;;
  match files w !! filename with
  | Some text => ret text
  | None => raise (FileNotFoundError filename)
  end.

Definition write_file (filename : string) (text : string) : Py World unit :=
  modify (fun w => {| files := <[filename := text]> (files w); logs := logs w;
                      env_user := env_user w; env_now := env_now w |}).

(** The [try ... except NotImplementedError] loop of [loadState]:
    [for i in range(version, cls.__version__)]. *)
Fixpoint patch_loop (versions : list Z) (restored_object : LabObject)
  : Py World LabObject :=
  match versions with
  | [] => ret restored_object
  | i :: versions' =>
      log_world WARNING ("Attempting patch " +:+ pretty i +:+ " -> " +:+
                         pretty LabState_version) ;;
      match patch_labstate i restored_object with
      | inr lab => patch_loop versions' (CurrentLab lab)
      | inl (NotImplementedError msg) =>
          (* except NotImplementedError as e: logger.exception(e) *)
          log_world ERROR msg ;;
          ret restored_object
      | inl e => raise e
      end
  end.

(** The attributes [loadState] sets on the object it restored from a
    document stored at [version]. *)
Definition loaded_meta (filename : string) (user datetime sha256 : json)
    (version : Z) : Meta :=
  {| __version__ := version;
     __sha256__ := json_to_str sha256;
     __user__ := json_to_str user;
     __datetime__ := json_to_str datetime;
     __filename__ := Some filename |}.

(** The second half of [loadState], from "Compare versions of file vs.
    class" on: [json_state] has lost its ["__user__"], ["__datetime__"]
    and ["__sha256__"]. *)
Definition load_verified (filename : string) (user datetime sha256 : json)
    (json_state : gmap string json) : Py World LabObject :=
  p <- lift_exn (dict_pop "__version__" json_state) ;;
  let json_state := p.2 in
  match p.1 with
  | JNum version =>
      (if bool_decide (version < LabState_version) then
         log_world WARNING "Loading older version of Labstate."
       else if bool_decide (version > LabState_version) then
         raise (RuntimeError
           "Stored Labstate version is newer than current software. Update package lightlab.")
       else ret tt) ;;
      match restore json_state with
      | Some restored_object =>
          let restored_object :=
            set_obj_meta (loaded_meta filename user datetime sha256 version)
                         restored_object in
          patch_loop (seqZ version (LabState_version - version))
                     restored_object
      | None => raise AttributeError
      end
  | _ => raise TypeError
  end.

(** [LabState.loadState(filename, validateHash)]. *)
Definition loadState (filename : option string) (validateHash : bool)
  : Py World LabObject :=
  let filename := default _filename filename in
  frozen_json <- read_file filename ;;
  json_state <- (match json_decode frozen_json with
                 | Some d => ret d
                 | None => raise JSONDecodeError
                 end) ;;
  p <- lift_exn (dict_pop "__user__" json_state) ;;
  let user := p.1 in let json_state := p.2 in
  p <- lift_exn (dict_pop "__datetime__" json_state) ;;
  let datetime := p.1 in let json_state := p.2 in
  (* Check integrity of stored version *)
  p <- lift_exn (dict_pop "__sha256__" json_state) ;;
  let sha256 := p.1 in let json_state := p.2 in
  if validateHash
     && negb (json_eq_str sha256 (hash_sha256 (json_encode json_state)))
  then raise (corrupted sha256 (hash_sha256 (json_encode json_state)))
  else load_verified filename user datetime sha256 json_state.

(** The digest [__toJSON] stores under ["__sha256__"]. *)
Definition content_digest (s : LabState) : string :=
  hash_sha256
    (json_encode (<["__version__" := JNum (__version__ (meta s))]> (flatten s))).

(** [LabState.__toJSON()]: the unencoded document. *)
Definition __toJSON (s : LabState) (w : World) : gmap string json :=
  let json_state := flatten s in
  (* Add version and hash of dictionary json_state *)
  let json_state :=
    <["__version__" := JNum (__version__ (meta s))]> json_state in
  let json_state :=
    <["__sha256__" := JStr (hash_sha256 (json_encode json_state))]> json_state in
  (* Add user and datetime information afterwards *)
  let json_state := <["__user__" := JStr (env_user w)]> json_state in
  <["__datetime__" := JStr (env_now w)]> json_state.

(** [LabState._toJSON()]: the encoded document. *)
Definition _toJSON (s : LabState) (w : World) : string :=
  json_encode (__toJSON s w).

(** The property [filename]. *)
Definition filename (s : LabState) : string :=
  default _filename (__filename__ (meta s)).

Definition set_sha256 (d : option string) (s : LabState) : LabState :=
  set_meta {| __version__ := __version__ (meta s); __sha256__ := d;
              __user__ := __user__ (meta s);
              __datetime__ := __datetime__ (meta s);
              __filename__ := __filename__ (meta s) |} s.

(** [LabState._saveState(fname, save_backup)]: saves the file without
    checking the hash.  [Path(fname).resolve()] is taken to be [fname]. *)
Definition _saveState (fname : option string) (save_backup : bool)
  : Py St unit :=
  s <- get_self ;;
  let fname := default (filename s) fname in
  let filepath := fname in
  (* it is good to backup this file in case it exists *)
  st <- get ;;
  match files (world st) !! filepath with
  | Some old_text =>
      when save_backup
        (let filepath_backup := backup_path filepath (env_now (world st)) in
         logger DEBUG ("Backup " +:+ filepath +:+ " to " +:+ filepath_backup) ;;
         lift_world (write_file filepath_backup old_text))
  | None => ret tt
  end ;;
  (* save to filepath, overwriting *)
  st <- get ;;
  let json_state := __toJSON (self st) (world st) in
  lift_world (write_file filepath (json_encode json_state)) ;;
  update_self (set_sha256 (Some (content_digest (self st)))) ;;
  logger DEBUG (fname +:+ "'s sha: " +:+ content_digest (self st)).

(** Modelled from the spec: [Hashable.__eq__] of lightlab.laboratory is
    missing; the save compares "in-memory state to the loaded state by
    full equality", "structural equality across all entity collections
    and connections". *)
Definition same_contents (a b : LabState) : Prop :=
  hosts a = hosts b /\ benches a = benches b
  /\ connections a = connections b /\ devices a = devices b
  /\ instruments a = instruments b.

#[global] Instance same_contents_dec a b : Decision (same_contents a b).
Proof. unfold same_contents. apply _. Defined.

(** [loaded_lab == self]. *)
Definition lab_eqb (loaded_lab : LabObject) (s : LabState) : bool :=
  match loaded_lab with
  | CurrentLab lab => bool_decide (same_contents lab s)
  | LegacyLab _ => false
  end.

(** [not self.__sha256__]. *)
Definition no_digest (d : option string) : bool :=
  match d with
  | None => true
  | Some d => bool_decide (d = "")
  end.

(** [LabState.saveState(fname, save_backup)]. *)
Definition saveState (fname : option string) (save_backup : bool)
  : Py St unit :=
  s <- get_self ;;
  let fname := default (filename s) fname in
  st <- get ;;
  match loadState (Some fname) true (world st) with
  | (Raised (FileNotFoundError _), w) =>
      put {| self := self st; world := w |} ;;
      logger DEBUG ("File not found: " +:+ fname +:+
                    ". Saving for the first time.") ;;
      _saveState (Some fname) false
  | (Raised e, w) =>
      put {| self := self st; world := w |} ;;
      raise e
  | (Returned loaded_lab, w) =>
      put {| self := self st; world := w |} ;;
      when (no_digest (__sha256__ (meta s)))
        (logger DEBUG
           "Attempting to compare fabricated labstate vs. preloaded one." ;;
         update_self (set_sha256 (Some (content_digest s))) ;;
         logger DEBUG ("self.__sha256__: " +:+ content_digest s)) ;;
      s <- get_self ;;
      if lab_eqb loaded_lab s then
        logger DEBUG "Detected no changes in labstate. Nothing to do."
      else if bool_decide (__sha256__ (obj_meta loaded_lab)
                           = __sha256__ (meta s))
      then _saveState (Some fname) save_backup
      else
        logger ERROR (fname +:+
          "'s hash does not match with the one loaded in memory. Aborting save.")
  end.


(** The document with ["__user__"], ["__datetime__"] and ["__sha256__"]
    popped, as [loadState] hashes it. *)
Definition stripped (d : gmap string json) : gmap string json :=
  delete "__sha256__" (delete "__datetime__" (delete "__user__" d)).

(** [self.__sha256__] once [saveState] has cached it: the recorded digest,
    or the digest of the present contents when none was recorded. *)
Definition recorded_digest (s : LabState) : option string :=
  if no_digest (__sha256__ (meta s)) then Some (content_digest s)
  else __sha256__ (meta s).

(** [self] after the caching step of [saveState]
    ([if not self.__sha256__: self.__sha256__ = ...]). *)
Definition cached (s : LabState) : LabState :=
  if no_digest (__sha256__ (meta s))
  then set_sha256 (Some (content_digest s)) s else s.

(** The line [saveState] logs when it refuses to write. *)
Definition conflict_record (fname : string) : LogRecord :=
  {| log_level := ERROR;
     log_msg := fname +:+
       "'s hash does not match with the one loaded in memory. Aborting save." |}.

(** The pickler writes none of the keys that [__toJSON] adds and
    [loadState] pops. *)
Definition metadata_free (d : gmap string json) : Prop :=
  d !! "__version__" = None /\ d !! "__sha256__" = None
  /\ d !! "__user__" = None /\ d !! "__datetime__" = None.

End persistence.

(** * The module variable [lab]

    The last statements of state.py put a [_Sneaky] object in the place of
    the module in [sys.modules] and set the module variable [lab] to
    [None]: the lab is loaded when [lab] is first read. *)

(** The values an attribute of the module holds, as far as the loader is
    concerned: [None], a boolean, a lab, or anything else the module
    defines (a class, a function, ...), known by its name. *)
Inductive PyValue : Type :=
  | PyNone
  | PyBool (b : bool)
  | PyLab (lab : LabObject)
  | PyOther (what : string).

(** A [_Sneaky] object and what it sees: its attribute [initializing],
    the namespace of the module it stands for ([self.module]), and the
    world. *)
Record Session : Type := {
  initializing : bool;
  module : gmap string PyValue;
  session_world : World
}.

(** The namespace of the module once it has been imported: [lab = None],
    and the other names state.py defines. *)
Definition imported_module : gmap string PyValue :=
  list_to_map
    [("lab", PyNone); ("LabState", PyOther "class LabState");
     ("patch_labstate", PyOther "function patch_labstate");
     ("hash_sha256", PyOther "function hash_sha256");
     ("timestamp_string", PyOther "function timestamp_string");
     ("_filename", PyOther "labstate-local.json")].

(** The session [_Sneaky(__name__)] starts. *)
Definition new_Session (w : World) : Session :=
  {| initializing := true; module := imported_module; session_world := w |}.

Definition set_lab (v : PyValue) (w : World) (ss : Session) : Session :=
  {| initializing := initializing ss; module := <["lab" := v]> (module ss);
     session_world := w |}.

Definition set_session_world (w : World) (ss : Session) : Session :=
  {| initializing := initializing ss; module := module ss;
     session_world := w |}.

Definition log_session (lv : level) (msg : string) : Py Session unit :=
  modify (fun ss => set_session_world (log_to lv msg (session_world ss)) ss).

Section lazy_loading.
Context `{Libs}.

(** The line that ends both [except] clauses of [__init__(module)]. *)
Definition fresh_lab_record : LogRecord :=
  {| log_level := ERROR;
     log_msg := "Starting fresh new LabState(). " +:+
                "Save for the first time with lab._saveState()" |}.

(** [__init__(module)]: [module.lab] becomes the lab loaded from
    [_filename], or a new one when the file cannot be opened
    ([except OSError]) or decoded ([except JSONDecodeError]).  Any other
    exception goes on to the caller.  (The text of a [JSONDecodeError] is
    not modelled: it is left empty in the log line.) *)
Definition __init__ : Py Session unit :=
  ss <- get ;;
  match loadState (Some _filename) true (session_world ss) with
  | (Returned loaded, w) => put (set_lab (PyLab loaded) w ss)
  | (Raised (FileNotFoundError fname), w) =>
      put (set_session_world w ss) ;;
      log_session ERROR ("FileNotFoundError: [Errno 2] No such file or directory: '"
                         +:+ fname +:+ "'.") ;;
      (* if empty_lab: *)
      log_session (log_level fresh_lab_record) (log_msg fresh_lab_record) ;;
      ss <- get ;;
      put (set_lab (PyLab (CurrentLab (new_LabState None))) (session_world ss) ss)
  | (Raised JSONDecodeError, w) =>
      put (set_session_world w ss) ;;
      log_session ERROR ("JSONDecodeError: " +:+ _filename +:+ " corrupted. .") ;;
      (* if empty_lab: *)
      log_session (log_level fresh_lab_record) (log_msg fresh_lab_record) ;;
      ss <- get ;;
      put (set_lab (PyLab (CurrentLab (new_LabState None))) (session_world ss) ss)
  | (Raised e, w) =>
      put (set_session_world w ss) ;;
      raise e
  end.

(** [_Sneaky.__getattribute__(self, name)]. *)
Definition __getattribute__ (name : string) : Py Session PyValue :=
  if bool_decide (name ∈ ["initializing"; "module"]) then
    ss <- get ;;
    ret (if bool_decide (name = "initializing")
         then PyBool (initializing ss) else PyOther "module")
  else
    (* call module.__init__ only after import introspection is done *)
    ss <- get ;;
    when (initializing ss && bool_decide (name = "lab"))
      (put {| initializing := false; module := module ss;
              session_world := session_world ss |} ;;
       __init__) ;;
    (* return getattr(self.module, name) *)
    ss <- get ;;
    match module ss !! name with
    | Some v => ret v
    | None => raise AttributeError
    end.

End lazy_loading.

(** * SHA-256

    [hashlib.sha256(...).hexdigest()] as FIPS 180-4 defines it, on 32-bit
    words held in [Z] with the wrap-around written out. *)

Module SHA256.

Definition mask32 (x : Z) : Z := Z.land x 4294967295.
Definition add32 (x y : Z) : Z := mask32 (x + y).
Definition rotr (n x : Z) : Z :=
  mask32 (Z.lor (Z.shiftr x n) (Z.shiftl x (32 - n))).
Definition not32 (x : Z) : Z := Z.lxor x 4294967295.

Definition Ch (x y z : Z) : Z := Z.lxor (Z.land x y) (Z.land (not32 x) z).
Definition Maj (x y z : Z) : Z :=
  Z.lxor (Z.lxor (Z.land x y) (Z.land x z)) (Z.land y z).
Definition Sigma0 (x : Z) : Z :=
  Z.lxor (Z.lxor (rotr 2 x) (rotr 13 x)) (rotr 22 x).
Definition Sigma1 (x : Z) : Z :=
  Z.lxor (Z.lxor (rotr 6 x) (rotr 11 x)) (rotr 25 x).
Definition sigma0 (x : Z) : Z :=
  Z.lxor (Z.lxor (rotr 7 x) (rotr 18 x)) (Z.shiftr x 3).
Definition sigma1 (x : Z) : Z :=
  Z.lxor (Z.lxor (rotr 17 x) (rotr 19 x)) (Z.shiftr x 10).

Definition K : list Z :=
  [1116352408; 1899447441; 3049323471; 3921009573; 961987163; 1508970993;
   2453635748; 2870763221; 3624381080; 310598401; 607225278; 1426881987;
   1925078388; 2162078206; 2614888103; 3248222580; 3835390401; 4022224774;
   264347078; 604807628; 770255983; 1249150122; 1555081692; 1996064986;
   2554220882; 2821834349; 2952996808; 3210313671; 3336571891; 3584528711;
   113926993; 338241895; 666307205; 773529912; 1294757372; 1396182291;
   1695183700; 1986661051; 2177026350; 2456956037; 2730485921; 2820302411;
   3259730800; 3345764771; 3516065817; 3600352804; 4094571909; 275423344;
   430227734; 506948616; 659060556; 883997877; 958139571; 1322822218;
   1537002063; 1747873779; 1955562222; 2024104815; 2227730452; 2361852424;
   2428436474; 2756734187; 3204031479; 3329325298].

Definition H0 : list Z :=
  [1779033703; 3144134277; 1013904242; 2773480762; 1359893119; 2600822924;
   528734635; 1541459225].

Fixpoint bytes_of (s : string) : list Z :=
  match s with
  | EmptyString => []
  | String a s' => Z.of_nat (nat_of_ascii a) :: bytes_of s'
  end.

(** The big-endian bytes of [x], [n] of them. *)
Fixpoint be_bytes (n : nat) (x : Z) : list Z :=
  match n with
  | O => []
  | S n' => be_bytes n' (Z.shiftr x 8) ++ [Z.land x 255]
  end.

Definition pad (msg : list Z) : list Z :=
  let len := Z.of_nat (length msg) in
  let zeros := Z.to_nat ((55 - len) `mod` 64) in
  msg ++ [128] ++ replicate zeros 0 ++ be_bytes 8 (8 * len).

Fixpoint words (fuel : nat) (bs : list Z) : list Z :=
  match fuel, bs with
  | S fuel', b0 :: b1 :: b2 :: b3 :: bs' =>
      (b0 * 16777216 + b1 * 65536 + b2 * 256 + b3) :: words fuel' bs'
  | _, _ => []
  end.

(** [schedule n w]: [w] holds the words so far, the latest first. *)
Fixpoint schedule (n : nat) (w : list Z) : list Z :=
  match n with
  | O => w
  | S n' =>
      let new := add32 (add32 (sigma1 (w !!! 1%nat)) (w !!! 6%nat))
                       (add32 (sigma0 (w !!! 14%nat)) (w !!! 15%nat)) in
      schedule n' (new :: w)
  end.

Definition round (v : list Z) (kw : Z * Z) : list Z :=
  match v with
  | [a; b; c; d; e; f; g; h] =>
      let t1 := add32 (add32 (add32 h (Sigma1 e)) (add32 (Ch e f g) kw.1)) kw.2 in
      let t2 := add32 (Sigma0 a) (Maj a b c) in
      [add32 t1 t2; a; b; c; add32 d t1; e; f; g]
  | _ => v
  end.

Definition compress (h : list Z) (block : list Z) : list Z :=
  let w := reverse (schedule 48 (reverse block)) in
  zip_with add32 h (foldl round h (zip K w)).

Fixpoint blocks (fuel : nat) (ws : list Z) (h : list Z) : list Z :=
  match fuel, ws with
  | S fuel', _ :: _ => blocks fuel' (drop 16 ws) (compress h (take 16 ws))
  | _, _ => h
  end.

Definition hex_digit (d : Z) : ascii :=
  ascii_of_nat (Z.to_nat (if bool_decide (d < 10) then 48 + d else 87 + d)).

Definition hex_byte (b : Z) (rest : string) : string :=
  String (hex_digit (Z.shiftr b 4)) (String (hex_digit (Z.land b 15)) rest).

Definition hexdigest (s : string) : string :=
  let bs := pad (bytes_of s) in
  let ws := words (length bs) bs in
  let h := blocks (length ws) ws H0 in
  foldr hex_byte EmptyString (h ≫= be_bytes 4).

End SHA256.

(** * A reference implementation of the libraries

    Used to run the protocol on concrete labs.  The encoder writes JSON
    with sorted keys and a space after each colon, as Python's does; the decoder reads JSON, skipping the
    white space between tokens; the pickler writes each entity as an
    object of its attributes and each collection as an array in list
    order. *)

Module Reference.

Definition quote : string := String "034"%char EmptyString.

Fixpoint encode_json (j : json) : string :=
  match j with
  | JNull => "null"
  | JBool true => "true"
  | JBool false => "false"
  | JNum z => pretty z
  | JStr s => quote +:+ s +:+ quote
  | JArr l => "[" +:+ String.concat "," (List.map encode_json l) +:+ "]"
  | JObj kvs =>
      "{" +:+ String.concat ","
                (List.map (fun kv => let '(k, v) := kv in
                                     quote +:+ k +:+ quote +:+ ": " +:+ encode_json v)
                          kvs) +:+ "}"
  end.

(** [sort_keys=True]: the keys of the document in ascending order (the
    pickler below writes the attributes of an entity in that order
    already). *)
Definition key_le (a b : string * json) : Prop := String.leb a.1 b.1 = true.

#[local] Instance key_le_dec : RelDecision key_le.
Proof. intros a b. unfold key_le. apply _. Defined.

Definition sorted_items (d : gmap string json) : list (string * json) :=
  merge_sort key_le (map_to_list d).

Definition encode (d : gmap string json) : string :=
  encode_json (JObj (sorted_items d)).

(** *** The decoder *)

Fixpoint strip_prefix (p s : string) : option string :=
  match p, s with
  | EmptyString, _ => Some s
  | String a p', String b s' =>
      if Ascii.eqb a b then strip_prefix p' s' else None
  | _, _ => None
  end.

(** The text up to the next quote, and what follows the quote. *)
Fixpoint until_quote (s : string) : option (string * string) :=
  match s with
  | EmptyString => None
  | String a s' =>
      if Ascii.eqb a "034"%char then Some (EmptyString, s')
      else match until_quote s' with
           | Some (t, r) => Some (String a t, r)
           | None => None
           end
  end.

Definition digit_of (a : ascii) : option Z :=
  let n := Z.of_nat (nat_of_ascii a) in
  if bool_decide (48 <= n <= 57) then Some (n - 48) else None.

Fixpoint digits (acc : Z) (s : string) : Z * string :=
  match s with
  | EmptyString => (acc, s)
  | String a s' =>
      match digit_of a with
      | Some d => digits (10 * acc + d) s'
      | None => (acc, s)
      end
  end.

Definition parse_number (s : string) : option (json * string) :=
  match s with
  | String a s' =>
      if Ascii.eqb a "-"%char then
        match s' with
        | String b _ =>
            match digit_of b with
            | Some _ => let '(z, r) := digits 0 s' in Some (JNum (- z), r)
            | None => None
            end
        | EmptyString => None
        end
      else
        match digit_of a with
        | Some _ => let '(z, r) := digits 0 s in Some (JNum z, r)
        | None => None
        end
  | EmptyString => None
  end.

Definition is_space (a : ascii) : bool :=
  Ascii.eqb a " "%char || Ascii.eqb a "009"%char
  || Ascii.eqb a "010"%char || Ascii.eqb a "013"%char.

(** The text without its leading white space. *)
Fixpoint ws (s : string) : string :=
  match s with
  | String a s' => if is_space a then ws s' else s
  | EmptyString => s
  end.

Fixpoint parse_value (fuel : nat) (s : string) : option (json * string) :=
  match fuel with
  | O => None
  | S fuel' =>
      let s := ws s in
      match strip_prefix "null" s, strip_prefix "true" s,
            strip_prefix "false" s, strip_prefix quote s,
            strip_prefix "[" s, strip_prefix "{" s with
      | Some r, _, _, _, _, _ => Some (JNull, r)
      | _, Some r, _, _, _, _ => Some (JBool true, r)
      | _, _, Some r, _, _, _ => Some (JBool false, r)
      | _, _, _, Some r, _, _ =>
          match until_quote r with
          | Some (t, r') => Some (JStr t, r')
          | None => None
          end
      | _, _, _, _, Some r, _ =>
          match strip_prefix "]" (ws r) with
          | Some r' => Some (JArr [], r')
          | None =>
              match parse_elements fuel' r with
              | Some (l, r') => Some (JArr l, r')
              | None => None
              end
          end
      | _, _, _, _, _, Some r =>
          match strip_prefix "}" (ws r) with
          | Some r' => Some (JObj [], r')
          | None =>
              match parse_members fuel' r with
              | Some (kvs, r') => Some (JObj kvs, r')
              | None => None
              end
          end
      | _, _, _, _, _, _ => parse_number s
      end
  end
with parse_elements (fuel : nat) (s : string) : option (list json * string) :=
  match fuel with
  | O => None
  | S fuel' =>
      match parse_value fuel' s with
      | Some (v, r) =>
          match strip_prefix "," (ws r), strip_prefix "]" (ws r) with
          | Some r', _ =>
              match parse_elements fuel' r' with
              | Some (l, r'') => Some (v :: l, r'')
              | None => None
              end
          | _, Some r' => Some ([v], r')
          | _, _ => None
          end
      | None => None
      end
  end
with parse_members (fuel : nat) (s : string)
  : option (list (string * json) * string) :=
  match fuel with
  | O => None
  | S fuel' =>
      match strip_prefix quote (ws s) with
      | Some r =>
          match until_quote r with
          | Some (k, r1) =>
              match strip_prefix ":" (ws r1) with
              | Some r2 =>
                  match parse_value fuel' r2 with
                  | Some (v, r3) =>
                      match strip_prefix "," (ws r3),
                            strip_prefix "}" (ws r3) with
                      | Some r', _ =>
                          match parse_members fuel' r' with
                          | Some (kvs, r'') => Some ((k, v) :: kvs, r'')
                          | None => None
                          end
                      | _, Some r' => Some ([(k, v)], r')
                      | _, _ => None
                      end
                  | None => None
                  end
              | None => None
              end
          | None => None
          end
      | None => None
      end
  end.

Definition decode (text : string) : option (gmap string json) :=
  match parse_value (S (String.length text)) text with
  | Some (JObj kvs, r) =>
      match ws r with
      | EmptyString => Some (list_to_map kvs)
      | _ => None
      end
  | _ => None
  end.

(** *** The pickler *)

Definition flatten_opt_str (o : option string) : json :=
  match o with
  | Some t => JStr t
  | None => JNull
  end.

Definition flatten_bench (b : Bench) : json :=
  JObj [("name", JStr (bench_name b))].

Definition flatten_host (h : Host) : json :=
  JObj [("hostname", flatten_opt_str (hostname h));
        ("local", JBool (host_local h));
        ("mac_address", flatten_opt_str (mac_address h));
        ("name", JStr (host_name h));
        ("os", flatten_opt_str (os h))].

Definition flatten_opt {A} (f : A -> json) (o : option A) : json :=
  match o with
  | Some a => f a
  | None => JNull
  end.

Definition flatten_instrument (i : Instrument) : json :=
  JObj [("bench", flatten_opt flatten_bench (instr_bench i));
        ("host", flatten_opt flatten_host (instr_host i));
        ("name", JStr (instr_name i));
        ("ports", JArr (JStr <$> instr_ports i))].

Definition flatten_device (d : Device) : json :=
  JObj [("bench", flatten_opt flatten_bench (dev_bench d));
        ("name", JStr (dev_name d));
        ("ports", JArr (JStr <$> dev_ports d))].

Definition flatten_entity (k : Entity) : json :=
  match k with
  | EInstrument i => JObj [("instrument", flatten_instrument i)]
  | EDevice d => JObj [("device", flatten_device d)]
  end.

Definition flatten_connection (c : Connection) : json :=
  JArr ((fun kv => JArr [flatten_entity kv.1; JStr kv.2]) <$> c).

Definition flatten_lab (s : LabState) : gmap string json :=
  list_to_map
    [("hosts", JArr (flatten_host <$> hosts s));
     ("benches", JArr (flatten_bench <$> benches s));
     ("connections", JArr (flatten_connection <$> connections s));
     ("devices", JArr (flatten_device <$> devices s));
     ("instruments", JArr (flatten_instrument <$> instruments s))].

(** *** The unpickler *)

Fixpoint assoc (k : string) (kvs : list (string * json)) : option json :=
  match kvs with
  | [] => None
  | (k', v) :: kvs' => if bool_decide (k' = k) then Some v else assoc k kvs'
  end.

Definition field (k : string) (j : json) : option json :=
  match j with
  | JObj kvs => assoc k kvs
  | _ => None
  end.

Definition restore_str (j : json) : option string :=
  match j with
  | JStr t => Some t
  | _ => None
  end.

Definition restore_bool (j : json) : option bool :=
  match j with
  | JBool b => Some b
  | _ => None
  end.

Definition restore_opt {A} (f : json -> option A) (j : json)
  : option (option A) :=
  match j with
  | JNull => Some None
  | _ => Some <$> f j
  end.

Definition restore_list {A} (f : json -> option A) (j : json)
  : option (list A) :=
  match j with
  | JArr l => mapM f l
  | _ => None
  end.

Definition restore_bench (j : json) : option Bench :=
  n ← field "name" j ≫= restore_str;
  Some {| bench_name := n |}.

Definition restore_host (j : json) : option Host :=
  n ← field "name" j ≫= restore_str;
  m ← field "mac_address" j ≫= restore_opt restore_str;
  hn ← field "hostname" j ≫= restore_opt restore_str;
  o ← field "os" j ≫= restore_opt restore_str;
  l ← field "local" j ≫= restore_bool;
  Some {| host_name := n; mac_address := m; hostname := hn; os := o;
          host_local := l |}.

Definition restore_instrument (j : json) : option Instrument :=
  n ← field "name" j ≫= restore_str;
  p ← field "ports" j ≫= restore_list restore_str;
  b ← field "bench" j ≫= restore_opt restore_bench;
  h ← field "host" j ≫= restore_opt restore_host;
  Some {| instr_name := n; instr_ports := p; instr_bench := b;
          instr_host := h |}.

Definition restore_device (j : json) : option Device :=
  n ← field "name" j ≫= restore_str;
  p ← field "ports" j ≫= restore_list restore_str;
  b ← field "bench" j ≫= restore_opt restore_bench;
  Some {| dev_name := n; dev_ports := p; dev_bench := b |}.

Definition restore_entity (j : json) : option Entity :=
  match field "instrument" j, field "device" j with
  | Some i, _ => EInstrument <$> restore_instrument i
  | None, Some d => EDevice <$> restore_device d
  | None, None => None
  end.

Definition restore_item (j : json) : option (Entity * string) :=
  match j with
  | JArr [k; v] => k ← restore_entity k; v ← restore_str v; Some (k, v)
  | _ => None
  end.

Definition restore_lab (d : gmap string json) : option LabObject :=
  hs ← d !! "hosts" ≫= restore_list restore_host;
  bs ← d !! "benches" ≫= restore_list restore_bench;
  cs ← d !! "connections" ≫= restore_list (restore_list restore_item);
  ds ← d !! "devices" ≫= restore_list restore_device;
  ins ← d !! "instruments" ≫= restore_list restore_instrument;
  Some (CurrentLab
          {| hosts := hs; benches := bs; connections := cs; devices := ds;
             instruments := ins; meta := meta (new_LabState None) |}).

Definition libs : Libs :=
  {| json_encode := encode;
     json_decode := decode;
     sha256_hexdigest := SHA256.hexdigest;
     flatten := flatten_lab;
     restore := restore_lab;
     backup_path := fun p timestamp => p +:+ "_" +:+ timestamp +:+ ".json" |}.

(** *** Documents of the version 1 shape

    In a version 1 document a bench carries its instruments and devices,
    and a host its instruments. *)

Definition restore_old_bench (j : json) : option OldBench :=
  n ← field "name" j ≫= restore_str;
  Some {| old_bench_name := n;
          old_bench_instruments :=
            field "instruments" j ≫= restore_list restore_instrument;
          old_bench_devices :=
            field "devices" j ≫= restore_list restore_device |}.

Definition restore_old_host (j : json) : option OldHost :=
  n ← field "name" j ≫= restore_str;
  m ← field "mac_address" j ≫= restore_opt restore_str;
  hn ← field "hostname" j ≫= restore_opt restore_str;
  o ← field "os" j ≫= restore_opt restore_str;
  Some {| old_host_name := n; old_host_mac_address := m;
          old_host_hostname := hn; old_host_os := o;
          old_host_instruments :=
            field "instruments" j ≫= restore_list restore_instrument |}.

Definition restore_old_lab (d : gmap string json) : option LabObject :=
  hs ← d !! "hosts" ≫= restore_list restore_old_host;
  bs ← d !! "benches" ≫= restore_list restore_old_bench;
  cs ← d !! "connections" ≫= restore_list (restore_list restore_item);
  Some (LegacyLab
          {| old_hosts := hs; old_benches := bs; old_connections := cs;
             old_meta := meta (new_LabState None) |}).

(** The unpickler for documents of either shape: one that has no
    top-level ["instruments"] is of the version 1 shape. *)
Definition restore_any (d : gmap string json) : option LabObject :=
  match d !! "instruments" with
  | Some _ => restore_lab d
  | None => restore_old_lab d
  end.

Definition libs_v1 : Libs :=
  {| json_encode := encode;
     json_decode := decode;
     sha256_hexdigest := SHA256.hexdigest;
     flatten := flatten_lab;
     restore := restore_any;
     backup_path := fun p timestamp => p +:+ "_" +:+ timestamp +:+ ".json" |}.

End Reference.

(** * lightlab.equipment.abstract_drivers.electrical_sources

    The class [ElectricalSource] of
    [src/lightlab/equipment/abstract_drivers/electrical_sources.py]: a
    dict from the channels that were blocked out to their values.  A
    Python dict is the list of its items in insertion order; the channels
    are integers, and the values are of any type [V] that has the [0] the
    code writes. *)

Module ElectricalSource.

(** The exceptions of the class: [TypeError], [io.ChannelError] (of
    lightlab.util.io) and the plain [Exception] of [__init__]. *)
Inductive error : Type :=
  | TypeError (msg : string)
  | ChannelError (msg : string)
  | Exception (msg : string).

Inductive result (A : Type) : Type :=
  | Ok (a : A)
  | Raise (e : error).
Arguments Ok {A} a.
Arguments Raise {A} e.

Section source.
Context {V : Type} (zero : V).

(** [d.keys()], [d.get(k)], [d[k] = v], [d.update(items)] and
    [dict(items)]. *)
Definition dict_keys (d : list (Z * V)) : list Z := d.*1.

Fixpoint dict_get (k : Z) (d : list (Z * V)) : option V :=
  match d with
  | [] => None
  | (k', v) :: d' => if bool_decide (k' = k) then Some v else dict_get k d'
  end.

Fixpoint dict_set (k : Z) (v : V) (d : list (Z * V)) : list (Z * V) :=
  match d with
  | [] => [(k, v)]
  | (k', v') :: d' =>
      if bool_decide (k' = k) then (k, v) :: d' else (k', v') :: dict_set k v d'
  end.

Definition dict_update (items : list (Z * V)) (d : list (Z * V))
  : list (Z * V) :=
  foldl (fun d kv => dict_set kv.1 kv.2 d) d items.

Definition dict_of (items : list (Z * V)) : list (Z * V) :=
  dict_update items [].

(** The attribute [self.stateDict]. *)
Record Source : Type := { stateDict : list (Z * V) }.

(** What a caller passes as [chanValDict]: a dict, or something else. *)
Inductive Arg : Type :=
  | ArgDict (items : list (Z * V))
  | ArgOther.

(** [ElectricalSource.getChannels()]. *)
Definition getChannels (self : Source) : list Z := dict_keys (stateDict self).

(** [ElectricalSource(useChans)], for a class whose [maxChannel] is
    [maxChannel]. *)
Definition __init__ (maxChannel : option Z) (useChans : option (list Z))
  : result Source :=
  let useChans := default [] useChans in
  let self := {| stateDict := dict_of ((fun ch => (ch, zero)) <$> useChans) |} in
  (* Check that the requested channels are available to be blocked out *)
  match maxChannel with
  | Some maxChannel =>
      if existsb (fun ch => bool_decide (ch > maxChannel - 1)) (getChannels self)
      then Raise (Exception "Requested channel is more than there are available")
      else Ok self
  | None => Ok self
  end.

(** [str(self.stateDict.keys())]. *)
Definition str_keys (d : list (Z * V)) : string :=
  "dict_keys([" +:+ String.concat ", " (pretty <$> dict_keys d) +:+ "])".

(** [ElectricalSource.setChannelTuning(chanValDict)]: the outcome and
    [self] afterwards. *)
Definition setChannelTuning (chanValDict : Arg) (self : Source)
  : result unit * Source :=
  match chanValDict with
  | ArgOther =>
      (Raise (TypeError "The argument for setChannelTuning must be a dictionary"),
       self)
  | ArgDict items =>
      (* Check channels *)
      match List.find (fun chan => bool_decide (chan ∉ dict_keys (stateDict self)))
                      (dict_keys items) with
      | Some chan =>
          (Raise (ChannelError ("Channel index not blocked out. " +:+
                                "Requested " +:+ pretty chan +:+
                                ", Available " +:+ str_keys (stateDict self))),
           self)
      | None =>
          (* Change our *internal* state *)
          (Ok tt, {| stateDict := dict_update items (stateDict self) |})
      end
  end.

(** [ElectricalSource.getChannelTuning()]: a copy of the dict. *)
Definition getChannelTuning (self : Source) : list (Z * V) := stateDict self.

(** [ElectricalSource.off()]. *)
Definition off (self : Source) : result unit * Source :=
  setChannelTuning
    (ArgDict (dict_of ((fun ch => (ch, zero)) <$> dict_keys (stateDict self))))
    self.

End source.
End ElectricalSource.

(** * Definitions used in the statements *)

(** [add_logs extra st]: [st] with [extra] appended to the log. *)
Definition add_logs (extra : list LogRecord) (st : St) : St :=
  {| self := self st;
     world := {| files := files (world st); logs := logs (world st) ++ extra;
                 env_user := env_user (world st);
                 env_now := env_now (world st) |} |}.

(** The name [find_localhost] computes: that of the last local host. *)
Definition last_localhost (l : list Host) (acc : option string)
  : option string :=
  foldl (fun acc h => if host_local h then Some (host_name h) else acc) acc l.

(** What a computation can raise, and what it leaves alone. *)
Definition raises_only {S A} (P : exn -> Prop) (m : Py S A) : Prop :=
  forall st e st', m st = (Raised e, st') -> P e.

Definition keeps {S A X} (f : S -> X) (m : Py S A) : Prop :=
  forall st r st', m st = (r, st') -> f st' = f st.

Definition not_NotImplemented (e : exn) : Prop :=
  match e with
  | NotImplementedError _ => False
  | _ => True
  end.

(** What logging leaves alone: the files, the user, the clock. *)
Definition log_invariant {X} (f : World -> X) : Prop :=
  forall lv msg w, f (log_to lv msg w) = f w.

(** What [updateConnections] computes on a batch whose ports are all
    valid: the connections left by the removal pass, then by the append
    pass. *)
Definition remove_conflicting (kvs : list (Entity * string))
    (l : list Connection) : list Connection :=
  foldl (fun l kv =>
           filter (fun x => check_if_port_is_not_connected x kv.1 kv.2 = true) l)
        l kvs.

Definition append_new (conns : list Connection) (l : list Connection)
  : list Connection :=
  foldl (fun l c => if connection_in c l then l else l ++ [c]) l conns.

(** "A given (entity, port) pair appears in at most one connection." *)
Definition one_per_port (l : list Connection) : Prop :=
  forall kv : Entity * string,
    (length (filter (fun c : Connection => kv ∈ c) l) <= 1)%nat.

Definition with_connections (l : list Connection) (st : St) : St :=
  {| self := set_connections l (self st); world := world st |}.

(** "The same logical entities and connections, regardless of the order
    in which entities were inserted into the collections". *)
Definition same_entities (a b : LabState) : Prop :=
  hosts a ≡ₚ hosts b /\ benches a ≡ₚ benches b /\ devices a ≡ₚ devices b
  /\ instruments a ≡ₚ instruments b /\ connections a = connections b.

#[global] Instance same_entities_dec a b : Decision (same_entities a b).
Proof. unfold same_entities. apply _. Defined.

(** The state a call leaves behind. *)
Definition run {S A} (m : Py S A) (st : S) : S := (m st).2.

(** ** More definitions for the registry *)

(** The hosts marked local. *)
Definition local_hosts (l : list Host) : list Host :=
  filter (fun h => host_local h = true) l.

(** [self.hosts[h.name] = h] for each host of a batch, in order. *)
Definition upsert_hosts (new_hosts : list Host) (l : list Host) : list Host :=
  foldl (fun l h => TypedList.setitem (host_name h) h l) l new_hosts.

(** A state with one of its collections replaced. *)
Definition put_hosts (l : list Host) (st : St) : St :=
  {| self := set_hosts l (self st); world := world st |}.
Definition put_benches (l : list Bench) (st : St) : St :=
  {| self := set_benches l (self st); world := world st |}.
Definition put_instruments (l : list Instrument) (st : St) : St :=
  {| self := set_instruments l (self st); world := world st |}.
Definition put_devices (l : list Device) (st : St) : St :=
  {| self := set_devices l (self st); world := world st |}.

(** The second statement of [insertInstrument] and of [insertDevice]:
    [if x.bench and x.bench not in self.benches: ...]. *)
Definition register_bench (o : option Bench) : Py St unit :=
  match o with
  | Some bench =>
      s <- get_self ;;
      when (negb (TypedList.contains bench (benches s)))
        (logger WARNING ("Insterting *new* bench " +:+ bench_name bench) ;;
         l <- lift_exn (TypedList.append bench (benches s)) ;;
         update_self (set_benches l))
  | None => ret tt
  end.

(** The third statement of [insertInstrument]:
    [if instrument.host and instrument.host not in self.hosts: ...]. *)
Definition register_host (o : option Host) : Py St unit :=
  match o with
  | Some host =>
      s <- get_self ;;
      when (negb (TypedList.contains host (hosts s)))
        (logger WARNING ("Inserting *new* host " +:+ host_name host) ;;
         l <- lift_exn (TypedList.append host (hosts s)) ;;
         update_self (set_hosts l))
  | None => ret tt
  end.

(** ** More definitions for the load and save protocol *)

(** The first of the three fields [loadState] pops before its integrity
    check that the document lacks. *)
Definition first_missing (d : gmap string json) : option string :=
  head (filter (fun k => d !! k = None)
               ["__user__"; "__datetime__"; "__sha256__"]).

(** [w'] is [w] with lines added to the log. *)
Definition logged_more (w w' : World) : Prop :=
  files w' = files w /\ env_user w' = env_user w /\ env_now w' = env_now w
  /\ exists extra, logs w' = logs w ++ extra.

(** The exception [loadState] raises for a document of a newer version. *)
Definition newer_version_error : exn :=
  RuntimeError
    "Stored Labstate version is newer than current software. Update package lightlab.".

(** Every run of [m] takes a state to one related to it by [R]. *)
Definition preserves {S A} (R : S -> S -> Prop) (m : Py S A) : Prop :=
  forall st r st', m st = (r, st') -> R st st'.




(** [Bench(name=old_bench.name)] and [Host(name=old_host.name, ...)]: the
    bench and the host the version 1 patch makes of an old one. *)
Definition new_bench_of (old_bench : OldBench) : Bench :=
  {| bench_name := old_bench_name old_bench |}.
Definition new_host_of (old_host : OldHost) : Host :=
  {| host_name := old_host_name old_host;
     mac_address := old_host_mac_address old_host;
     hostname := old_host_hostname old_host;
     os := old_host_os old_host;
     host_local := false |}.

(** The exceptions the two [except] clauses of [__init__(module)] catch. *)
Definition caught_by_init (e : exn) : Prop :=
  match e with
  | FileNotFoundError _ | JSONDecodeError => True
  | _ => False
  end.

(** * Concrete labs *)

Module Sample.
Definition bench1 : Bench := {| bench_name := "bench1" |}.
Definition andromeda : Host := LocalHost "andromeda".
Definition cassander : Host := LocalHost "cassander".
Definition keithley : Instrument :=
  {| instr_name := "Keithley2"; instr_ports := ["port1"; "port2"];
     instr_bench := Some bench1; instr_host := Some andromeda |}.
Definition keithley_moved : Instrument :=
  {| instr_name := "Keithley2"; instr_ports := ["port1"];
     instr_bench := Some {| bench_name := "bench2" |};
     instr_host := Some cassander |}.
Definition osa : Instrument :=
  {| instr_name := "OSA"; instr_ports := ["in"];
     instr_bench := None; instr_host := None |}.
Definition ring : Device :=
  {| dev_name := "ring"; dev_ports := ["port2"]; dev_bench := None |}.
Definition mzi : Device :=
  {| dev_name := "mzi"; dev_ports := ["port3"]; dev_bench := None |}.

Definition world0 : World :=
  {| files := ∅; logs := []; env_user := "operator";
     env_now := "2018-03-25T18:30:55" |}.

(** [LabState()] in a world with no file and an empty log. *)
Definition st0 : St := {| self := new_LabState None; world := world0 |}.

Definition with_instruments (l : list Instrument) : St :=
  {| self := set_instruments l (new_LabState None); world := world0 |}.
Definition with_hosts (l : list Host) : St :=
  {| self := set_hosts l (new_LabState None); world := world0 |}.

(** ({Keithley2: port1, ring: port2}) and ({Keithley2: port1, mzi: port3}). *)
Definition conn_ring : Connection :=
  [(EInstrument keithley, "port1"); (EDevice ring, "port2")].
Definition conn_mzi : Connection :=
  [(EInstrument keithley, "port1"); (EDevice mzi, "port3")].
Definition conn_bad : Connection :=
  [(EInstrument keithley, "port1"); (EDevice ring, "port9")].
End Sample.

(** * Scenarios *)

Module Scenario.
Import Sample.

(** A lab with two instruments and a connection, in a world without
    files. *)
Definition lab_st : St :=
  run (insertInstrument keithley ;; insertInstrument osa ;;
       updateConnections [conn_ring]) st0.

(** The same world after the lab has been saved to "lab.json". *)
Definition saved_st : St :=
  run (saveState (H:=Reference.libs) (Some "lab.json") true) lab_st.

(** Another lab, made from scratch in the world where "lab.json" holds
    the first. *)
Definition other_st : St :=
  {| self := self (run (insertInstrument osa) st0); world := world saved_st |}.


(** The first lab as a document of schema version 0, saved to
    "old.json". *)
Definition v0_st : St :=
  {| self := set_meta {| __version__ := 0; __sha256__ := None;
                         __user__ := None; __datetime__ := None;
                         __filename__ := None |} (self lab_st);
     world := world0 |}.
Definition v0_saved : World :=
  world (run (_saveState (H:=Reference.libs) (Some "old.json") false) v0_st).
Definition old_text : string := default "" (files v0_saved !! "old.json").
Definition old_doc : gmap string json :=
  default ∅ (Reference.decode old_text).

(** "lab.json" with its instruments emptied by hand, the stored digest
    left as it was. *)
Definition lab_doc : gmap string json :=
  __toJSON (H:=Reference.libs) (self lab_st) (world lab_st).
Definition tampered_doc : gmap string json :=
  <["instruments" := JArr []]> lab_doc.
Definition tampered_world : World :=
  {| files := {["lab.json" := Reference.encode tampered_doc]}; logs := [];
     env_user := "operator"; env_now := "2018-03-25T18:30:55" |}.

(** What loading "lab.json" gives in the world of [other_st]. *)
Definition loaded_world : World :=
  (loadState (H:=Reference.libs) (Some "lab.json") true (world other_st)).2.
Definition loaded_lab : LabObject :=
  match (loadState (H:=Reference.libs) (Some "lab.json") true
           (world other_st)).1 with
  | Returned o => o
  | Raised _ => CurrentLab (new_LabState None)
  end.

(** What loading "old.json" gives. *)
Definition v0_loaded : LabObject :=
  match (loadState (H:=Reference.libs) (Some "old.json") true v0_saved).1 with
  | Returned o => o
  | Raised _ => CurrentLab (new_LabState None)
  end.


(** "lab.json" as the save wrote it, and the same text with one byte
    changed: the space after the colon that follows the key
    "instruments" has become a tab. *)
Definition lab_text : string := default "" (files (world saved_st) !! "lab.json").

Fixpoint set_char (n : nat) (a : ascii) (s : string) : string :=
  match s, n with
  | EmptyString, _ => EmptyString
  | String _ s', O => String a s'
  | String b s', S n' => String b (set_char n' a s')
  end.

Definition flip_pos : nat :=
  default 0%nat (String.index 0 "instruments" lab_text) + 13.
Definition flipped_text : string := set_char flip_pos "009"%char lab_text.
Definition flipped_world : World :=
  {| files := {["lab.json" := flipped_text]}; logs := [];
     env_user := "operator"; env_now := "2018-03-25T18:30:55" |}.
Definition flipped_loaded : LabState :=
  match (loadState (H:=Reference.libs) (Some "lab.json") true
           flipped_world).1 with
  | Returned (CurrentLab lab) => lab
  | _ => new_LabState None
  end.

(** A lab of the version 1 shape: the instrument sits in the lists of its
    bench and of its host, the device in the list of its bench. *)
Definition plain_andromeda : Host :=
  {| host_name := "andromeda"; mac_address := None; hostname := None;
     os := Some "linux"; host_local := false |}.
Definition old_keithley : Instrument :=
  {| instr_name := "Keithley2"; instr_ports := ["port1"; "port2"];
     instr_bench := Some bench1; instr_host := Some plain_andromeda |}.
Definition old_lab : LabObject :=
  LegacyLab
    {| old_hosts :=
         [{| old_host_name := "andromeda"; old_host_mac_address := None;
             old_host_hostname := None; old_host_os := Some "linux";
             old_host_instruments := Some [old_keithley] |}];
       old_benches :=
         [{| old_bench_name := "bench1";
             old_bench_instruments := Some [old_keithley];
             old_bench_devices := Some [ring] |}];
       old_connections := [conn_ring];
       old_meta := {| __version__ := 1; __sha256__ := None; __user__ := None;
                      __datetime__ := None; __filename__ := None |} |}.
(** The lab of the version 1 patch on [old_lab]. *)
Definition patched_lab : LabState :=
  {| hosts := [plain_andromeda; LocalHost "cassander"];
     benches := [bench1];
     connections := [conn_ring];
     devices := [set_dev_bench bench1 ring];
     instruments := [old_keithley];
     meta := meta (new_LabState None) |}.

(** A lab whose host "andromeda" is the local host, and the state after
    "Keithley2" was inserted in the empty lab. *)
Definition local_st : St := with_hosts [andromeda].
Definition keithley_st : St := run (insertInstrument keithley) st0.

(** "lab.json" without its ["__user__"]. *)
Definition nouser_doc : gmap string json := delete "__user__" lab_doc.
Definition nouser_world : World :=
  {| files := {["lab.json" := Reference.encode nouser_doc]}; logs := [];
     env_user := "operator"; env_now := "2018-03-25T18:30:55" |}.

(** The first lab stamped with version 3 and written to "new.json". *)
Definition v3_st : St :=
  {| self := set_meta {| __version__ := 3; __sha256__ := None;
                         __user__ := None; __datetime__ := None;
                         __filename__ := None |} (self lab_st);
     world := world0 |}.
Definition v3_saved : World :=
  world (run (_saveState (H:=Reference.libs) (Some "new.json") false) v3_st).
Definition v3_text : string := default "" (files v3_saved !! "new.json").
Definition v3_doc : gmap string json := default ∅ (Reference.decode v3_text).


(** The world after "old.json" was loaded. *)
Definition v0_loaded_world : World :=
  (loadState (H:=Reference.libs) (Some "old.json") true v0_saved).2.

(** The first lab in the world where "lab.json" was tampered with. *)
Definition tampered_st : St := {| self := self lab_st; world := tampered_world |}.

(** What loading "lab.json" gives right after the save. *)
Definition saved_loaded : LabObject :=
  match (loadState (H:=Reference.libs) (Some "lab.json") true
           (world saved_st)).1 with
  | Returned o => o
  | Raised _ => CurrentLab (new_LabState None)
  end.


(** A session in a world without files, and one in a world whose default
    file was tampered with. *)
Definition fresh_session : Session :=
  (__getattribute__ (H:=Reference.libs) "lab" (new_Session world0)).2.
Definition corrupted_world : World :=
  {| files := {[_filename := Reference.encode tampered_doc]}; logs := [];
     env_user := "operator"; env_now := "2018-03-25T18:30:55" |}.
(** "v1.json", a document of version 1: the bench "bench1" holds
    "Keithley2" and the ring, the host "andromeda" holds "Keithley2". *)
Definition v1_content : gmap string json :=
  list_to_map
    [("hosts",
      JArr [JObj [("hostname", JNull);
                  ("instruments",
                   JArr [Reference.flatten_instrument old_keithley]);
                  ("mac_address", JNull);
                  ("name", JStr "andromeda");
                  ("os", JStr "linux")]]);
     ("benches",
      JArr [JObj [("devices", JArr [Reference.flatten_device ring]);
                  ("instruments",
                   JArr [Reference.flatten_instrument old_keithley]);
                  ("name", JStr "bench1")]]);
     ("connections", JArr [Reference.flatten_connection conn_ring]);
     ("__version__", JNum 1)].
Definition v1_doc : gmap string json :=
  <["__datetime__" := JStr "2018-03-25T18:30:55"]>
    (<["__user__" := JStr "operator"]>
       (<["__sha256__" :=
            JStr (SHA256.hexdigest (Reference.encode v1_content))]>
          v1_content)).
Definition v1_world : World :=
  {| files := {["v1.json" := Reference.encode v1_doc]}; logs := [];
     env_user := "operator"; env_now := "2018-03-25T18:30:55" |}.
Definition v1_loaded_world : World :=
  (loadState (H:=Reference.libs_v1) (Some "v1.json") true v1_world).2.

(** An electrical source with three channels blocked out. *)
Definition source3 : ElectricalSource.Source :=
  {| ElectricalSource.stateDict := [(0, 5); (1, 7); (2, 0)] |}.
(** The empty lab after the ring was inserted. *)
Definition ring_st : St := run (insertDevice ring) st0.
End Scenario.

(** * Properties of the registry *)

Lemma add_logs_nil st : add_logs [] st = st.
Proof.
  destruct st as [s [f l u n]]. unfold add_logs; simpl.
  by rewrite app_nil_r.
Qed.

Lemma add_logs_add_logs e1 e2 st :
  add_logs e2 (add_logs e1 st) = add_logs (e1 ++ e2) st.
Proof. unfold add_logs; simpl. by rewrite app_assoc. Qed.

Lemma logger_eq lv msg st :
  logger lv msg st
  = (Returned tt, add_logs [{| log_level := lv; log_msg := msg |}] st).
Proof. reflexivity. Qed.

Lemma self_add_logs e st : self (add_logs e st) = self st.
Proof. reflexivity. Qed.

Lemma bind_returned {S A B} (m : Py S A) (k : A -> Py S B) st a st' :
  m st = (Returned a, st') -> bind m k st = k a st'.
Proof. unfold bind. by intros ->. Qed.

Lemma bind_raised {S A B} (m : Py S A) (k : A -> Py S B) st e st' :
  m st = (Raised e, st') -> bind m k st = (Raised e, st').
Proof. unfold bind. by intros ->. Qed.

Lemma note_localhost_eq h acc st :
  exists extra,
    note_localhost h acc st
    = (Returned (if host_local h then Some (host_name h) else acc),
       add_logs extra st)
    /\ Forall (fun r => log_level r = WARNING) extra.
Proof.
  unfold note_localhost. destruct (host_local h).
  - destruct (bool_decide (acc ≠ None)); simpl.
    + eexists. split; [reflexivity|]. by constructor.
    + exists []. by rewrite add_logs_nil.
  - exists []. by rewrite add_logs_nil.
Qed.

Lemma find_localhost_loop l : forall acc st,
  exists extra,
    for_fold l acc note_localhost st
    = (Returned (last_localhost l acc), add_logs extra st)
    /\ Forall (fun r => log_level r = WARNING) extra.
Proof.
  induction l as [|h l IH]; intros acc st; simpl.
  - exists []. by rewrite add_logs_nil.
  - destruct (note_localhost_eq h acc st) as (e1 & H1 & He1).
    rewrite (bind_returned _ _ _ _ _ H1).
    destruct (IH (if host_local h then Some (host_name h) else acc)
                 (add_logs e1 st)) as (e2 & -> & He2).
    exists (e1 ++ e2). rewrite add_logs_add_logs. split; [done|].
    by apply Forall_app.
Qed.

Lemma last_localhost_some l : forall acc n,
  last_localhost l acc = Some n ->
  acc = Some n \/ exists h, h ∈ l /\ host_local h = true /\ host_name h = n.
Proof.
  induction l as [|h l IH]; intros acc n; simpl; [by left|].
  intros [H|(h' & ? & ? & ?)]%IH.
  - destruct (host_local h) eqn:Hh; [|by left].
    right. exists h. split_and!; [by left|done|congruence].
  - right. exists h'. split_and!; [by right|done|done].
Qed.

Lemma last_localhost_is_some l : forall acc,
  is_Some acc \/ (exists h, h ∈ l /\ host_local h = true) ->
  is_Some (last_localhost l acc).
Proof.
  induction l as [|h l IH]; intros acc Hacc; simpl.
  - destruct Hacc as [?|(h' & Hin & _)]; [done|by inversion Hin].
  - apply IH. destruct (host_local h) eqn:Hh; [by left; eexists|].
    destruct Hacc as [?|(h' & Hin & Hl)]; [by left|].
    inversion Hin; subst; [congruence|]. right; eauto.
Qed.

(** ** insertInstrument *)

(** C10. An instrument whose name is already in [self.instruments] makes
    [insertInstrument] raise at its first statement, the [append]: the
    call raises the duplicate-name [RuntimeError] and leaves the whole
    state as it was, so the instruments, the benches and the hosts are
    unchanged and no bench or host has been registered. *)
Theorem insertInstrument_duplicate_name (instrument : Instrument) (st : St) :
  instr_name instrument ∈ TypedList.keys (instruments (self st)) ->
  exists msg,
    insertInstrument instrument st = (Raised (RuntimeError msg), st).
Proof.
  intros Hdup. unfold insertInstrument, get_self.
  eexists. unfold bind at 1. unfold bind at 1. unfold get, ret at 1.
  unfold TypedList.append.
  rewrite (bool_decide_eq_true_2 _ Hdup). reflexivity.
Qed.

(** ** deleteInstrumentFromName *)

Section delitem.
Context {A : Type} `{Named A} `{EqDecision A}.



End delitem.


(** ** updateHost *)

(** C8. In a lab that holds a host marked local, upserting one host that
    is marked local and whose name is that of no local host of the lab
    returns normally and changes nothing but the log: the hosts are as
    before (the incoming host is neither inserted nor put in place of the
    first), and what is logged are warnings, one of them the refusal that
    names the incoming host. *)
Theorem updateHost_rejects_second_localhost (new_host : Host) (st : St) :
  host_local new_host = true ->
  (exists h, h ∈ hosts (self st) /\ host_local h = true) ->
  (forall h, h ∈ hosts (self st) -> host_local h = true ->
             host_name h ≠ host_name new_host) ->
  exists extra local_name,
    updateHost [new_host] st = (Returned tt, add_logs extra st)
    /\ Forall (fun r => log_level r = WARNING) extra
    /\ {| log_level := WARNING;
          log_msg := "Localhost is already present: " +:+ local_name +:+
                     newline +:+
                     "Not updating host " +:+ host_name new_host +:+ "!" |}
       ∈ extra.
Proof.
  intros Hnew Hex Hother.
  destruct (last_localhost_is_some (hosts (self st)) None (or_intror Hex))
    as [n Hn].
  destruct (last_localhost_some _ _ _ Hn) as [?|(h & Hh & Hloc & Hname)];
    [done|].
  assert (host_name new_host ≠ n) as Hne.
  { intros <-. by apply (Hother h). }
  destruct (find_localhost_loop (hosts (self st)) None st)
    as (e1 & Hscan & He1).
  set (warning := {| log_level := WARNING;
          log_msg := "Localhost is already present: " +:+ n +:+
                     newline +:+
                     "Not updating host " +:+ host_name new_host +:+ "!" |}).
  exists (e1 ++ [warning]), n. split_and!.
  - unfold updateHost, get_self.
    unfold bind at 1. unfold bind at 1. unfold get, ret at 1.
    unfold find_localhost, TypedList.values.
    rewrite (bind_returned _ _ _ _ _ Hscan). rewrite Hn.
    simpl for_fold. unfold update_one_host. rewrite Hnew.
    rewrite (bool_decide_eq_true_2 (Some n ≠ None)) by done.
    rewrite (bool_decide_eq_true_2 (Some (host_name new_host) ≠ Some n))
      by congruence.
    cbn [andb default]. unfold bind, ret, when. rewrite logger_eq.
    rewrite (bool_decide_eq_false_2 (Some n = None)) by done.
    by rewrite add_logs_add_logs.
  - apply Forall_app. split; [done|]. by repeat constructor.
  - apply elem_of_app. right. by left.
Qed.

(** ** updateConnections *)

Lemma first_invalid_port_some (conns : list Connection) c k v :
  c ∈ conns -> (k, v) ∈ c -> v ∉ ports k ->
  exists k' v', first_invalid_port conns = Some (k', v').
Proof.
  intros Hc Hkv Hv. unfold first_invalid_port.
  assert ((k, v) ∈ filter (fun kv : Entity * string => kv.2 ∉ ports kv.1)
                          (concat conns)) as Hin.
  { apply list_elem_of_filter. split; [done|].
    apply list_elem_of_In, in_concat. exists c.
    by rewrite <- !list_elem_of_In. }
  destruct (filter _ (concat conns)) as [|[k' v'] ?]; [by inversion Hin|].
  by exists k', v'.
Qed.

(** C6. A batch in which some connection binds a port that is not among
    its entity's ports makes [updateConnections] raise a [RuntimeError]
    before anything is removed or added: the lab is unchanged, so the
    connections are exactly those before the call, and the only effect is
    the error line in the log. *)
Theorem updateConnections_invalid_port (conns : list Connection) (st : St) :
  (exists c k v, c ∈ conns /\ (k, v) ∈ c /\ v ∉ ports k) ->
  exists msg,
    updateConnections conns st
    = (Raised (RuntimeError msg),
       add_logs [{| log_level := ERROR; log_msg := msg |}] st).
Proof.
  intros (c & k & v & Hc & Hkv & Hv).
  destruct (first_invalid_port_some conns c k v Hc Hkv Hv) as (k' & v' & E).
  unfold updateConnections. rewrite E. by eexists.
Qed.


(** *** The batch whose ports are all valid *)

Lemma for_each_logger {A} lv (f : A -> string) (l : list A) : forall st,
  for_each l (fun x => logger lv (f x)) st
  = (Returned tt,
     add_logs ((fun x => {| log_level := lv; log_msg := f x |}) <$> l) st).
Proof.
  induction l as [|x l IH]; intros st; simpl.
  - by rewrite add_logs_nil.
  - unfold bind. rewrite logger_eq, IH. by rewrite add_logs_add_logs.
Qed.

Lemma drop_conflicting_eq k1 v1 st :
  exists extra,
    drop_conflicting k1 v1 st
    = (Returned tt,
       add_logs extra
         (with_connections
            (filter (fun x => check_if_port_is_not_connected x k1 v1 = true)
                    (connections (self st))) st)).
Proof.
  unfold drop_conflicting, get_self.
  unfold bind at 1. unfold bind at 1. unfold get, ret at 1.
  unfold bind at 1. rewrite for_each_logger. by eexists.
Qed.

Lemma remove_loop kvs : forall st,
  exists extra,
    for_each kvs (fun kv => drop_conflicting kv.1 kv.2) st
    = (Returned tt,
       add_logs extra
         (with_connections (remove_conflicting kvs (connections (self st)))
                           st)).
Proof.
  induction kvs as [|kv kvs IH]; intros st; simpl.
  - exists []. rewrite add_logs_nil. by destruct st as [[] ?].
  - destruct (drop_conflicting_eq kv.1 kv.2 st) as (e1 & H1).
    rewrite (bind_returned _ _ _ _ _ H1).
    destruct (IH (add_logs e1 (with_connections
                (filter (fun x => check_if_port_is_not_connected x kv.1 kv.2
                                  = true)
                        (connections (self st))) st))) as (e2 & ->).
    exists (e1 ++ e2). by rewrite <- add_logs_add_logs.
Qed.

Lemma remove_batch conns : forall st,
  exists extra,
    for_each conns (fun connection =>
      for_each connection (fun kv => drop_conflicting kv.1 kv.2)) st
    = (Returned tt,
       add_logs extra
         (with_connections
            (remove_conflicting (concat conns) (connections (self st))) st)).
Proof.
  induction conns as [|c conns IH]; intros st; simpl.
  - exists []. rewrite add_logs_nil. by destruct st as [[] ?].
  - destruct (remove_loop c st) as (e1 & H1).
    rewrite (bind_returned _ _ _ _ _ H1).
    destruct (IH (add_logs e1 (with_connections
                (remove_conflicting c (connections (self st))) st)))
      as (e2 & ->).
    exists (e1 ++ e2). unfold remove_conflicting. rewrite foldl_app.
    by rewrite <- add_logs_add_logs.
Qed.

Lemma add_connection_eq c st :
  exists extra,
    add_connection c st
    = (Returned tt,
       add_logs extra
         (with_connections
            (if connection_in c (connections (self st))
             then connections (self st) else connections (self st) ++ [c])
            st)).
Proof.
  unfold add_connection, get_self, bind, get, ret.
  destruct (connection_in c (connections (self st))).
  - rewrite logger_eq. eexists. by destruct st as [[] ?].
  - exists []. by rewrite add_logs_nil.
Qed.

Lemma append_batch conns : forall st,
  exists extra,
    for_each conns add_connection st
    = (Returned tt,
       add_logs extra
         (with_connections (append_new conns (connections (self st))) st)).
Proof.
  induction conns as [|c conns IH]; intros st; simpl.
  - exists []. rewrite add_logs_nil. by destruct st as [[] ?].
  - destruct (add_connection_eq c st) as (e1 & H1).
    rewrite (bind_returned _ _ _ _ _ H1).
    destruct (IH (add_logs e1 (with_connections
                (if connection_in c (connections (self st))
                 then connections (self st)
                 else connections (self st) ++ [c]) st))) as (e2 & ->).
    exists (e1 ++ e2). by rewrite <- add_logs_add_logs.
Qed.

(** On a batch whose ports are all valid, [updateConnections] returns
    [True]; it changes nothing of the lab but the connections, which are
    the old ones without those that share an [(entity, port)] pair with
    an incoming connection, followed by the incoming connections not yet
    present. *)
Lemma updateConnections_valid (conns : list Connection) (st : St) :
  first_invalid_port conns = None ->
  exists extra,
    updateConnections conns st
    = (Returned true,
       add_logs extra
         (with_connections
            (append_new conns
               (remove_conflicting (concat conns) (connections (self st))))
            st)).
Proof.
  intros Hvalid. unfold updateConnections. rewrite Hvalid.
  destruct (remove_batch conns st) as (e1 & H1).
  rewrite (bind_returned _ _ _ _ _ H1).
  destruct (append_batch conns (add_logs e1 (with_connections
              (remove_conflicting (concat conns) (connections (self st))) st)))
    as (e2 & H2).
  rewrite (bind_returned _ _ _ _ _ H2).
  exists (e1 ++ e2). by rewrite <- add_logs_add_logs.
Qed.

Lemma check_if_port_is_not_connected_true x k1 v1 :
  check_if_port_is_not_connected x k1 v1 = true <-> (k1, v1) ∉ x.
Proof.
  unfold check_if_port_is_not_connected. rewrite negb_true_iff.
  rewrite <- not_true_iff_false. apply not_iff_compat.
  rewrite existsb_exists. setoid_rewrite bool_decide_eq_true.
  setoid_rewrite <- list_elem_of_In. split.
  - by intros (kv & Hin & ->).
  - intros Hin. by exists (k1, v1).
Qed.

(** What survives the removal pass: the old connections that hold none of
    the incoming [(entity, port)] pairs. *)
Lemma elem_of_remove_conflicting kvs : forall l x,
  x ∈ remove_conflicting kvs l <-> x ∈ l /\ forall kv, kv ∈ kvs -> kv ∉ x.
Proof.
  induction kvs as [|[k v] kvs IH]; intros l x.
  - cbn. split; [intros Hx; split; [done|]|by intros []].
    intros kv Hkv. by apply elem_of_nil in Hkv.
  - change (remove_conflicting ((k, v) :: kvs) l)
      with (remove_conflicting kvs
              (filter (fun x => check_if_port_is_not_connected x k v = true) l)).
    rewrite IH, list_elem_of_filter, check_if_port_is_not_connected_true.
    split.
    + intros [[Hkv Hx] Hall]. split; [done|].
      intros kv [->|?]%elem_of_cons; [done|by apply Hall].
    + intros [Hx Hall]. split_and!; [|done|].
      * apply Hall. by left.
      * intros kv ?. apply Hall. by right.
Qed.

(** *** One connection at a time keeps one connection per port *)

Lemma length_filter_filter {A} (P Q : A -> Prop)
    `{!forall x, Decision (P x), !forall x, Decision (Q x)} (l : list A) :
  (length (filter P (filter Q l)) <= length (filter P l))%nat.
Proof.
  rewrite list_filter_filter.
  rewrite (list_filter_iff _ (fun a => Q a /\ P a)) by (intros; tauto).
  rewrite <- list_filter_filter. apply length_filter.
Qed.

Lemma filter_none {A} (P : A -> Prop) `{!forall x, Decision (P x)} (l : list A) :
  (forall x, x ∈ l -> ~ P x) -> filter P l = [].
Proof.
  induction l as [|x l IH]; intros Hall; [done|].
  rewrite filter_cons_False by (apply Hall; by left).
  apply IH. intros y Hy. apply Hall. by right.
Qed.

Lemma length_filter_remove_conflicting (kv : Entity * string) kvs : forall l,
  (length (filter (fun c : Connection => kv ∈ c) (remove_conflicting kvs l))
   <= length (filter (fun c : Connection => kv ∈ c) l))%nat.
Proof.
  induction kvs as [|[k v] kvs IH]; intros l; [done|].
  change (remove_conflicting ((k, v) :: kvs) l)
    with (remove_conflicting kvs
            (filter (fun x => check_if_port_is_not_connected x k v = true) l)).
  etrans; [apply IH|]. apply length_filter_filter.
Qed.

(** X8. A call with one connection, on a lab with at most one connection
    per [(entity, port)] pair: the connections that share a pair with it
    are dropped, it is appended, and there is still at most one
    connection per pair. *)
Lemma updateConnections_one_connection (c : Connection) (st : St) :
  c ≠ [] ->
  first_invalid_port [c] = None ->
  one_per_port (connections (self st)) ->
  exists extra,
    updateConnections [c] st
    = (Returned true,
       add_logs extra
         (with_connections
            (remove_conflicting c (connections (self st)) ++ [c]) st))
    /\ one_per_port (remove_conflicting c (connections (self st)) ++ [c]).
Proof.
  intros Hc Hvalid Hinv.
  destruct (updateConnections_valid [c] st Hvalid) as (extra & ->).
  exists extra. cbn [concat]. rewrite app_nil_r. cbn [append_new foldl].
  set (l' := remove_conflicting c (connections (self st))).
  assert (connection_in c l' = false) as ->.
  { apply not_true_iff_false. unfold connection_in.
    rewrite existsb_exists. intros (x & Hx & Heq).
    apply list_elem_of_In, elem_of_remove_conflicting in Hx as [_ Hx].
    unfold dict_eqb in Heq. apply bool_decide_eq_true in Heq.
    destruct c as [|kv c]; [done|].
    apply (Hx kv); [by left|]. rewrite <- Heq. by left. }
  split; [done|]. intros kv. rewrite filter_app.
  destruct (decide (kv ∈ c)) as [Hkv|Hkv].
  - rewrite (filter_none _ l').
    + rewrite filter_cons_True by done. done.
    + intros x [_ Hx]%elem_of_remove_conflicting. by apply Hx.
  - rewrite (filter_cons_False _ c) by done. rewrite filter_nil, app_nil_r.
    etrans; [apply length_filter_remove_conflicting|apply Hinv].
Qed.

(** * More properties of the registry *)

(** ** TypedList facts *)
Section typed_list.
Context {A : Type} `{Named A} `{EqDecision A}.

Lemma setitem_fresh (n : string) (x : A) (l : list A) :
  n ∉ TypedList.keys l -> TypedList.setitem n x l = l ++ [x].
Proof. intros Hn. unfold TypedList.setitem. by rewrite bool_decide_eq_false_2. Qed.

Lemma fmap_replace_id (n : string) (x : A) (l : list A) :
  n ∉ TypedList.keys l ->
  (fun y => if bool_decide (name y = n) then x else y) <$> l = l.
Proof.
  induction l as [|y l IH]; [done|]. unfold TypedList.keys. cbn [fmap list_fmap].
  rewrite not_elem_of_cons. intros [Hy Hl].
  rewrite bool_decide_eq_false_2 by done. f_equal. by apply IH.
Qed.

(** With names that are all different, [l[n] = x] puts [x] in the place of
    the one item called [n]. *)
Lemma setitem_replace (n : string) (x : A) (l : list A) :
  NoDup (TypedList.keys l) -> n ∈ TypedList.keys l ->
  exists l1 y l2,
    l = l1 ++ (y :: l2) /\ name y = n
    /\ (n ∉ TypedList.keys l1) /\ (n ∉ TypedList.keys l2)
    /\ TypedList.setitem n x l = l1 ++ (x :: l2).
Proof.
  intros Hnd Hin. unfold TypedList.setitem. rewrite bool_decide_eq_true_2 by done.
  induction l as [|y l IH]; [by apply elem_of_nil in Hin|].
  unfold TypedList.keys in *. cbn [fmap list_fmap] in *.
  apply NoDup_cons in Hnd as [Hy Hnd].
  destruct (decide (name y = n)) as [Hyn|Hyn].
  - exists [], y, l. subst n. split_and!; [done|done|apply not_elem_of_nil|done|].
    rewrite bool_decide_eq_true_2 by done. cbn. f_equal.
    by apply fmap_replace_id.
  - apply elem_of_cons in Hin as [?|Hin]; [by subst|].
    destruct (IH Hnd Hin) as (l1 & z & l2 & -> & Hz & H1 & H2 & Heq).
    exists (y :: l1), z, l2. split_and!; [done|done| |done|].
    + cbn. rewrite not_elem_of_cons. by split.
    + rewrite bool_decide_eq_false_2 by done. cbn. by rewrite Heq.
Qed.

Lemma keys_app (l1 l2 : list A) :
  TypedList.keys (l1 ++ l2) = TypedList.keys l1 ++ TypedList.keys l2.
Proof. unfold TypedList.keys. by rewrite fmap_app. Qed.

(** [l[x.name] = x] keeps the names all different. *)
Lemma setitem_NoDup (x : A) (l : list A) :
  NoDup (TypedList.keys l) -> NoDup (TypedList.keys (TypedList.setitem (name x) x l)).
Proof.
  intros Hnd. destruct (decide (name x ∈ TypedList.keys l)) as [Hin|Hin].
  - destruct (setitem_replace (name x) x l Hnd Hin)
      as (l1 & y & l2 & -> & Hy & H1 & H2 & ->).
    rewrite keys_app in *. unfold TypedList.keys in *. cbn [fmap list_fmap] in *.
    by rewrite Hy in Hnd.
  - rewrite setitem_fresh by done. rewrite keys_app.
    unfold TypedList.keys in *. cbn. apply NoDup_app. split_and!; [done| |].
    + intros n Hn [->|?%elem_of_nil]%elem_of_cons; done.
    + apply NoDup_singleton.
Qed.

Lemma elem_of_setitem (x : A) (l : list A) :
  x ∈ TypedList.setitem (name x) x l.
Proof.
  unfold TypedList.setitem. case_bool_decide as Hin.
  - unfold TypedList.keys in Hin. apply list_elem_of_fmap in Hin as (y & Hy & Hin).
    apply list_elem_of_fmap. exists y. split; [|done].
    by rewrite bool_decide_eq_true_2.
  - apply elem_of_app. right. by left.
Qed.
End typed_list.

(** ** updateBench *)

Lemma put_hosts_id st : put_hosts (hosts (self st)) st = st.
Proof. by destruct st as [[] ?]. Qed.

Lemma updateBench_eq bs : forall st,
  updateBench bs st
  = (Returned tt,
     put_benches (foldl (fun l b => TypedList.setitem (bench_name b) b l)
                        (benches (self st)) bs) st).
Proof.
  unfold updateBench.
  induction bs as [|b bs IH]; intros st; cbn [for_each foldl].
  - by destruct st as [[] ?].
  - unfold bind. unfold update_self at 1. unfold modify at 1. by rewrite IH.
Qed.

Lemma setitem_bench (b : Bench) (l : list Bench) :
  TypedList.setitem (bench_name b) b l = if bool_decide (b ∈ l) then l else l ++ [b].
Proof.
  unfold TypedList.setitem.
  assert (bench_name b ∈ TypedList.keys l <-> b ∈ l) as Hiff.
  { unfold TypedList.keys. rewrite list_elem_of_fmap. split.
    - intros (y & Hy & Hin). destruct y, b. cbn in Hy. by subst.
    - intros Hin. by exists b. }
  rewrite (bool_decide_ext _ _ Hiff). case_bool_decide; [|done].
  rewrite <- (list_fmap_id l) at 2. apply list_fmap_ext.
  intros _ y _. case_bool_decide as Hy; [|done]. destruct y, b. cbn in Hy. by subst.
Qed.

(** X1. [updateBench] never raises and touches nothing but [self.benches];
    afterwards the benches are the old ones and those of the batch, and
    bench names that were all different still are. *)
Theorem updateBench_upserts (new_benches : list Bench) (st : St) :
  exists l',
    updateBench new_benches st = (Returned tt, put_benches l' st)
    /\ (forall b, b ∈ l' <-> b ∈ benches (self st) \/ b ∈ new_benches)
    /\ (NoDup (TypedList.keys (benches (self st))) -> NoDup (TypedList.keys l')).
Proof.
  eexists. split; [apply updateBench_eq|].
  generalize (benches (self st)) as l.
  induction new_benches as [|b bs IH]; intros l; cbn [foldl].
  - split; [|done]. intros b. rewrite elem_of_nil. tauto.
  - destruct (IH (TypedList.setitem (bench_name b) b l)) as [Hin Hnd]. split.
    + intros b'. rewrite Hin, elem_of_cons, setitem_bench.
      case_bool_decide as Hb; [|rewrite elem_of_app, list_elem_of_singleton].
      * split; [tauto|]. intros [?|[->|?]]; tauto.
      * tauto.
    + intros Hl. apply Hnd. by apply (setitem_NoDup b).
Qed.

(** ** updateHost *)

Lemma add_logs_put_hosts e l st :
  add_logs e (put_hosts l st) = put_hosts l (add_logs e st).
Proof. reflexivity. Qed.

Lemma put_hosts_put_hosts l l' st : put_hosts l (put_hosts l' st) = put_hosts l st.
Proof. reflexivity. Qed.

(** One turn of the second loop when no local host is known. *)
Lemma update_one_host_None names h st :
  exists extra,
    update_one_host names h None st
    = (Returned None,
       add_logs extra
         (put_hosts (TypedList.setitem (host_name h) h (hosts (self st))) st))
    /\ Forall (fun r => log_level r = INFO) extra.
Proof.
  unfold update_one_host.
  rewrite (bool_decide_eq_false_2 (None ≠ None)) by (by intros []).
  rewrite andb_false_r. cbn [andb].
  destruct (bool_decide (host_name h ∈ names)).
  - unfold bind. rewrite logger_eq. unfold ret at 1.
    unfold update_self, modify, ret. eexists. split; [reflexivity|].
    by repeat constructor.
  - unfold bind, ret, update_self, modify. exists []. by rewrite add_logs_nil.
Qed.

Lemma update_hosts_None names hs : forall st,
  exists extra,
    for_fold hs None (update_one_host names) st
    = (Returned None,
       add_logs extra (put_hosts (upsert_hosts hs (hosts (self st))) st))
    /\ Forall (fun r => log_level r = INFO) extra.
Proof.
  induction hs as [|h hs IH]; intros st; cbn [for_fold upsert_hosts foldl].
  - exists []. by rewrite add_logs_nil, put_hosts_id.
  - destruct (update_one_host_None names h st) as (e1 & H1 & He1).
    rewrite (bind_returned _ _ _ _ _ H1).
    destruct (IH (add_logs e1 (put_hosts
                (TypedList.setitem (host_name h) h (hosts (self st))) st)))
      as (e2 & -> & He2).
    exists (e1 ++ e2). split; [|by apply Forall_app].
    by rewrite <- add_logs_add_logs.
Qed.

Lemma last_localhost_none l :
  local_hosts l = [] -> last_localhost l None = None.
Proof.
  unfold local_hosts. induction l as [|h l IH]; [done|]. cbn [last_localhost foldl].
  rewrite filter_cons. destruct (host_local h); [by case_decide|].
  case_decide; [done|]. apply IH.
Qed.

Lemma find_localhost_none l st :
  local_hosts l = [] -> find_localhost l st = (Returned None, st).
Proof.
  unfold find_localhost, local_hosts.
  revert st. induction l as [|h l IH]; intros st; [done|].
  rewrite filter_cons. cbn [for_fold]. unfold note_localhost.
  destruct (host_local h); [by case_decide|]. case_decide; [done|].
  intros Hl. unfold bind, ret. by apply IH.
Qed.

(** X2. On a lab without a local host, [updateHost] takes no note of the
    local hosts it is given: every host of the batch is upserted, local
    or not, and the call ends on the warning that no local host is
    present. *)
Theorem updateHost_without_localhost (new_hosts : list Host) (st : St) :
  local_hosts (hosts (self st)) = [] ->
  exists extra,
    updateHost new_hosts st
    = (Returned tt,
       add_logs (extra ++ [{| log_level := WARNING;
                              log_msg := "Localhost not yet present" |}])
         (put_hosts (upsert_hosts new_hosts (hosts (self st))) st))
    /\ Forall (fun r => log_level r = INFO) extra.
Proof.
  intros Hnone. unfold updateHost, get_self.
  unfold bind at 1. unfold bind at 1. unfold get, ret at 1.
  unfold TypedList.values.
  rewrite (bind_returned _ _ _ _ _ (find_localhost_none _ st Hnone)).
  destruct (update_hosts_None (host_name <$> hosts (self st)) new_hosts st)
    as (extra & Hloop & Hextra).
  rewrite (bind_returned _ _ _ _ _ Hloop).
  exists extra. split; [|done].
  rewrite bool_decide_eq_true_2 by done. unfold when. rewrite logger_eq.
  by rewrite add_logs_add_logs.
Qed.

Lemma local_hosts_app l1 l2 : local_hosts (l1 ++ l2) = local_hosts l1 ++ local_hosts l2.
Proof. apply filter_app. Qed.

Lemma local_hosts_cons h l :
  local_hosts (h :: l) = if host_local h then h :: local_hosts l else local_hosts l.
Proof.
  unfold local_hosts. rewrite filter_cons.
  destruct (host_local h); by case_decide.
Qed.

Lemma last_localhost_None_inv l :
  last_localhost l None = None -> local_hosts l = [].
Proof.
  intros Hnone. apply filter_none. intros h Hh Hloc.
  destruct (last_localhost_is_some l None) as [n Hn]; [|congruence].
  right. by exists h.
Qed.

(** One turn of the second loop of [updateHost]: the host is either
    refused (it is local, and a local host of another name is known) or
    upserted. *)
Lemma update_one_host_cases names h L st :
  exists extra L',
    (update_one_host names h L st = (Returned L', add_logs extra st)
     /\ host_local h = true /\ exists n, L = Some n /\ n ≠ host_name h)
    \/ (update_one_host names h L st
        = (Returned L',
           add_logs extra
             (put_hosts (TypedList.setitem (host_name h) h (hosts (self st))) st))
        /\ (host_local h = true -> L = None \/ L = Some (host_name h))).
Proof.
  unfold update_one_host.
  destruct (host_local h) eqn:Hloc; cbn [andb negb].
  - destruct L as [n|].
    + rewrite (bool_decide_eq_true_2 (Some n ≠ None)) by done. cbn [andb].
      destruct (decide (n = host_name h)) as [->|Hn].
      * rewrite (bool_decide_eq_false_2 (Some _ ≠ Some _)) by (by intros []).
        rewrite andb_false_r.
        destruct (bool_decide (host_name h ∈ names)).
        -- unfold bind. rewrite logger_eq. unfold ret at 1.
           unfold update_self, modify, ret. eexists _, _. right.
           split; [reflexivity|]. by right.
        -- unfold bind, ret, update_self, modify. exists [], (Some (host_name h)).
           right. rewrite add_logs_nil. split; [done|]. by right.
      * rewrite (bool_decide_eq_true_2 (Some _ ≠ Some _)) by congruence.
        unfold bind, ret. rewrite logger_eq. eexists _, _. left.
        split; [reflexivity|]. split; [done|]. by exists n.
    + rewrite (bool_decide_eq_false_2 (None ≠ None)) by (by intros []).
      cbn [andb].
      destruct (bool_decide (host_name h ∈ names)).
      * unfold bind. rewrite logger_eq. unfold ret at 1.
        unfold update_self, modify, ret. eexists _, _. right.
        split; [reflexivity|]. by left.
      * unfold bind, ret, update_self, modify. exists [], None.
        right. rewrite add_logs_nil. split; [done|]. by left.
  - destruct (bool_decide (host_name h ∈ names)).
    + unfold bind. rewrite logger_eq. unfold ret at 1.
      unfold update_self, modify, ret. eexists _, _. right.
      split; [reflexivity|]. done.
    + unfold bind, ret, update_self, modify. eexists [], _.
      right. rewrite add_logs_nil. split; [done|]. done.
Qed.

Lemma local_hosts_setitem h l :
  NoDup (TypedList.keys l) ->
  (length (local_hosts l) <= 1)%nat ->
  (host_local h = true ->
   last_localhost l None = None \/ last_localhost l None = Some (host_name h)) ->
  (length (local_hosts (TypedList.setitem (host_name h) h l)) <= 1)%nat.
Proof.
  intros Hnd Hone Hcase.
  destruct (decide (host_name h ∈ TypedList.keys l)) as [Hin|Hin].
  - destruct (setitem_replace (host_name h) h l Hnd Hin)
      as (l1 & y & l2 & -> & Hy & H1 & H2 & ->).
    rewrite !local_hosts_app, !local_hosts_cons, !length_app in *.
    destruct (host_local h) eqn:Hh; destruct (host_local y) eqn:Hy';
      cbn [length] in *; try lia.
    destruct (Hcase eq_refl) as [Hnone|Hsome].
    + apply last_localhost_None_inv in Hnone.
      rewrite local_hosts_app, local_hosts_cons, Hy' in Hnone.
      apply app_eq_nil in Hnone as [-> ->]. cbn. lia.
    + apply last_localhost_some in Hsome as [?|(h' & Hin' & Hloc' & Hname')];
        [done|].
      apply elem_of_app in Hin' as [Hin'|Hin'].
      * destruct H1. unfold TypedList.keys. apply list_elem_of_fmap. by exists h'.
      * apply elem_of_cons in Hin' as [->|Hin']; [congruence|].
        destruct H2. unfold TypedList.keys. apply list_elem_of_fmap. by exists h'.
  - rewrite setitem_fresh by done.
    rewrite local_hosts_app, local_hosts_cons, length_app.
    destruct (host_local h) eqn:Hh; cbn [local_hosts filter length]; [|cbn; lia].
    destruct (Hcase eq_refl) as [Hnone|Hsome].
    + apply last_localhost_None_inv in Hnone. rewrite Hnone. cbn. lia.
    + apply last_localhost_some in Hsome as [?|(h' & Hin' & Hloc' & Hname')];
        [done|].
      destruct Hin. unfold TypedList.keys. apply list_elem_of_fmap. by exists h'.
Qed.

(** X3. A lab whose host names are all different and that holds at most
    one local host is still such a lab after [updateHost] is called with
    one host. *)
Theorem updateHost_keeps_one_localhost (new_host : Host) (st : St) :
  NoDup (TypedList.keys (hosts (self st))) ->
  (length (local_hosts (hosts (self st))) <= 1)%nat ->
  exists extra l',
    updateHost [new_host] st = (Returned tt, add_logs extra (put_hosts l' st))
    /\ NoDup (TypedList.keys l')
    /\ (length (local_hosts l') <= 1)%nat.
Proof.
  intros Hnd Hone. unfold updateHost, get_self.
  unfold bind at 1. unfold bind at 1. unfold get, ret at 1.
  unfold find_localhost, TypedList.values.
  destruct (find_localhost_loop (hosts (self st)) None st) as (e1 & Hscan & _).
  rewrite (bind_returned _ _ _ _ _ Hscan). cbn [for_fold].
  destruct (update_one_host_cases (host_name <$> hosts (self st)) new_host
              (last_localhost (hosts (self st)) None) (add_logs e1 st))
    as (e2 & L' & [(Hstep & _)|(Hstep & Hcase)]).
  - unfold bind at 1. unfold bind at 1. rewrite Hstep. unfold ret at 1.
    assert (exists e3, when (bool_decide (L' = None))
              (logger WARNING "Localhost not yet present")
              (add_logs e2 (add_logs e1 st))
            = (Returned tt, add_logs e3 st)) as (e3 & ->).
    { unfold when. destruct (bool_decide _).
      - rewrite logger_eq, !add_logs_add_logs. by eexists.
      - rewrite add_logs_add_logs. by eexists. }
    exists e3, (hosts (self st)). by rewrite put_hosts_id.
  - unfold bind at 1. unfold bind at 1. rewrite Hstep. unfold ret at 1.
    cbn [self add_logs].
    assert (exists e3, when (bool_decide (L' = None))
              (logger WARNING "Localhost not yet present")
              (add_logs e2 (put_hosts
                 (TypedList.setitem (host_name new_host) new_host
                    (hosts (self st))) (add_logs e1 st)))
            = (Returned tt,
               add_logs e3 (put_hosts
                 (TypedList.setitem (host_name new_host) new_host
                    (hosts (self st))) st))) as (e3 & ->).
    { unfold when. destruct (bool_decide _).
      - rewrite logger_eq, !add_logs_add_logs.
        rewrite <- add_logs_put_hosts, add_logs_add_logs. by eexists.
      - rewrite <- add_logs_put_hosts, add_logs_add_logs. by eexists. }
    eexists e3, _. split; [reflexivity|]. split.
    + by apply (setitem_NoDup new_host).
    + by apply local_hosts_setitem.
Qed.

(** ** insertInstrument and insertDevice *)

Lemma contains_bench (b : Bench) (l : list Bench) :
  TypedList.contains b l = bool_decide (bench_name b ∈ TypedList.keys l).
Proof.
  unfold TypedList.contains. apply bool_decide_ext.
  unfold TypedList.keys. rewrite list_elem_of_fmap. split.
  - intros Hin. by exists b.
  - intros (y & Hy & Hin). destruct y, b. cbn in Hy. by subst.
Qed.

Lemma register_bench_eq o st :
  exists extra l',
    register_bench o st = (Returned tt, add_logs extra (put_benches l' st))
    /\ Forall (fun r => log_level r = WARNING) extra
    /\ (forall b, o = Some b -> (b ∈ l'))
    /\ (l' = benches (self st)
        \/ exists b, o = Some b /\ (b ∉ benches (self st))
                     /\ l' = benches (self st) ++ [b]).
Proof.
  destruct o as [b|]; cbn [register_bench].
  - unfold get_self. unfold bind at 1. unfold bind at 1. unfold get, ret at 1.
    destruct (TypedList.contains b (benches (self st))) eqn:Hc; cbn [negb when].
    + exists [], (benches (self st)). rewrite add_logs_nil.
      split_and!; [by destruct st as [[] ?]|done| |by left].
      intros ? [= <-]. by apply bool_decide_eq_true in Hc.
    + unfold bind at 1. rewrite logger_eq. unfold TypedList.append.
      rewrite <- contains_bench, Hc. cbn [lift_exn]. unfold bind, ret.
      unfold update_self, modify. eexists _, _. split_and!; [reflexivity| | |].
      * by repeat constructor.
      * intros ? [= <-]. apply elem_of_app. right. by left.
      * right. exists b. split_and!; try done.
        by apply bool_decide_eq_false in Hc.
  - exists [], (benches (self st)). rewrite add_logs_nil.
    split_and!; [by destruct st as [[] ?]|done|done|by left].
Qed.

Lemma insertInstrument_eq i st :
  insertInstrument i st
  = match TypedList.append i (instruments (self st)) with
    | inl e => (Raised e, st)
    | inr l =>
        (register_bench (instr_bench i) ;; register_host (instr_host i))
          (put_instruments l st)
    end.
Proof.
  unfold insertInstrument, get_self.
  unfold bind at 1. unfold bind at 1. unfold get, ret at 1.
  unfold bind at 1. destruct (TypedList.append i _); [done|].
  cbn [lift_exn]. unfold ret at 1. unfold bind at 1.
  unfold update_self at 1. unfold modify at 1. reflexivity.
Qed.

Lemma register_host_eq h st :
  register_host (Some h) st
  = if bool_decide (h ∈ hosts (self st)) then (Returned tt, st)
    else if bool_decide (host_name h ∈ TypedList.keys (hosts (self st)))
    then (Raised (RuntimeError (host_name h +:+ " already exists in list")),
          add_logs [{| log_level := WARNING;
                       log_msg := "Inserting *new* host " +:+ host_name h |}] st)
    else (Returned tt,
          add_logs [{| log_level := WARNING;
                       log_msg := "Inserting *new* host " +:+ host_name h |}]
            (put_hosts (hosts (self st) ++ [h]) st)).
Proof.
  cbn [register_host].
  unfold get_self. unfold bind at 1. unfold bind at 1. unfold get, ret at 1.
  unfold TypedList.contains.
  destruct (bool_decide (h ∈ hosts (self st))); [done|]. cbn [negb when].
  unfold bind at 1. rewrite logger_eq. unfold TypedList.append.
  change (@name Host Host_named h) with (host_name h).
  cbn [self add_logs].
  destruct (bool_decide (host_name h ∈ TypedList.keys (hosts (self st)))); done.
Qed.

(** X4. When [insertInstrument] returns, the instrument has been appended,
    its bench and its host are in the lab (registered by the call where
    they were missing), what was in the benches and hosts is still there,
    and the devices, the connections and the files are untouched. *)
Theorem insertInstrument_registers (instrument : Instrument) (st st' : St) :
  insertInstrument instrument st = (Returned tt, st') ->
  instruments (self st') = instruments (self st) ++ [instrument]
  /\ (forall b, instr_bench instrument = Some b -> (b ∈ benches (self st')))
  /\ (forall h, instr_host instrument = Some h -> (h ∈ hosts (self st')))
  /\ (exists new_benches new_hosts,
        benches (self st') = benches (self st) ++ new_benches
        /\ hosts (self st') = hosts (self st) ++ new_hosts)
  /\ devices (self st') = devices (self st)
  /\ connections (self st') = connections (self st)
  /\ files (world st') = files (world st).
Proof.
  rewrite insertInstrument_eq. unfold TypedList.append.
  destruct (bool_decide _); [done|].
  set (st1 := put_instruments (instruments (self st) ++ [instrument]) st).
  destruct (register_bench_eq (instr_bench instrument) st1)
    as (e1 & lb & Hb & _ & Hin & Hlb).
  rewrite (bind_returned _ _ _ _ _ Hb).
  set (st2 := add_logs e1 (put_benches lb st1)).
  assert (exists new_benches, lb = benches (self st) ++ new_benches) as Hlb'.
  { destruct Hlb as [->|(b & _ & _ & ->)]; [exists []; by rewrite app_nil_r|].
    by eexists. }
  destruct (instr_host instrument) as [h|].
  - rewrite register_host_eq.
    destruct (bool_decide (h ∈ hosts (self st2))) eqn:Hc.
    + intros [= <-]. apply bool_decide_eq_true in Hc.
      split_and!; try done.
      * by intros ? [= <-].
      * destruct Hlb' as (nb & ->). exists nb, []. by rewrite app_nil_r.
    + destruct (bool_decide (host_name h ∈ _)); [done|].
      intros [= <-]. split_and!; try done.
      * intros ? [= <-]. cbn. apply elem_of_app. right. by left.
      * destruct Hlb' as (nb & ->). by exists nb, [h].
  - intros [= <-]. split_and!; try done.
    destruct Hlb' as (nb & ->). exists nb, []. by rewrite app_nil_r.
Qed.

(** X5. [insertInstrument] is not all-or-nothing: when the instrument has
    a new name and its host is not in the lab while a host of that name
    is, the call raises the duplicate-name [RuntimeError] of the hosts'
    [append] after the instrument has been appended, and the instrument
    stays in the lab. *)
Theorem insertInstrument_host_clash (instrument : Instrument) (h : Host)
    (st : St) :
  instr_name instrument ∉ TypedList.keys (instruments (self st)) ->
  instr_host instrument = Some h ->
  h ∉ hosts (self st) ->
  host_name h ∈ TypedList.keys (hosts (self st)) ->
  exists msg st',
    insertInstrument instrument st = (Raised (RuntimeError msg), st')
    /\ instruments (self st') = instruments (self st) ++ [instrument]
    /\ hosts (self st') = hosts (self st).
Proof.
  intros Hfresh Hhost Hnew Hname.
  rewrite insertInstrument_eq. unfold TypedList.append.
  rewrite bool_decide_eq_false_2 by done.
  set (st1 := put_instruments (instruments (self st) ++ [instrument]) st).
  destruct (register_bench_eq (instr_bench instrument) st1)
    as (e1 & lb & Hb & _ & _ & _).
  rewrite (bind_returned _ _ _ _ _ Hb).
  set (st2 := add_logs e1 (put_benches lb st1)).
  rewrite Hhost, register_host_eq.
  rewrite (bool_decide_eq_false_2 (h ∈ hosts (self st2))) by done.
  rewrite (bool_decide_eq_true_2 (host_name h ∈ _)) by done.
  by eexists _, _.
Qed.

(** X6. [insertDevice] is all-or-nothing, and fails on a duplicate device
    name only: a device whose name is taken raises the duplicate-name
    [RuntimeError] and leaves the state as it was; any other device is
    appended, and its bench is in the lab afterwards, registered with a
    warning if it was missing. *)
Theorem insertDevice_spec (device : Device) (st : St) :
  (dev_name device ∈ TypedList.keys (devices (self st)) ->
   exists msg, insertDevice device st = (Raised (RuntimeError msg), st))
  /\ (dev_name device ∉ TypedList.keys (devices (self st)) ->
      exists extra new_benches,
        insertDevice device st
        = (Returned tt,
           add_logs extra
             (put_benches (benches (self st) ++ new_benches)
                (put_devices (devices (self st) ++ [device]) st)))
        /\ Forall (fun r => log_level r = WARNING) extra
        /\ (forall b, dev_bench device = Some b ->
                      (b ∈ benches (self st) ++ new_benches))
        /\ (forall b, b ∈ new_benches ->
                      dev_bench device = Some b /\ (b ∉ benches (self st)))).
Proof.
  assert (insertDevice device st
          = match TypedList.append device (devices (self st)) with
            | inl e => (Raised e, st)
            | inr l => register_bench (dev_bench device) (put_devices l st)
            end) as ->.
  { unfold insertDevice, get_self.
    unfold bind at 1. unfold bind at 1. unfold get, ret at 1.
    unfold bind at 1. destruct (TypedList.append device _); [done|].
    cbn [lift_exn]. unfold ret at 1. unfold bind at 1.
    unfold update_self at 1. unfold modify at 1. reflexivity. }
  unfold TypedList.append. split; intros Hname.
  - rewrite bool_decide_eq_true_2 by done. by eexists.
  - rewrite bool_decide_eq_false_2 by done.
    destruct (register_bench_eq (dev_bench device)
                (put_devices (devices (self st) ++ [device]) st))
      as (extra & lb & -> & Hextra & Hin & Hlb).
    destruct Hlb as [->|(b & Hb & Hnew & ->)].
    + exists extra, []. rewrite app_nil_r. split_and!; try done.
      intros b Hb. by apply elem_of_nil in Hb.
    + exists extra, [b]. split_and!; try done.
      intros b' ->%list_elem_of_singleton. done.
Qed.

(** ** deleteInstrumentFromName *)

Lemma insertInstrument_appends i st st' :
  insertInstrument i st = (Returned tt, st') ->
  (instr_name i ∉ TypedList.keys (instruments (self st)))
  /\ instruments (self st') = instruments (self st) ++ [i].
Proof.
  rewrite insertInstrument_eq. unfold TypedList.append.
  case_bool_decide as Hname; [done|].
  set (st1 := put_instruments (instruments (self st) ++ [i]) st).
  destruct (register_bench_eq (instr_bench i) st1) as (e1 & lb & Hb & _).
  rewrite (bind_returned _ _ _ _ _ Hb).
  destruct (instr_host i) as [h|].
  - rewrite register_host_eq. repeat case_bool_decide; by intros [= <-].
  - by intros [= <-].
Qed.

Lemma filter_name_fresh {A} `{Named A} (n : string) (l : list A) :
  n ∉ TypedList.keys l -> filter (fun x => name x ≠ n) l = l.
Proof.
  induction l as [|x l IH]; [done|]. unfold TypedList.keys. cbn [fmap list_fmap].
  rewrite not_elem_of_cons. intros [Hx Hl].
  rewrite filter_cons_True by done. f_equal. by apply IH.
Qed.

(** X7. Deleting an instrument right after it was inserted gives back the
    instruments there were before the insertion; the bench and the host
    that the insertion registered stay in the lab. *)
Theorem insertInstrument_then_delete (instrument : Instrument) (st st1 : St) :
  insertInstrument instrument st = (Returned tt, st1) ->
  deleteInstrumentFromName (instr_name instrument) st1
  = (Returned tt, put_instruments (instruments (self st)) st1).
Proof.
  intros [Hfresh Hl]%insertInstrument_appends.
  unfold deleteInstrumentFromName, get_self.
  unfold bind at 1. unfold bind at 1. unfold get, ret at 1.
  rewrite Hl.
  assert (filter (fun x => instr_name x = instr_name instrument)
            (instruments (self st) ++ [instrument]) = [instrument]) as ->.
  { rewrite filter_app.
    rewrite (filter_none _ (instruments (self st))).
    - by rewrite filter_cons_True.
    - intros x Hx Hname. destruct Hfresh. unfold TypedList.keys.
      apply list_elem_of_fmap. by exists x. }
  rewrite bool_decide_eq_true_2 by done.
  unfold update_self, modify. cbv beta. rewrite Hl.
  unfold TypedList.delitem.
  rewrite filter_app, filter_cons_False by (intros Hne; by apply Hne).
  rewrite filter_nil, app_nil_r.
  by rewrite (filter_name_fresh (instr_name instrument)).
Qed.

(** ** updateConnections *)

Lemma filter_all {A} (P : A -> Prop) `{!forall x, Decision (P x)} (l : list A) :
  (forall x, x ∈ l -> P x) -> filter P l = l.
Proof.
  induction l as [|x l IH]; intros Hall; [done|].
  rewrite filter_cons_True by (apply Hall; by left).
  f_equal. apply IH. intros y Hy. apply Hall. by right.
Qed.

(** The removal pass as one filter. *)
Lemma remove_conflicting_filter kvs : forall l,
  remove_conflicting kvs l
  = filter (fun x : Connection => Forall (fun kv => kv ∉ x) kvs) l.
Proof.
  induction kvs as [|[k v] kvs IH]; intros l.
  - cbn. symmetry. apply filter_all. intros. constructor.
  - change (remove_conflicting ((k, v) :: kvs) l)
      with (remove_conflicting kvs
              (filter (fun x => check_if_port_is_not_connected x k v = true) l)).
    rewrite IH, list_filter_filter. apply list_filter_iff. intros x.
    rewrite Forall_cons, check_if_port_is_not_connected_true. tauto.
Qed.

Lemma remove_conflicting_app kvs l1 l2 :
  remove_conflicting kvs (l1 ++ l2)
  = remove_conflicting kvs l1 ++ remove_conflicting kvs l2.
Proof. rewrite !remove_conflicting_filter. apply filter_app. Qed.

Lemma remove_conflicting_idemp kvs l :
  remove_conflicting kvs (remove_conflicting kvs l) = remove_conflicting kvs l.
Proof.
  rewrite !remove_conflicting_filter, list_filter_filter.
  apply list_filter_iff. tauto.
Qed.

Lemma remove_conflicting_self (c : Connection) :
  c ≠ [] -> remove_conflicting c [c] = [].
Proof.
  intros Hc. rewrite remove_conflicting_filter.
  rewrite filter_cons_False; [done|].
  destruct c as [|kv c]; [done|]. intros [Hkv _]%Forall_cons.
  apply Hkv. by left.
Qed.

Lemma connection_in_true c l :
  connection_in c l = true <-> exists x, x ∈ l /\ c ≡ₚ x.
Proof.
  unfold connection_in, dict_eqb. rewrite existsb_exists.
  setoid_rewrite bool_decide_eq_true. by setoid_rewrite <- list_elem_of_In.
Qed.

Lemma connection_in_removed (c : Connection) l :
  c ≠ [] -> connection_in c (remove_conflicting c l) = false.
Proof.
  intros Hc. apply not_true_iff_false. rewrite connection_in_true.
  intros (x & [_ Hx]%elem_of_remove_conflicting & Heq).
  destruct c as [|kv c]; [done|].
  apply (Hx kv); [by left|]. rewrite <- Heq. by left.
Qed.

(** A call with one connection whose ports are valid. *)
Lemma updateConnections_single (c : Connection) (st : St) :
  c ≠ [] -> first_invalid_port [c] = None ->
  exists extra,
    updateConnections [c] st
    = (Returned true,
       add_logs extra
         (with_connections
            (remove_conflicting c (connections (self st)) ++ [c]) st)).
Proof.
  intros Hc Hvalid.
  destruct (updateConnections_valid [c] st Hvalid) as (extra & ->).
  exists extra. cbn [concat]. rewrite app_nil_r. cbn [append_new foldl].
  by rewrite connection_in_removed.
Qed.

(** X9. Giving [updateConnections] a connection a second time changes
    nothing in the connections: the call drops the connection (it shares
    its ports with itself) and appends it again. *)
Theorem updateConnections_again (c : Connection) (st : St) :
  c ≠ [] -> first_invalid_port [c] = None ->
  exists st1 st2,
    updateConnections [c] st = (Returned true, st1)
    /\ updateConnections [c] st1 = (Returned true, st2)
    /\ connections (self st1)
       = remove_conflicting c (connections (self st)) ++ [c]
    /\ connections (self st2) = connections (self st1).
Proof.
  intros Hc Hvalid.
  destruct (updateConnections_single c st Hc Hvalid) as (e1 & H1).
  destruct (updateConnections_single c
    (add_logs e1 (with_connections
       (remove_conflicting c (connections (self st)) ++ [c]) st)) Hc Hvalid)
    as (e2 & H2).
  eexists _, _. split_and!; [exact H1|exact H2|done|].
  cbn. rewrite remove_conflicting_app, remove_conflicting_idemp.
  by rewrite remove_conflicting_self, app_nil_r.
Qed.

Lemma first_invalid_port_none conns :
  (forall c k v, c ∈ conns -> (k, v) ∈ c -> v ∈ ports k) ->
  first_invalid_port conns = None.
Proof.
  intros Hall. unfold first_invalid_port. rewrite filter_none; [done|].
  intros [k v] Hin Hbad. apply Hbad.
  apply list_elem_of_In, in_concat in Hin as (c & Hc & Hkv).
  apply (Hall c); by apply list_elem_of_In.
Qed.

Lemma append_new_spec conns : forall l,
  (forall x, x ∈ l -> x ∈ append_new conns l)
  /\ (forall c, c ∈ conns -> connection_in c (append_new conns l) = true)
  /\ (forall x, x ∈ append_new conns l -> x ∈ l \/ x ∈ conns).
Proof.
  induction conns as [|c conns IH]; intros l; cbn [append_new foldl].
  - split_and!; [done| |by left]. intros c Hc. by apply elem_of_nil in Hc.
  - fold (append_new conns (if connection_in c l then l else l ++ [c])).
    destruct (IH (if connection_in c l then l else l ++ [c]))
      as (Hkeep & Hnew & Hfrom).
    split_and!.
    + intros x Hx. apply Hkeep. destruct (connection_in c l); [done|].
      apply elem_of_app. by left.
    + intros c' [->|Hc']%elem_of_cons; [|by apply Hnew].
      apply connection_in_true.
      destruct (connection_in c l) eqn:E.
      * apply connection_in_true in E as (x & Hx & Heq).
        exists x. split; [by apply Hkeep|done].
      * exists c. split; [|done]. apply Hkeep, elem_of_app. right. by left.
    + intros x [Hx|Hx]%Hfrom; [|right; by right].
      destruct (connection_in c l); [by left|].
      apply elem_of_app in Hx as [Hx|Hx]; [by left|].
      apply list_elem_of_singleton in Hx as ->. right; by left.
Qed.

(** X10. A batch whose ports all belong to their entities never fails:
    [updateConnections] returns [True]; afterwards every connection of
    the batch is among the connections, every old connection that shares
    no [(entity, port)] pair with the batch is still there, nothing else
    is, and the rest of the lab and the files are untouched. *)
Theorem updateConnections_outcome (conns : list Connection) (st : St) :
  (forall c k v, c ∈ conns -> (k, v) ∈ c -> v ∈ ports k) ->
  exists extra l',
    updateConnections conns st
    = (Returned true, add_logs extra (with_connections l' st))
    /\ (forall c, c ∈ conns -> connection_in c l' = true)
    /\ (forall x, x ∈ connections (self st) ->
          (forall c kv, c ∈ conns -> kv ∈ c -> kv ∉ x) -> x ∈ l')
    /\ (forall x, x ∈ l' ->
          x ∈ conns
          \/ (x ∈ connections (self st)
              /\ forall c kv, c ∈ conns -> kv ∈ c -> kv ∉ x)).
Proof.
  intros Hvalid%first_invalid_port_none.
  destruct (updateConnections_valid conns st Hvalid) as (extra & ->).
  eexists extra, _. split; [reflexivity|].
  destruct (append_new_spec conns
              (remove_conflicting (concat conns) (connections (self st))))
    as (Hkeep & Hnew & Hfrom).
  assert (forall x : Connection,
            (forall kv, kv ∈ concat conns -> kv ∉ x)
            <-> forall (c : Connection) kv, c ∈ conns -> kv ∈ c -> kv ∉ x)
    as Hconcat.
  { intros x. split.
    - intros Hx c kv Hc Hkv. apply Hx, list_elem_of_In, in_concat.
      exists c. by rewrite <- !list_elem_of_In.
    - intros Hx kv Hin.
      apply list_elem_of_In, in_concat in Hin as (c & Hc & Hkv).
      apply (Hx c); by apply list_elem_of_In. }
  split_and!; [done| |].
  - intros x Hx Hfree. apply Hkeep, elem_of_remove_conflicting.
    split; [done|]. by apply Hconcat.
  - intros x [[Hx Hfree]%elem_of_remove_conflicting|Hx]%Hfrom; [right|by left].
    split; [done|]. by apply Hconcat.
Qed.


(** * Properties of the load and save protocol *)

(** ** What a computation can raise, and what it leaves alone *)

Section hoare.
Context {S : Type}.

Lemma raises_ret {A} P (a : A) : raises_only P (ret (St:=S) a).
Proof. by intros st e st' [=]. Qed.

Lemma raises_get P : raises_only P (get (St:=S)).
Proof. by intros st e st' [=]. Qed.

Lemma raises_put P (x : S) : raises_only P (put x).
Proof. by intros st e st' [=]. Qed.

Lemma raises_modify P (f : S -> S) : raises_only P (modify f).
Proof. by intros st e st' [=]. Qed.

Lemma raises_raise {A} (P : exn -> Prop) e :
  P e -> raises_only P (raise (St:=S) (A:=A) e).
Proof. by intros HP st e' st' [= <- _]. Qed.

Lemma raises_bind {A B} P (m : Py S A) (k : A -> Py S B) :
  raises_only P m -> (forall a, raises_only P (k a)) ->
  raises_only P (bind m k).
Proof.
  intros Hm Hk st e st'. unfold bind.
  destruct (m st) as [[a|e'] st1] eqn:E.
  - apply Hk.
  - intros [= <- <-]. by apply (Hm _ _ _ E).
Qed.

Lemma raises_for_each {A} P (l : list A) (body : A -> Py S unit) :
  (forall x, raises_only P (body x)) -> raises_only P (for_each l body).
Proof.
  intros Hb. induction l as [|x l IH]; simpl.
  - apply raises_ret.
  - apply raises_bind; [apply Hb|by intros _].
Qed.

Lemma keeps_ret {A X} (f : S -> X) (a : A) : keeps f (ret a).
Proof. by intros st r st' [= _ <-]. Qed.

Lemma keeps_raise {A X} (f : S -> X) e : keeps f (raise (A:=A) e).
Proof. by intros st r st' [= _ <-]. Qed.

Lemma keeps_get {X} (f : S -> X) : keeps f get.
Proof. by intros st r st' [= _ <-]. Qed.

Lemma keeps_modify {X} (f : S -> X) (g : S -> S) :
  (forall st, f (g st) = f st) -> keeps f (modify g).
Proof. intros Hg st r st' [= _ <-]. apply Hg. Qed.

Lemma keeps_bind {A B X} (f : S -> X) (m : Py S A) (k : A -> Py S B) :
  keeps f m -> (forall a, keeps f (k a)) -> keeps f (bind m k).
Proof.
  intros Hm Hk st r st'. unfold bind.
  destruct (m st) as [[a|e] st1] eqn:E.
  - intros Hka. rewrite (Hk _ _ _ _ Hka). by apply (Hm _ _ _ E).
  - intros [= _ <-]. by apply (Hm _ _ _ E).
Qed.

Lemma keeps_lift_exn {A X} (f : S -> X) (r : exn + A) : keeps f (lift_exn r).
Proof. destruct r; [apply keeps_raise|apply keeps_ret]. Qed.

Lemma raises_lift_exn {A} (P : exn -> Prop) (r : exn + A) :
  (forall e, r = inl e -> P e) -> raises_only P (lift_exn (St':=S) r).
Proof.
  intros Hr. destruct r; [apply raises_raise; by apply Hr|apply raises_ret].
Qed.
End hoare.

(** ** patch_labstate *)

Lemma append_raises {A} `{Named A} (x : A) (l : list A) e :
  TypedList.append x l = inl e -> not_NotImplemented e.
Proof.
  unfold TypedList.append. by destruct (bool_decide _); intros [= <-].
Qed.

Lemma extend_raises {A} `{Named A} (xs : list A) : forall l e,
  TypedList.extend xs l = inl e -> not_NotImplemented e.
Proof.
  induction xs as [|x xs IH]; intros l e; simpl; [done|].
  destruct (TypedList.append x l) as [e'|l'] eqn:E.
  - intros [= <-]. by apply (append_raises _ _ _ E).
  - apply IH.
Qed.

Lemma dict_item_raises {S A} key (o : option A) :
  raises_only not_NotImplemented (dict_item (St':=S) key o).
Proof. destruct o; [apply raises_ret|by apply raises_raise]. Qed.

Lemma patch_bench_raises b : raises_only not_NotImplemented (patch_bench b).
Proof.
  unfold patch_bench.
  repeat first
    [ apply raises_bind; [|intros ?]
    | apply raises_get | apply raises_put | apply raises_modify
    | apply raises_ret | apply dict_item_raises
    | apply raises_lift_exn; intros ?; apply append_raises
    | apply raises_for_each; intros ? ].
Qed.

Lemma patch_host_raises h : raises_only not_NotImplemented (patch_host h).
Proof.
  unfold patch_host.
  repeat first
    [ apply raises_bind; [|intros ?]
    | apply raises_get | apply raises_put | apply raises_modify
    | apply raises_ret | apply dict_item_raises
    | apply raises_lift_exn; intros ?; apply append_raises
    | apply raises_for_each; intros ? ].
Qed.

Lemma patch_v1_raises o : raises_only not_NotImplemented (patch_v1 o).
Proof.
  unfold patch_v1.
  repeat first
    [ apply patch_bench_raises | apply patch_host_raises
    | apply raises_bind; [|intros ?]
    | apply raises_get | apply raises_ret
    | apply raises_lift_exn; intros ?; apply extend_raises
    | apply raises_for_each; intros ? ].
Qed.

(** The version 1 patch builds its result from [LabState()]: whatever it
    returns carries the class's version. *)
Lemma patch_v1_version o v lab v' :
  patch_v1 o v = (Returned lab, v') -> meta lab = meta (new_LabState None).
Proof.
  unfold patch_v1, bind.
  destruct (for_each (obj_benches o) patch_bench v) as [[[]|?] v1]; [|done].
  destruct (for_each (obj_hosts o) patch_host v1) as [[[]|?] v2]; [|done].
  unfold get. 
  destruct (lift_exn (TypedList.extend (p_instruments v2) _) v2)
    as [[?|?] v3]; [|done].
  destruct (lift_exn (TypedList.extend (p_benches v2) _) v3)
    as [[?|?] v4]; [|done].
  destruct (lift_exn (TypedList.extend (p_devices v2) _) v4)
    as [[?|?] v5]; [|done].
  destruct (lift_exn (TypedList.extend (p_hosts v2) _) v5)
    as [[?|?] v6]; [|done].
  by intros [= <- _].
Qed.

(** Only version 1 has a patch. *)
Lemma patch_labstate_not_found i o :
  i ≠ 1 -> patch_labstate i o = inl (NotImplementedError "Patch not found").
Proof. intros Hi. unfold patch_labstate. by rewrite bool_decide_eq_false_2. Qed.

Lemma patch_labstate_1 o :
  match patch_labstate 1 o with
  | inr lab => meta lab = meta (new_LabState None)
  | inl e => not_NotImplemented e
  end.
Proof.
  unfold patch_labstate. rewrite bool_decide_eq_true_2 by done.
  destruct (bool_decide _); [|done].
  destruct (patch_v1 o _) as [[lab|e] v'] eqn:E.
  - by apply (patch_v1_version _ _ _ _ E).
  - by apply (patch_v1_raises _ _ _ _ E).
Qed.

(** ** loadState *)

Section load_properties.
Context `{Libs}.

Lemma json_eq_str_true j s : json_eq_str j s = true <-> j = JStr s.
Proof.
  destruct j; simpl; try (split; [done|by intros [=]]).
  rewrite bool_decide_eq_true. split; [by intros ->|by intros [= ->]].
Qed.

(** [loadState] up to its integrity check, for a document that has the
    three fields it pops first. *)
Lemma loadState_checked w path text d user dt sha vh :
  files w !! path = Some text ->
  json_decode text = Some d ->
  d !! "__user__" = Some user ->
  d !! "__datetime__" = Some dt ->
  d !! "__sha256__" = Some sha ->
  loadState (Some path) vh w
  = if vh && negb (json_eq_str sha (hash_sha256 (json_encode (stripped d))))
    then (Raised (corrupted sha (hash_sha256 (json_encode (stripped d)))), w)
    else load_verified path user dt sha (stripped d) w.
Proof.
  intros Hf Hd Hu Hdt Hs.
  unfold loadState, read_file, bind, get, dict_pop.
  cbn [default from_option id]. rewrite Hf. unfold ret at 1. rewrite Hd. unfold ret at 1.
  rewrite Hu. cbn [lift_exn ret fst snd].
  rewrite lookup_delete_ne by done. rewrite Hdt. cbn [lift_exn ret fst snd].
  rewrite !lookup_delete_ne by done. rewrite Hs. cbn [lift_exn ret fst snd].
  fold (stripped d). by destruct (_ && _).
Qed.

(** C2. A persisted document whose stored ["__sha256__"] is not the
    digest recomputed over the document without ["__sha256__"],
    ["__user__"] and ["__datetime__"] makes the verifying load raise the
    "Labstate is corrupted" [RuntimeError]; no lab is returned and the
    world is as before. *)
Theorem loadState_integrity w path text d user dt sha :
  files w !! path = Some text ->
  json_decode text = Some d ->
  d !! "__user__" = Some user ->
  d !! "__datetime__" = Some dt ->
  d !! "__sha256__" = Some sha ->
  sha ≠ JStr (hash_sha256 (json_encode (stripped d))) ->
  loadState (Some path) true w
  = (Raised (corrupted sha (hash_sha256 (json_encode (stripped d)))), w).
Proof.
  intros Hf Hd Hu Hdt Hs Hne.
  rewrite (loadState_checked _ _ _ _ _ _ _ _ Hf Hd Hu Hdt Hs).
  destruct (json_eq_str sha _) eqn:E; [|done].
  by apply json_eq_str_true in E.
Qed.

(** With a digest and an encoder that never collide, any change to the
    content of a well-stamped document is caught. *)
Lemma loadState_detects_change w path text d d' user dt :
  Inj (=) (=) sha256_hexdigest ->
  Inj (=) (=) json_encode ->
  files w !! path = Some text ->
  json_decode text = Some d' ->
  d' !! "__user__" = Some user ->
  d' !! "__datetime__" = Some dt ->
  d' !! "__sha256__" = Some (JStr (hash_sha256 (json_encode (stripped d)))) ->
  stripped d' ≠ stripped d ->
  exists msg, loadState (Some path) true w = (Raised (RuntimeError msg), w).
Proof.
  intros Hh He Hf Hd Hu Hdt Hs Hne.
  rewrite (loadState_checked _ _ _ _ _ _ _ _ Hf Hd Hu Hdt Hs).
  destruct (json_eq_str _ _) eqn:E; [|by eexists].
  apply json_eq_str_true in E as [= Heq]. destruct Hne.
  symmetry. apply He, Hh, Heq.
Qed.


Lemma load_verified_unpatched path user dt sha content v obj w :
  content !! "__version__" = Some (JNum v) ->
  v < LabState_version -> v ≠ 1 ->
  restore (delete "__version__" content) = Some obj ->
  load_verified path user dt sha content w
  = (Returned (set_obj_meta (loaded_meta path user dt sha v) obj),
     log_to ERROR "Patch not found"
       (log_to WARNING ("Attempting patch " +:+ pretty v +:+ " -> " +:+
                        pretty LabState_version)
          (log_to WARNING "Loading older version of Labstate." w))).
Proof.
  intros Hv Hlt Hne Hr. unfold load_verified, dict_pop, bind. rewrite Hv.
  cbn [lift_exn ret fst snd]. rewrite bool_decide_eq_true_2 by done.
  unfold log_world at 1. unfold modify at 1. rewrite Hr.
  rewrite seqZ_cons by lia. cbn [patch_loop]. unfold bind.
  unfold log_world at 1. unfold modify at 1.
  by rewrite patch_labstate_not_found.
Qed.

Lemma load_verified_v1 path user dt sha content o w w' :
  content !! "__version__" = Some (JNum 1) ->
  load_verified path user dt sha content w = (Returned o, w') ->
  exists lab, o = CurrentLab lab /\ meta lab = meta (new_LabState None).
Proof.
  intros Hv. unfold load_verified, dict_pop, bind. rewrite Hv.
  cbn [lift_exn ret fst snd]. rewrite bool_decide_eq_true_2 by done.
  unfold log_world at 1. unfold modify at 1.
  destruct (restore _) as [obj|]; [|done].
  change (seqZ 1 (LabState_version - 1)) with [1]. cbn [patch_loop].
  unfold bind. unfold log_world at 1. unfold modify at 1.
  pose proof (patch_labstate_1
    (set_obj_meta (loaded_meta path user dt sha 1) obj)) as Hp.
  destruct (patch_labstate 1 _) as [e|lab].
  - by destruct e.
  - intros [= <- _]. by exists lab.
Qed.

(** C3, as the code has it.  For a persisted document stored at a version
    [v] older than the current one: when no patch is registered for [v]
    (every [v] but 1), the load does not fail: the missing patch is
    logged and the restored object comes back unpatched, still at version
    [v]; when [v] is 1, whatever the load returns is a lab at the current
    version. *)
Theorem loadState_older_version w path text d user dt sha v validateHash :
  files w !! path = Some text ->
  json_decode text = Some d ->
  d !! "__user__" = Some user ->
  d !! "__datetime__" = Some dt ->
  d !! "__sha256__" = Some sha ->
  sha = JStr (hash_sha256 (json_encode (stripped d))) ->
  d !! "__version__" = Some (JNum v) ->
  v < LabState_version ->
  (v ≠ 1 ->
   forall obj, restore (delete "__version__" (stripped d)) = Some obj ->
     exists w',
       loadState (Some path) validateHash w
       = (Returned (set_obj_meta (loaded_meta path user dt sha v) obj), w')
       /\ __version__ (obj_meta
            (set_obj_meta (loaded_meta path user dt sha v) obj)) = v
       /\ {| log_level := ERROR; log_msg := "Patch not found" |} ∈ logs w'
       /\ files w' = files w)
  /\ (v = 1 ->
      forall o w', loadState (Some path) validateHash w = (Returned o, w') ->
        __version__ (obj_meta o) = LabState_version).
Proof.
  intros Hf Hd Hu Hdt Hs Hsha Hv Hlt.
  assert (stripped d !! "__version__" = Some (JNum v)) as Hv'.
  { unfold stripped. by rewrite !lookup_delete_ne by done. }
  assert (loadState (Some path) validateHash w
          = load_verified path user dt sha (stripped d) w) as ->.
  { rewrite (loadState_checked _ _ _ _ _ _ _ _ Hf Hd Hu Hdt Hs).
    assert (json_eq_str sha (hash_sha256 (json_encode (stripped d))) = true)
      as -> by (by apply json_eq_str_true).
    by rewrite andb_false_r. }
  split.
  - intros Hne obj Hr. eexists. split_and!.
    + by apply load_verified_unpatched.
    + by destruct obj.
    + cbn. rewrite !elem_of_app. right. by left.
    + done.
  - intros -> o w' Hload.
    destruct (load_verified_v1 _ _ _ _ _ _ _ _ Hv' Hload) as (lab & -> & Hm).
    cbn. by rewrite Hm.
Qed.

End load_properties.

(** ** saveState *)

Section save_properties.
Context `{Libs}.

Ltac keeps_step :=
  first
    [ apply keeps_ret | apply keeps_raise | apply keeps_get
    | apply keeps_lift_exn
    | apply keeps_modify; reflexivity
    | apply keeps_bind; [|intros ?]
    | match goal with
      | |- keeps _ (match ?x with _ => _ end) => destruct x
      | |- keeps _ (if ?b then _ else _) => destruct b
      end ].

Lemma patch_loop_keeps {X} (f : World -> X) versions :
  log_invariant f -> forall o, keeps f (patch_loop versions o).
Proof.
  intros Hf.
  induction versions as [|i versions IH]; intros o; cbn [patch_loop].
  - apply keeps_ret.
  - apply keeps_bind; [apply keeps_modify; apply Hf|intros _].
    destruct (patch_labstate i o) as [e|lab]; [|apply IH].
    destruct e; try apply keeps_raise.
    apply keeps_bind; [apply keeps_modify; apply Hf|intros _].
    apply keeps_ret.
Qed.

(** Loading only writes the log. *)
Lemma loadState_keeps {X} (f : World -> X) fn vh :
  log_invariant f -> keeps f (loadState fn vh).
Proof.
  intros Hf. unfold loadState, load_verified, read_file, log_world.
  repeat first [ by apply patch_loop_keeps | apply keeps_modify; apply Hf
               | keeps_step ].
Qed.

Lemma loadState_keeps_files fn vh : keeps files (loadState fn vh).
Proof. by apply loadState_keeps. Qed.

Lemma lab_eqb_cached loaded s : lab_eqb loaded (cached s) = lab_eqb loaded s.
Proof. unfold cached. by destruct (no_digest _). Qed.

Lemma sha256_cached s : __sha256__ (meta (cached s)) = recorded_digest s.
Proof. unfold cached, recorded_digest. by destruct (no_digest _). Qed.

Lemma same_contents_cached s : same_contents (cached s) s.
Proof. unfold cached. by destruct (no_digest _). Qed.

(** [saveState] up to its comparison of the two labs, when the file
    loads. *)
Lemma saveState_loaded st path save_backup loaded w1 :
  loadState (Some path) true (world st) = (Returned loaded, w1) ->
  exists w2,
    files w2 = files w1 /\ env_user w2 = env_user w1
    /\ env_now w2 = env_now w1
    /\ (exists extra, logs w2 = logs w1 ++ extra)
    /\ saveState (Some path) save_backup st
       = (if lab_eqb loaded (self st) then
            logger DEBUG "Detected no changes in labstate. Nothing to do."
          else if bool_decide (__sha256__ (obj_meta loaded)
                               = recorded_digest (self st))
          then _saveState (Some path) save_backup
          else logger ERROR (log_msg (conflict_record path)))
           {| self := cached (self st); world := w2 |}.
Proof.
  intros Hload. unfold saveState, get_self.
  unfold bind at 1. unfold bind at 1. unfold get at 1. unfold ret at 1.
  cbn [default from_option id]. unfold bind at 1. unfold get at 1.
  rewrite Hload. unfold bind at 1. unfold put at 1.
  unfold bind at 1. unfold cached, recorded_digest, when.
  destruct (no_digest (__sha256__ (meta (self st)))) eqn:Hnd.
  - exists (log_to DEBUG
              ("self.__sha256__: " +:+ content_digest (self st))
              (log_to DEBUG
                 "Attempting to compare fabricated labstate vs. preloaded one."
                 w1)).
    split_and!; try reflexivity.
    cbn. eexists. by rewrite <- app_assoc.
  - exists w1. split_and!; try done; [by exists []; rewrite app_nil_r|..].
Qed.

(** C1, as the code has it.  When the file at the path loads, the loaded
    lab is not equal to the lab in memory, and the digest recorded in
    memory ([__sha256__], or the digest of the present contents when none
    was recorded) differs from the digest of the loaded lab, [saveState]
    returns normally, raising nothing: it logs at level ERROR a line that
    names the path, writes no file, and leaves the contents of the lab in
    memory as they were. *)
Theorem saveState_conflict st path save_backup loaded w1 :
  loadState (Some path) true (world st) = (Returned loaded, w1) ->
  lab_eqb loaded (self st) = false ->
  __sha256__ (obj_meta loaded) ≠ recorded_digest (self st) ->
  exists w',
    saveState (Some path) save_backup st
    = (Returned tt, {| self := cached (self st); world := w' |})
    /\ files w' = files (world st)
    /\ last (logs w') = Some (conflict_record path)
    /\ same_contents (cached (self st)) (self st).
Proof.
  intros Hload Hneq Hsha.
  destruct (saveState_loaded st path save_backup loaded w1 Hload)
    as (w2 & Hfiles & _ & _ & _ & ->).
  rewrite Hneq. rewrite bool_decide_eq_false_2 by done.
  eexists. split_and!.
  - reflexivity.
  - cbn. rewrite Hfiles.
    by apply (loadState_keeps_files _ _ _ _ _ Hload).
  - cbn. by rewrite last_snoc.
  - apply same_contents_cached.
Qed.

Lemma loadState_not_found w path vh :
  files w !! path = None ->
  loadState (Some path) vh w = (Raised (FileNotFoundError path), w).
Proof.
  intros Hf. unfold loadState, read_file, bind, get.
  cbn [default from_option id]. by rewrite Hf.
Qed.



Lemma stripped_toJSON s w :
  metadata_free (flatten s) ->
  stripped (__toJSON s w)
  = <["__version__" := JNum (__version__ (meta s))]> (flatten s).
Proof.
  intros (Hv & Hs & Hu & Hd). unfold stripped, __toJSON. cbv zeta.
  repeat first [ rewrite delete_insert_eq
               | rewrite delete_insert_ne by done ].
  rewrite (delete_id _ "__user__") by done.
  rewrite (delete_id _ "__datetime__") by done.
  by rewrite (delete_id _ "__sha256__").
Qed.



End save_properties.

(** ** The digest *)

Section digest_properties.
Context `{Libs}.

Lemma toJSON_sha256 s w :
  __toJSON s w !! "__sha256__" = Some (JStr (content_digest s)).
Proof.
  unfold __toJSON. cbv zeta. rewrite !lookup_insert_ne by done.
  by rewrite lookup_insert_eq.
Qed.


(** Why the order of insertion shows in the digest: with libraries that
    round-trip the two labs and never collide, labs whose collections
    differ, be it only in their order, get different digests. *)
Lemma content_digest_separates (s1 s2 l1 l2 : LabState) :
  Inj (=) (=) sha256_hexdigest ->
  Inj (=) (=) json_encode ->
  flatten s1 !! "__version__" = None ->
  flatten s2 !! "__version__" = None ->
  restore (flatten s1) = Some (CurrentLab l1) -> same_contents l1 s1 ->
  restore (flatten s2) = Some (CurrentLab l2) -> same_contents l2 s2 ->
  content_digest s1 = content_digest s2 ->
  same_contents s1 s2.
Proof.
  intros Hh He Hv1 Hv2 Hr1 Hc1 Hr2 Hc2 Hd.
  apply Hh, He in Hd.
  assert (flatten s1 = flatten s2) as Hf.
  { apply (f_equal (delete "__version__")) in Hd.
    by rewrite !delete_insert_eq, !delete_id in Hd. }
  rewrite Hf, Hr2 in Hr1. injection Hr1 as ->.
  unfold same_contents in *.
  destruct Hc1 as (E1 & E2 & E3 & E4 & E5).
  by rewrite <- E1, <- E2, <- E3, <- E4, <- E5.
Qed.

End digest_properties.

(** * More properties of the load and save protocol *)

Section load_more.
Context `{Libs}.

(** X11. A document that lacks ["__user__"], ["__datetime__"] or
    ["__sha256__"] cannot be loaded, with or without validation: the
    load raises [KeyError] for the first of them that is missing, in that
    order.  A document that has the three and passes the integrity check
    (or is loaded without validation) but has no ["__version__"] raises
    [KeyError] for it. *)
Theorem loadState_missing_field w path text d validateHash :
  files w !! path = Some text ->
  json_decode text = Some d ->
  (forall k, first_missing d = Some k ->
     loadState (Some path) validateHash w = (Raised (KeyError k), w))
  /\ (first_missing d = None ->
      d !! "__version__" = None ->
      validateHash = false
      \/ d !! "__sha256__"
         = Some (JStr (hash_sha256 (json_encode (stripped d)))) ->
      loadState (Some path) validateHash w
      = (Raised (KeyError "__version__"), w)).
Proof.
  intros Hf Hd. unfold first_missing. rewrite !filter_cons, filter_nil. split.
  - intros k Hk.
    unfold loadState, read_file, bind, get, dict_pop.
    cbn [default from_option id]. rewrite Hf. unfold ret at 1. rewrite Hd.
    unfold ret at 1.
    destruct (d !! "__user__") as [user|] eqn:Hu.
    + cbn [lift_exn ret fst snd]. rewrite lookup_delete_ne by done.
      destruct (d !! "__datetime__") as [dt|] eqn:Hdt.
      * cbn [lift_exn ret fst snd]. rewrite !lookup_delete_ne by done.
        destruct (d !! "__sha256__") as [sha|] eqn:Hs.
        -- repeat case_decide; done.
        -- repeat case_decide; try done. by injection Hk as <-.
      * repeat case_decide; try done; by injection Hk as <-.
    + repeat case_decide; try done; by injection Hk as <-.
  - intros Hnone Hv Hok.
    destruct (d !! "__user__") as [user|] eqn:Hu; [|by repeat case_decide].
    destruct (d !! "__datetime__") as [dt|] eqn:Hdt; [|by repeat case_decide].
    destruct (d !! "__sha256__") as [sha|] eqn:Hs; [|by repeat case_decide].
    rewrite (loadState_checked _ _ _ _ _ _ _ _ Hf Hd Hu Hdt Hs).
    assert (validateHash
            && negb (json_eq_str sha (hash_sha256 (json_encode (stripped d))))
            = false) as ->.
    { destruct Hok as [->|[= ->]]; [done|].
      rewrite (proj2 (json_eq_str_true _ _)) by done. apply andb_false_r. }
    unfold load_verified, dict_pop, bind, stripped.
    rewrite !lookup_delete_ne by done. by rewrite Hv.
Qed.

(** X12. A document stored at a version newer than the class's is refused:
    once past the integrity check, the load raises the [RuntimeError]
    that asks for an update of the package, and logs nothing. *)
Theorem loadState_newer_version w path text d user dt sha v validateHash :
  files w !! path = Some text ->
  json_decode text = Some d ->
  d !! "__user__" = Some user ->
  d !! "__datetime__" = Some dt ->
  d !! "__sha256__" = Some sha ->
  validateHash = false \/ sha = JStr (hash_sha256 (json_encode (stripped d))) ->
  d !! "__version__" = Some (JNum v) ->
  LabState_version < v ->
  loadState (Some path) validateHash w = (Raised newer_version_error, w).
Proof.
  intros Hf Hd Hu Hdt Hs Hok Hv Hgt.
  rewrite (loadState_checked _ _ _ _ _ _ _ _ Hf Hd Hu Hdt Hs).
  assert (validateHash
          && negb (json_eq_str sha (hash_sha256 (json_encode (stripped d))))
          = false) as ->.
  { destruct Hok as [->| ->]; [done|].
    rewrite (proj2 (json_eq_str_true _ _)) by done. apply andb_false_r. }
  unfold load_verified, dict_pop, bind, stripped.
  rewrite !lookup_delete_ne by done. rewrite Hv. cbn [lift_exn ret fst snd].
  rewrite bool_decide_eq_false_2 by lia.
  rewrite bool_decide_eq_true_2 by lia. done.
Qed.


End load_more.

(** ** Loading only adds to the log *)

Section preserves.
Context {S : Type} (R : S -> S -> Prop) `{!Reflexive R, !Transitive R}.

Lemma preserves_ret {A} (a : A) : preserves R (ret a).
Proof. by intros st r st' [= _ <-]. Qed.

Lemma preserves_raise {A} e : preserves R (raise (A:=A) e).
Proof. by intros st r st' [= _ <-]. Qed.

Lemma preserves_get : preserves R get.
Proof. by intros st r st' [= _ <-]. Qed.

Lemma preserves_lift_exn {A} (r : exn + A) : preserves R (lift_exn r).
Proof. destruct r; [apply preserves_raise|apply preserves_ret]. Qed.

Lemma preserves_modify (g : S -> S) :
  (forall st, R st (g st)) -> preserves R (modify g).
Proof. intros Hg st r st' [= _ <-]. apply Hg. Qed.

Lemma preserves_bind {A B} (m : Py S A) (k : A -> Py S B) :
  preserves R m -> (forall a, preserves R (k a)) -> preserves R (bind m k).
Proof.
  intros Hm Hk st r st'. unfold bind.
  destruct (m st) as [[a|e] st1] eqn:E.
  - intros Hka. etrans; [by apply (Hm _ _ _ E)|by apply (Hk _ _ _ _ Hka)].
  - intros [= _ <-]. by apply (Hm _ _ _ E).
Qed.
End preserves.

#[local] Instance logged_more_refl : Reflexive logged_more.
Proof. intros w. split_and!; try done. exists []. by rewrite app_nil_r. Qed.

#[local] Instance logged_more_trans : Transitive logged_more.
Proof.
  intros w1 w2 w3 (Hf & Hu & Hn & e1 & H1) (Hf' & Hu' & Hn' & e2 & H2).
  split_and!; try congruence.
  exists (e1 ++ e2). by rewrite H2, H1, app_assoc.
Qed.

Lemma logged_more_log lv msg w : logged_more w (log_to lv msg w).
Proof. split_and!; try done. by eexists. Qed.

Section load_only_logs.
Context `{Libs}.

Lemma patch_loop_logged_more versions :
  forall o, preserves logged_more (patch_loop versions o).
Proof.
  induction versions as [|i versions IH]; intros o; cbn [patch_loop].
  - apply preserves_ret, _.
  - apply preserves_bind; [apply _|apply preserves_modify, logged_more_log|].
    intros _. destruct (patch_labstate i o) as [e|lab]; [|apply IH].
    destruct e; try apply preserves_raise, _.
    apply preserves_bind; [apply _|apply preserves_modify, logged_more_log|].
    intros _. apply preserves_ret, _.
Qed.

(** X14. [loadState] reads: whatever it is given and whether it returns or
    raises, it leaves every file as it was and only adds lines to the
    log. *)
Theorem loadState_only_logs fname validateHash w r w' :
  loadState fname validateHash w = (r, w') -> logged_more w w'.
Proof.
  revert w r w'. change (preserves logged_more (loadState fname validateHash)).
  unfold loadState, load_verified, read_file, log_world.
  repeat first
    [ apply patch_loop_logged_more
    | apply preserves_modify, logged_more_log
    | apply preserves_ret; apply _
    | apply preserves_raise; apply _
    | apply preserves_get; apply _
    | apply preserves_lift_exn; apply _
    | apply preserves_bind; [apply _| |intros ?]
    | match goal with
      | |- preserves _ (match ?x with _ => _ end) => destruct x
      | |- preserves _ (if ?b then _ else _) => destruct b
      end ].
Qed.

End load_only_logs.

Section migrated.
Context `{Libs}.

(** X15. A lab migrated from a version 1 document forgets where it came
    from: the patch builds it from [LabState()], so whatever [loadState]
    returns for such a document is a lab of the current shape whose
    [filename] is the default one, not the path it was loaded from, and
    that records no digest, no user and no date. *)
Theorem loadState_version_1_forgets_origin w path text d user dt sha
    validateHash o w' :
  files w !! path = Some text ->
  json_decode text = Some d ->
  d !! "__user__" = Some user ->
  d !! "__datetime__" = Some dt ->
  d !! "__sha256__" = Some sha ->
  d !! "__version__" = Some (JNum 1) ->
  loadState (Some path) validateHash w = (Returned o, w') ->
  exists lab,
    o = CurrentLab lab
    /\ filename lab = _filename
    /\ __sha256__ (meta lab) = None
    /\ __user__ (meta lab) = None
    /\ __datetime__ (meta lab) = None
    /\ __version__ (meta lab) = LabState_version.
Proof.
  intros Hf Hd Hu Hdt Hs Hv.
  rewrite (loadState_checked _ _ _ _ _ _ _ _ Hf Hd Hu Hdt Hs).
  destruct (_ && _); [done|]. intros Hload.
  assert (stripped d !! "__version__" = Some (JNum 1)) as Hv'.
  { unfold stripped. by rewrite !lookup_delete_ne by done. }
  destruct (load_verified_v1 _ _ _ _ _ _ _ _ Hv' Hload) as (lab & -> & Hm).
  exists lab. unfold filename. by rewrite Hm.
Qed.

End migrated.

(** ** Saving *)

Section save_more.
Context `{Libs}.



(** X18. A file that does not load cannot be saved over: when loading the
    path raises anything but [FileNotFoundError] (a digest that does not
    match, a text that does not decode, a newer version), [saveState]
    raises the same exception, writes no file and leaves the lab as it
    was. *)
Theorem saveState_unloadable_file st path save_backup e w1 :
  loadState (Some path) true (world st) = (Raised e, w1) ->
  (forall p, e ≠ FileNotFoundError p) ->
  saveState (Some path) save_backup st
  = (Raised e, {| self := self st; world := w1 |})
  /\ files w1 = files (world st).
Proof.
  intros Hload He. split; [|by apply (loadState_keeps_files _ _ _ _ _ Hload)].
  unfold saveState, get_self.
  unfold bind at 1. unfold bind at 1. unfold get at 1. unfold ret at 1.
  cbn [default from_option id]. unfold bind at 1. unfold get at 1.
  rewrite Hload. destruct e; try done. by destruct (He path0).
Qed.

(** X19. When the file at the path loads and holds the lab that is in
    memory, [saveState] writes nothing: it returns with every file as it
    was, the last line of the log saying that nothing changed. *)
Theorem saveState_no_changes st path save_backup loaded w1 :
  loadState (Some path) true (world st) = (Returned loaded, w1) ->
  lab_eqb loaded (self st) = true ->
  exists w',
    saveState (Some path) save_backup st
    = (Returned tt, {| self := cached (self st); world := w' |})
    /\ files w' = files (world st)
    /\ last (logs w')
       = Some {| log_level := DEBUG;
                 log_msg := "Detected no changes in labstate. Nothing to do." |}
    /\ same_contents (cached (self st)) (self st).
Proof.
  intros Hload Heq.
  destruct (saveState_loaded st path save_backup loaded w1 Hload)
    as (w2 & Hfiles & _ & _ & _ & ->).
  rewrite Heq. eexists. split_and!.
  - reflexivity.
  - cbn. rewrite Hfiles. by apply (loadState_keeps_files _ _ _ _ _ Hload).
  - cbn. by rewrite last_snoc.
  - apply same_contents_cached.
Qed.


End save_more.

Section save_compose.
Context `{Libs}.

(** X21. The document [__toJSON] makes passes the integrity check of
    [loadState]: its ["__sha256__"] is the digest of the document without
    ["__sha256__"], ["__user__"] and ["__datetime__"], and what is
    digested does not depend on who serialises the lab or when. *)
Theorem toJSON_verifies (s : LabState) (w : World) :
  metadata_free (flatten s) ->
  __toJSON s w !! "__sha256__"
  = Some (JStr (hash_sha256 (json_encode (stripped (__toJSON s w)))))
  /\ __toJSON s w !! "__user__" = Some (JStr (env_user w))
  /\ __toJSON s w !! "__datetime__" = Some (JStr (env_now w))
  /\ __toJSON s w !! "__version__" = Some (JNum (__version__ (meta s)))
  /\ forall w', stripped (__toJSON s w') = stripped (__toJSON s w).
Proof.
  intros Hfree. split_and!.
  - rewrite toJSON_sha256, stripped_toJSON by done. reflexivity.
  - unfold __toJSON. cbv zeta. rewrite lookup_insert_ne by done.
    by rewrite lookup_insert_eq.
  - unfold __toJSON. cbv zeta. by rewrite lookup_insert_eq.
  - unfold __toJSON. cbv zeta. rewrite !lookup_insert_ne by done.
    by rewrite lookup_insert_eq.
  - intros w'. by rewrite !stripped_toJSON.
Qed.




End save_compose.


(** * Properties of the version 1 patch *)

(** ** patch_labstate: what the version 1 patch builds *)

Section extend.
Context {A : Type} `{Named A} `{EqDecision A}.

Lemma append_inr (x : A) (l l' : list A) :
  TypedList.append x l = inr l' ->
  l' = l ++ [x] /\ (name x ∉ TypedList.keys l).
Proof.
  unfold TypedList.append. case_bool_decide; [done|]. by intros [= <-].
Qed.

(** An [extend] that does not fail has appended the items as they were,
    and their names are new and all different. *)
Lemma extend_inr (xs : list A) : forall l l',
  TypedList.extend xs l = inr l' ->
  l' = l ++ xs
  /\ (NoDup (TypedList.keys l) -> NoDup (TypedList.keys l')).
Proof.
  induction xs as [|x xs IH]; intros l l'; cbn [TypedList.extend].
  - intros [= <-]. by rewrite app_nil_r.
  - destruct (TypedList.append x l) as [e|l1] eqn:E; [done|].
    apply append_inr in E as [-> Hx]. intros [-> Hnd]%IH.
    split; [by rewrite <- app_assoc|].
    intros Hl. apply Hnd. rewrite keys_app. apply NoDup_app.
    split_and!; [done| |apply NoDup_singleton].
    intros n Hn Hn'. apply list_elem_of_singleton in Hn'. by subst.
Qed.
End extend.

(** What the patch has collected when it builds the new lab. *)
Lemma patch_v1_inr o v0 lab v' :
  patch_v1 o v0 = (Returned lab, v') ->
  exists v,
    (for_each (obj_benches o) patch_bench ;;
     for_each (obj_hosts o) patch_host) v0 = (Returned tt, v)
    /\ instruments lab = p_instruments v /\ NoDup (TypedList.keys (p_instruments v))
    /\ benches lab = p_benches v /\ NoDup (TypedList.keys (p_benches v))
    /\ devices lab = p_devices v /\ NoDup (TypedList.keys (p_devices v))
    /\ hosts lab = TypedList.setitem "cassander" (LocalHost "cassander") (p_hosts v)
    /\ NoDup (TypedList.keys (p_hosts v))
    /\ connections lab = obj_connections o.
Proof.
  unfold patch_v1, bind, get.
  destruct (for_each (obj_benches o) patch_bench v0) as [[[]|?] v1] eqn:E1;
    [|done].
  destruct (for_each (obj_hosts o) patch_host v1) as [[[]|?] v2] eqn:E2;
    [|done].
  cbn [new_LabState instruments benches devices hosts].
  destruct (TypedList.extend (p_instruments v2) []) as [?|li] eqn:Ei;
    cbn [lift_exn]; unfold raise, ret; [done|].
  destruct (TypedList.extend (p_benches v2) []) as [?|lb] eqn:Eb;
    cbn [lift_exn]; unfold raise, ret; [done|].
  destruct (TypedList.extend (p_devices v2) []) as [?|ld] eqn:Ed;
    cbn [lift_exn]; unfold raise, ret; [done|].
  destruct (TypedList.extend (p_hosts v2) []) as [?|lh] eqn:Eh;
    cbn [lift_exn]; unfold raise, ret; [done|].
  intros [= <- <-]. exists v2. split; [done|].
  apply extend_inr in Ei as [-> Hi], Eb as [-> Hb], Ed as [-> Hd], Eh as [-> Hh].
  cbn [app] in *.
  split_and!; try done; auto using NoDup_nil_2.
Qed.

Lemma patch_labstate_inr o lab :
  patch_labstate 1 o = inr lab ->
  exists v v',
    patch_v1 o {| p_instruments := []; p_benches := []; p_devices := [];
                  p_hosts := [] |} = (Returned lab, v')
    /\ (for_each (obj_benches o) patch_bench ;;
        for_each (obj_hosts o) patch_host)
         {| p_instruments := []; p_benches := []; p_devices := [];
            p_hosts := [] |} = (Returned tt, v)
    /\ instruments lab = p_instruments v /\ NoDup (TypedList.keys (p_instruments v))
    /\ benches lab = p_benches v /\ NoDup (TypedList.keys (p_benches v))
    /\ devices lab = p_devices v /\ NoDup (TypedList.keys (p_devices v))
    /\ hosts lab = TypedList.setitem "cassander" (LocalHost "cassander") (p_hosts v)
    /\ NoDup (TypedList.keys (p_hosts v))
    /\ connections lab = obj_connections o.
Proof.
  unfold patch_labstate. rewrite bool_decide_eq_true_2 by done.
  case_bool_decide; [|done].
  destruct (patch_v1 o _) as [[lab'|e] v'] eqn:E; [|done].
  intros [= ->]. destruct (patch_v1_inr _ _ _ _ E) as (v & Hv).
  by exists v, v'.
Qed.

(** X23. The lab the version 1 patch returns has no two instruments, no two
    benches, no two devices and no two hosts of the same name, and the
    connections of the old lab. *)
Theorem patch_labstate_unique_names (old_lab : LabObject) (lab : LabState) :
  patch_labstate 1 old_lab = inr lab ->
  NoDup (TypedList.keys (instruments lab))
  /\ NoDup (TypedList.keys (benches lab))
  /\ NoDup (TypedList.keys (devices lab))
  /\ NoDup (TypedList.keys (hosts lab))
  /\ connections lab = obj_connections old_lab.
Proof.
  intros (v & v' & _ & _ & -> & Hi & -> & Hb & -> & Hd & -> & Hh & ->)
    %patch_labstate_inr.
  split_and!; try done.
  exact (setitem_NoDup (LocalHost "cassander") _ Hh).
Qed.

Section update_or_append.
Context {A : Type} `{Named A} `{EqDecision A}.

Lemma keys_setitem (x : A) (l : list A) :
  forall n, n ∈ TypedList.keys (TypedList.setitem (name x) x l)
            <-> n ∈ TypedList.keys l \/ n = name x.
Proof.
  intros n. unfold TypedList.setitem. case_bool_decide as Hin.
  - assert (TypedList.keys
              ((fun y => if bool_decide (name y = name x) then x else y) <$> l)
            = TypedList.keys l) as ->.
    { unfold TypedList.keys. rewrite <- list_fmap_compose.
      apply list_fmap_ext. intros _ y _. cbn. by case_bool_decide. }
    split; [by left|]. by intros [?| ->].
  - rewrite keys_app, elem_of_app. unfold TypedList.keys at 2. cbn.
    by rewrite list_elem_of_singleton.
Qed.

(** Upserting a list of items, each after some change [f] that keeps its
    name: the names there were are still there, and so is the name of
    every item of the list. *)
Lemma keys_upserts (f : A -> A) (xs : list A) : forall l,
  (forall x, name (f x) = name x) ->
  forall n,
    n ∈ TypedList.keys (foldl (fun l x => update_or_append (f x) l) l xs)
    <-> n ∈ TypedList.keys l \/ n ∈ TypedList.keys xs.
Proof.
  intros l Hf. revert l.
  induction xs as [|x xs IH]; intros l n; cbn [foldl].
  - unfold TypedList.keys at 3. cbn. rewrite elem_of_nil. tauto.
  - rewrite IH. unfold update_or_append. rewrite keys_setitem, Hf.
    unfold TypedList.keys at 4. cbn [fmap list_fmap]. rewrite elem_of_cons.
    fold (TypedList.keys xs). tauto.
Qed.
End update_or_append.

Lemma for_each_modify {S A} (g : A -> S -> S) (l : list A) : forall st,
  for_each l (fun x => modify (g x)) st
  = (Returned tt, foldl (fun st x => g x st) st l).
Proof.
  induction l as [|x l IH]; intros st; cbn [for_each foldl]; [done|].
  unfold bind. unfold modify at 1. apply IH.
Qed.

Lemma patch_bench_returned b v v' :
  patch_bench b v = (Returned tt, v') ->
  exists li ld,
    old_bench_instruments b = Some li /\ old_bench_devices b = Some ld
    /\ p_hosts v' = p_hosts v
    /\ p_benches v' = p_benches v ++ [new_bench_of b]
    /\ p_instruments v'
       = foldl (fun l i => update_or_append
                             (set_instr_bench (new_bench_of b) i) l)
               (p_instruments v) li
    /\ p_devices v'
       = foldl (fun l d => update_or_append
                             (set_dev_bench (new_bench_of b) d) l)
               (p_devices v) ld.
Proof.
  unfold patch_bench. fold (new_bench_of b).
  unfold bind at 1. unfold get at 1. unfold bind at 1.
  destruct (TypedList.append (new_bench_of b) (p_benches v)) as [?|lb] eqn:Eb;
    cbn [lift_exn]; [by unfold raise at 1|unfold ret at 1].
  apply append_inr in Eb as [-> _].
  unfold bind at 1. unfold put at 1. unfold bind at 1.
  destruct (old_bench_instruments b) as [li|]; cbn [dict_item];
    [unfold ret at 1|by unfold raise at 1].
  unfold bind at 1. rewrite for_each_modify. unfold bind at 1.
  destruct (old_bench_devices b) as [ld|]; cbn [dict_item];
    [unfold ret at 1|by unfold raise at 1].
  rewrite for_each_modify. intros [= <-]. exists li, ld.
  split; [done|]. split; [done|].
  (* the two folds touch one field each *)
  set (v1 := {| p_instruments := p_instruments v;
                p_benches := p_benches v ++ [new_bench_of b];
                p_devices := p_devices v; p_hosts := p_hosts v |}).
  assert (forall li v1,
    foldl (fun v i =>
             {| p_instruments :=
                  update_or_append (set_instr_bench (new_bench_of b) i)
                                   (p_instruments v);
                p_benches := p_benches v; p_devices := p_devices v;
                p_hosts := p_hosts v |}) v1 li
    = {| p_instruments :=
           foldl (fun l i => update_or_append
                               (set_instr_bench (new_bench_of b) i) l)
                 (p_instruments v1) li;
         p_benches := p_benches v1; p_devices := p_devices v1;
         p_hosts := p_hosts v1 |}) as Hli.
  { clear. induction li as [|i li IH]; intros v1; cbn [foldl];
      [by destruct v1|]. by rewrite IH. }
  assert (forall ld v1,
    foldl (fun v d =>
             {| p_instruments := p_instruments v; p_benches := p_benches v;
                p_devices :=
                  update_or_append (set_dev_bench (new_bench_of b) d)
                                   (p_devices v);
                p_hosts := p_hosts v |}) v1 ld
    = {| p_instruments := p_instruments v1; p_benches := p_benches v1;
         p_devices :=
           foldl (fun l d => update_or_append
                               (set_dev_bench (new_bench_of b) d) l)
                 (p_devices v1) ld;
         p_hosts := p_hosts v1 |}) as Hld.
  { clear. induction ld as [|d ld IH]; intros v1; cbn [foldl];
      [by destruct v1|]. by rewrite IH. }
  rewrite Hld, Hli. by cbn.
Qed.

Lemma patch_host_returned h v v' :
  patch_host h v = (Returned tt, v') ->
  exists li,
    old_host_instruments h = Some li
    /\ p_hosts v' = p_hosts v ++ [new_host_of h]
    /\ p_benches v' = p_benches v
    /\ p_devices v' = p_devices v
    /\ p_instruments v'
       = foldl (fun l i => update_or_append
                             (set_instr_host (new_host_of h) i) l)
               (p_instruments v) li.
Proof.
  unfold patch_host. fold (new_host_of h).
  unfold bind at 1. unfold get at 1. unfold bind at 1.
  destruct (TypedList.append (new_host_of h) (p_hosts v)) as [?|lh] eqn:Eh;
    cbn [lift_exn]; [by unfold raise at 1|unfold ret at 1].
  apply append_inr in Eh as [-> _].
  unfold bind at 1. unfold put at 1. unfold bind at 1.
  destruct (old_host_instruments h) as [li|]; cbn [dict_item];
    [unfold ret at 1|by unfold raise at 1].
  rewrite for_each_modify. intros [= <-]. exists li. split; [done|].
  assert (forall li v1,
    foldl (fun v i =>
             {| p_instruments :=
                  update_or_append (set_instr_host (new_host_of h) i)
                                   (p_instruments v);
                p_benches := p_benches v; p_devices := p_devices v;
                p_hosts := p_hosts v |}) v1 li
    = {| p_instruments :=
           foldl (fun l i => update_or_append
                               (set_instr_host (new_host_of h) i) l)
                 (p_instruments v1) li;
         p_benches := p_benches v1; p_devices := p_devices v1;
         p_hosts := p_hosts v1 |}) as Hli.
  { clear. induction li as [|i li IH]; intros v1; cbn [foldl];
      [by destruct v1|]. by rewrite IH. }
  rewrite Hli. by cbn.
Qed.

Lemma for_each_patch_bench bs : forall v v',
  for_each bs patch_bench v = (Returned tt, v') ->
  p_hosts v' = p_hosts v
  /\ p_benches v' = p_benches v ++ (new_bench_of <$> bs)
  /\ (forall n, n ∈ TypedList.keys (p_instruments v) ->
                n ∈ TypedList.keys (p_instruments v'))
  /\ (forall n, n ∈ TypedList.keys (p_devices v) ->
                n ∈ TypedList.keys (p_devices v'))
  /\ (forall b li i, b ∈ bs -> old_bench_instruments b = Some li -> i ∈ li ->
        instr_name i ∈ TypedList.keys (p_instruments v'))
  /\ (forall b ld d, b ∈ bs -> old_bench_devices b = Some ld -> d ∈ ld ->
        dev_name d ∈ TypedList.keys (p_devices v')).
Proof.
  induction bs as [|b bs IH]; intros v v'; cbn [for_each].
  - intros [= <-]. rewrite app_nil_r. split_and!; try done.
    + intros b li i Hb. by apply elem_of_nil in Hb.
    + intros b ld d Hb. by apply elem_of_nil in Hb.
  - unfold bind. destruct (patch_bench b v) as [[[]|?] v1] eqn:E1; [|done].
    apply patch_bench_returned in E1
      as (li & ld & Hli & Hld & Hh & Hb & Hi & Hd).
    intros (Hh' & Hb' & Hi' & Hd' & Hli' & Hld')%IH.
    assert (forall n, n ∈ TypedList.keys (p_instruments v1)
                      <-> n ∈ TypedList.keys (p_instruments v)
                          \/ n ∈ TypedList.keys li) as Hki.
    { intros n. rewrite Hi. by apply keys_upserts. }
    assert (forall n, n ∈ TypedList.keys (p_devices v1)
                      <-> n ∈ TypedList.keys (p_devices v)
                          \/ n ∈ TypedList.keys ld) as Hkd.
    { intros n. rewrite Hd. by apply keys_upserts. }
    split_and!.
    + congruence.
    + rewrite Hb', Hb, fmap_cons. by rewrite <- app_assoc.
    + intros n Hn. apply Hi', Hki. by left.
    + intros n Hn. apply Hd', Hkd. by left.
    + intros b' li' i [->|Hb'']%elem_of_cons Hli'' Hin; [|by eapply Hli'].
      apply Hi', Hki. right. rewrite Hli in Hli''. injection Hli'' as <-.
      unfold TypedList.keys. apply list_elem_of_fmap. by exists i.
    + intros b' ld' d [->|Hb'']%elem_of_cons Hld'' Hin; [|by eapply Hld'].
      apply Hd', Hkd. right. rewrite Hld in Hld''. injection Hld'' as <-.
      unfold TypedList.keys. apply list_elem_of_fmap. by exists d.
Qed.

Lemma for_each_patch_host hs : forall v v',
  for_each hs patch_host v = (Returned tt, v') ->
  p_hosts v' = p_hosts v ++ (new_host_of <$> hs)
  /\ p_benches v' = p_benches v
  /\ p_devices v' = p_devices v
  /\ (forall n, n ∈ TypedList.keys (p_instruments v) ->
                n ∈ TypedList.keys (p_instruments v'))
  /\ (forall h li i, h ∈ hs -> old_host_instruments h = Some li -> i ∈ li ->
        instr_name i ∈ TypedList.keys (p_instruments v')).
Proof.
  induction hs as [|h hs IH]; intros v v'; cbn [for_each].
  - intros [= <-]. rewrite app_nil_r. split_and!; try done.
    intros h li i Hh. by apply elem_of_nil in Hh.
  - unfold bind. destruct (patch_host h v) as [[[]|?] v1] eqn:E1; [|done].
    apply patch_host_returned in E1 as (li & Hli & Hh & Hb & Hd & Hi).
    intros (Hh' & Hb' & Hd' & Hi' & Hli')%IH.
    assert (forall n, n ∈ TypedList.keys (p_instruments v1)
                      <-> n ∈ TypedList.keys (p_instruments v)
                          \/ n ∈ TypedList.keys li) as Hki.
    { intros n. rewrite Hi. by apply keys_upserts. }
    split_and!.
    + rewrite Hh', Hh, fmap_cons. by rewrite <- app_assoc.
    + congruence.
    + congruence.
    + intros n Hn. apply Hi', Hki. by left.
    + intros h' li' i [->|Hh'']%elem_of_cons Hli'' Hin; [|by eapply Hli'].
      apply Hi', Hki. right. rewrite Hli in Hli''. injection Hli'' as <-.
      unfold TypedList.keys. apply list_elem_of_fmap. by exists i.
Qed.

(** X24. The version 1 patch loses nothing: the benches of the new lab are
    the old benches, by name and in order; its hosts are the old hosts,
    made anew as plain hosts, with the local host "cassander" put in (in
    the place of an old host of that name, or else at the end); and every
    instrument and device that sat under an old bench or an old host has
    its name among the instruments and devices of the new lab. *)
Theorem patch_labstate_keeps_names (old_lab : LabObject) (lab : LabState) :
  patch_labstate 1 old_lab = inr lab ->
  benches lab = new_bench_of <$> obj_benches old_lab
  /\ hosts lab
     = TypedList.setitem "cassander" (LocalHost "cassander")
         (new_host_of <$> obj_hosts old_lab)
  /\ (forall b li i,
        b ∈ obj_benches old_lab -> old_bench_instruments b = Some li ->
        i ∈ li -> instr_name i ∈ TypedList.keys (instruments lab))
  /\ (forall h li i,
        h ∈ obj_hosts old_lab -> old_host_instruments h = Some li ->
        i ∈ li -> instr_name i ∈ TypedList.keys (instruments lab))
  /\ (forall b ld d,
        b ∈ obj_benches old_lab -> old_bench_devices b = Some ld ->
        d ∈ ld -> dev_name d ∈ TypedList.keys (devices lab)).
Proof.
  intros (v & v' & _ & Hloops & -> & _ & -> & _ & -> & _ & -> & _ & _)
    %patch_labstate_inr.
  unfold bind in Hloops.
  destruct (for_each (obj_benches old_lab) patch_bench _)
    as [[[]|?] v1] eqn:E1; [|done].
  apply for_each_patch_bench in E1 as (Hh1 & Hb1 & _ & _ & Hi1 & Hd1).
  apply for_each_patch_host in Hloops as (Hh2 & Hb2 & Hd2 & Hi2 & Hli2).
  cbn in Hh1, Hb1. rewrite Hh1 in Hh2. cbn in Hh2.
  split_and!.
  - congruence.
  - congruence.
  - intros b li i Hb Hli Hi. apply Hi2. by eapply Hi1.
  - done.
  - rewrite Hd2. done.
Qed.

Lemma local_hosts_new_hosts hs : local_hosts (new_host_of <$> hs) = [].
Proof. apply filter_none. intros h (x & -> & _)%list_elem_of_fmap. by cbn. Qed.

(** X25. Whatever the old hosts were, the lab the version 1 patch returns
    has exactly one local host, and it is "cassander". *)
Theorem patch_labstate_local_host (old_lab : LabObject) (lab : LabState) :
  patch_labstate 1 old_lab = inr lab ->
  local_hosts (hosts lab) = [LocalHost "cassander"].
Proof.
  intros Hpatch.
  pose proof Hpatch
    as (v & v' & _ & Hloops & _ & _ & _ & _ & _ & _ & Hhosts & Hnd & _)
    %patch_labstate_inr.
  unfold bind in Hloops.
  destruct (for_each (obj_benches old_lab) patch_bench _)
    as [[[]|?] v1] eqn:E1; [|done].
  apply for_each_patch_bench in E1 as (Hh1 & _).
  apply for_each_patch_host in Hloops as (Hh2 & _).
  rewrite Hh1 in Hh2. cbn in Hh2. rewrite Hh2 in *. rewrite Hhosts.
  destruct (decide ("cassander" ∈ TypedList.keys
                      (new_host_of <$> obj_hosts old_lab))) as [Hin|Hin].
  - destruct (setitem_replace "cassander" (LocalHost "cassander") _ Hnd Hin)
      as (l1 & y & l2 & Heq & _ & _ & _ & ->).
    pose proof (local_hosts_new_hosts (obj_hosts old_lab)) as Hnone.
    rewrite Heq, local_hosts_app, local_hosts_cons in Hnone.
    apply app_eq_nil in Hnone as [H1 H2].
    rewrite local_hosts_app, local_hosts_cons, H1. cbn.
    destruct (host_local y); [done|]. by rewrite H2.
  - rewrite setitem_fresh by done.
    by rewrite local_hosts_app, local_hosts_new_hosts.
Qed.


(** * Properties of the lazily loaded lab *)

Section lazy_loading_properties.
Context `{Libs}.

Lemma __init___initializing ss r ss' :
  __init__ ss = (r, ss') -> initializing ss' = initializing ss.
Proof.
  unfold __init__. unfold bind at 1. unfold get at 1.
  destruct (loadState _ _ _) as [[loaded|e] w].
  - by intros [= _ <-].
  - destruct e; try by intros [= _ <-].
Qed.

Lemma getattribute_lab ss :
  __getattribute__ "lab" ss
  = (if initializing ss
     then (__init__ ;;
           ss <- get ;;
           match module ss !! "lab" with
           | Some v => ret v
           | None => raise AttributeError
           end)
            {| initializing := false; module := module ss;
               session_world := session_world ss |}
     else match module ss !! "lab" with
          | Some v => (Returned v, ss)
          | None => (Raised AttributeError, ss)
          end).
Proof.
  unfold __getattribute__. rewrite bool_decide_eq_false_2.
  2:{ rewrite !elem_of_cons, elem_of_nil. by intros [?|[?|?]]. }
  unfold bind at 1. unfold get at 1.
  rewrite (bool_decide_eq_true_2 ("lab" = "lab")) by done.
  rewrite andb_true_r. destruct (initializing ss); cbn [when].
  - unfold bind at 1. unfold bind at 1. unfold put at 1.
    unfold bind at 3. reflexivity.
  - unfold bind, ret, get. by destruct (module ss !! "lab").
Qed.

(** X26. The first read of [lab] never fails for want of a file: when the
    default file is missing, or does not decode, the read returns a new
    empty lab, logs two errors (the second saying that a fresh lab was
    started) and writes no file. *)
Theorem lab_first_read_starts_fresh (w : World) :
  files w !! _filename = None
  \/ (exists text, files w !! _filename = Some text /\ json_decode text = None) ->
  exists ss' cause,
    __getattribute__ "lab" (new_Session w)
    = (Returned (PyLab (CurrentLab (new_LabState None))), ss')
    /\ initializing ss' = false
    /\ module ss' !! "lab" = Some (PyLab (CurrentLab (new_LabState None)))
    /\ files (session_world ss') = files w
    /\ logs (session_world ss')
       = logs w ++ [{| log_level := ERROR; log_msg := cause |};
                    fresh_lab_record].
Proof.
  intros Hcase. rewrite getattribute_lab. cbn [initializing new_Session module session_world].
  unfold bind at 1. unfold __init__. unfold bind at 1. unfold get at 1.
  cbn [session_world].
  destruct Hcase as [Hnone|(text & Hf & Hd)].
  - rewrite (loadState_not_found _ _ _ Hnone).
    eexists _, _. split; [reflexivity|]. cbn.
    rewrite lookup_insert_eq. split_and!; try done.
    by rewrite <- app_assoc.
  - assert (loadState (Some _filename) true w = (Raised JSONDecodeError, w))
      as ->.
    { unfold loadState, read_file, bind, get.
      cbn [default from_option id]. rewrite Hf. unfold ret at 1. by rewrite Hd. }
    eexists _, _. split; [reflexivity|]. cbn.
    rewrite lookup_insert_eq. split_and!; try done.
    by rewrite <- app_assoc.
Qed.

(** X27. The lab is loaded at most once: after a read of [lab] that
    returned, every further read returns the same value and changes
    nothing, neither the log nor the files. *)
Theorem lab_read_again (ss ss' : Session) (v : PyValue) :
  __getattribute__ "lab" ss = (Returned v, ss') ->
  __getattribute__ "lab" ss' = (Returned v, ss').
Proof.
  rewrite !getattribute_lab.
  destruct (initializing ss) eqn:Hi.
  - unfold bind at 1.
    destruct (__init__ _) as [[[]|e] ss1] eqn:E; [|done].
    apply __init___initializing in E. cbn in E.
    unfold bind, get.
    destruct (module ss1 !! "lab") as [v'|] eqn:Hlab; [|done].
    intros [= <- <-]. by rewrite E, Hlab.
  - destruct (module ss !! "lab") as [v'|] eqn:Hlab; [|done].
    intros [= <- <-]. by rewrite Hi, Hlab.
Qed.

(** X28. A first read of [lab] that fails is not tried again: when loading
    the default file raises an exception that [__init__] does not catch
    (a digest that does not match, a missing field, a newer version), the
    first read raises it, and every later read returns what the module
    variable held before, [None] after an import, without loading. *)
Theorem lab_read_after_failure (ss : Session) (v0 : PyValue) (e : exn)
    (w1 : World) :
  initializing ss = true ->
  module ss !! "lab" = Some v0 ->
  loadState (Some _filename) true (session_world ss) = (Raised e, w1) ->
  ~ caught_by_init e ->
  exists ss1,
    __getattribute__ "lab" ss = (Raised e, ss1)
    /\ session_world ss1 = w1
    /\ __getattribute__ "lab" ss1 = (Returned v0, ss1).
Proof.
  intros Hi Hlab Hload He. rewrite getattribute_lab, Hi.
  unfold bind at 1. unfold __init__. unfold bind at 1. unfold get at 1.
  cbn [session_world]. rewrite Hload.
  eexists. split.
  - destruct e; try reflexivity; by destruct He.
  - cbn. split; [done|]. rewrite getattribute_lab. cbn. by rewrite Hlab.
Qed.

End lazy_loading_properties.


(** * Properties of the electrical source *)

Module ElectricalSourceFacts.
Import ElectricalSource.

Section facts.
Context {V : Type} (zero : V).
Implicit Types (d items : list (Z * V)) (k ch : Z) (v : V).

Lemma dict_get_set ch k v d :
  dict_get ch (dict_set k v d)
  = if bool_decide (k = ch) then Some v else dict_get ch d.
Proof.
  induction d as [|[k' v'] d IH]; cbn [dict_set dict_get].
  - by case_bool_decide.
  - destruct (decide (k' = k)) as [->|Hk].
    + rewrite (bool_decide_eq_true_2 (k = k)) by done. cbn [dict_get].
      by case_bool_decide.
    + rewrite (bool_decide_eq_false_2 (k' = k)) by done. cbn [dict_get].
      rewrite IH. repeat case_bool_decide; congruence.
Qed.

Lemma dict_keys_set k v d :
  dict_keys (dict_set k v d)
  = if bool_decide (k ∈ dict_keys d) then dict_keys d else dict_keys d ++ [k].
Proof.
  unfold dict_keys. induction d as [|[k' v'] d IH]; cbn [dict_set fmap list_fmap].
  - rewrite bool_decide_eq_false_2 by apply not_elem_of_nil. done.
  - destruct (decide (k' = k)) as [->|Hk].
    + rewrite (bool_decide_eq_true_2 (k = k)) by done.
      rewrite bool_decide_eq_true_2 by (by left). done.
    + rewrite (bool_decide_eq_false_2 (k' = k)) by done.
      cbn [fmap list_fmap fst]. rewrite IH.
      destruct (decide (k ∈ d.*1)) as [Hin|Hin].
      * rewrite !bool_decide_eq_true_2; [done|by right|done].
      * rewrite !bool_decide_eq_false_2; [done| |done].
        rewrite not_elem_of_cons. by split.
Qed.

Lemma dict_update_snoc items kv d :
  dict_update (items ++ [kv]) d = dict_set kv.1 kv.2 (dict_update items d).
Proof. unfold dict_update. by rewrite foldl_app. Qed.

(** Updating a dict whose keys are all there changes no key. *)
Lemma dict_keys_update items : forall d,
  (forall k, k ∈ dict_keys items -> k ∈ dict_keys d) ->
  dict_keys (dict_update items d) = dict_keys d.
Proof.
  induction items as [|[k v] items IH]; intros d Hin; [done|].
  change (dict_update ((k, v) :: items) d)
    with (dict_update items (dict_set k v d)).
  assert (dict_keys (dict_set k v d) = dict_keys d) as Hset.
  { rewrite dict_keys_set, bool_decide_eq_true_2; [done|]. apply Hin. by left. }
  rewrite IH, Hset; [done|]. intros k' Hk'. rewrite Hset. apply Hin. by right.
Qed.

(** What a dict holds after an update: the value the items give the key,
    or else the one it held. *)
Lemma dict_get_update ch items : forall d,
  dict_get ch (dict_update items d)
  = match dict_get ch (dict_of items) with
    | Some v => Some v
    | None => dict_get ch d
    end.
Proof.
  unfold dict_of.
  induction items as [|[k v] items IH] using rev_ind; intros d; [done|].
  rewrite !dict_update_snoc, !dict_get_set. cbn [fst snd].
  case_bool_decide; [done|]. apply IH.
Qed.

Lemma dict_get_zeros ch (l : list Z) :
  dict_get ch (dict_of ((fun c => (c, zero)) <$> l))
  = if bool_decide (ch ∈ l) then Some zero else None.
Proof.
  unfold dict_of. induction l as [|c l IH] using rev_ind.
  - cbn. by rewrite bool_decide_eq_false_2 by apply not_elem_of_nil.
  - rewrite fmap_app. cbn [fmap list_fmap]. rewrite dict_update_snoc.
    rewrite dict_get_set. cbn [fst snd]. rewrite IH.
    destruct (decide (c = ch)) as [->|Hc].
    + rewrite bool_decide_eq_true_2 by done.
      rewrite bool_decide_eq_true_2; [done|]. apply elem_of_app. right. by left.
    + rewrite (bool_decide_eq_false_2 (c = ch)) by done.
      apply (f_equal (fun b : bool => if b then Some zero else None)).
      apply bool_decide_ext. rewrite elem_of_app, list_elem_of_singleton.
      split; [by left|]. by intros [?|?].
Qed.

Lemma elem_of_dict_keys_update ch items : forall d,
  ch ∈ dict_keys (dict_update items d)
  <-> ch ∈ dict_keys d \/ ch ∈ dict_keys items.
Proof.
  induction items as [|[k v] items IH]; intros d.
  - change (dict_keys []) with (@nil Z). change (dict_update [] d) with d.
    rewrite elem_of_nil. tauto.
  - change (dict_update ((k, v) :: items) d)
      with (dict_update items (dict_set k v d)).
    change (dict_keys ((k, v) :: items)) with (k :: dict_keys items).
    rewrite IH, dict_keys_set, elem_of_cons.
    case_bool_decide as Hk.
    + split; [tauto|]. intros [?|[->|?]]; tauto.
    + rewrite elem_of_app, list_elem_of_singleton. tauto.
Qed.

(** In a dict, an item is what [get] finds at its key. *)
Lemma dict_get_elem_of k v d :
  NoDup (dict_keys d) -> (k, v) ∈ d -> dict_get k d = Some v.
Proof.
  unfold dict_keys. induction d as [|[k' v'] d IH]; [by intros _ ?%elem_of_nil|].
  cbn [fmap list_fmap fst dict_get]. intros [Hk' Hnd]%NoDup_cons Hin.
  apply elem_of_cons in Hin as [[= -> ->]|Hin].
  - by rewrite bool_decide_eq_true_2.
  - rewrite bool_decide_eq_false_2; [by apply IH|].
    intros ->. apply Hk'. apply list_elem_of_fmap. by exists (k, v).
Qed.

Lemma dict_set_fresh k v d :
  k ∉ dict_keys d -> dict_set k v d = d ++ [(k, v)].
Proof.
  unfold dict_keys. induction d as [|[k' v'] d IH]; [done|].
  cbn [fmap list_fmap fst dict_set]. rewrite not_elem_of_cons. intros [Hk Hd].
  rewrite bool_decide_eq_false_2 by done. cbn. by rewrite IH.
Qed.

Lemma NoDup_dict_update items : forall d,
  NoDup (dict_keys d) -> NoDup (dict_keys (dict_update items d)).
Proof.
  induction items as [|[k v] items IH]; intros d Hd; [done|].
  change (dict_update ((k, v) :: items) d)
    with (dict_update items (dict_set k v d)).
  apply IH. rewrite dict_keys_set. case_bool_decide as Hk; [done|].
  apply NoDup_app. split_and!; [done| |apply NoDup_singleton].
  intros k' Hk' ->%list_elem_of_singleton. done.
Qed.

(** The dict made of the items of a dict is that dict. *)
Lemma dict_update_fresh d : forall acc,
  NoDup (dict_keys (acc ++ d)) -> dict_update d acc = acc ++ d.
Proof.
  induction d as [|[k v] d IH]; intros acc Hnd.
  - by rewrite app_nil_r.
  - change (dict_update ((k, v) :: d) acc)
      with (dict_update d (dict_set k v acc)).
    rewrite dict_set_fresh.
    + rewrite IH; rewrite <- app_assoc; done.
    + unfold dict_keys in *. rewrite fmap_app in Hnd.
      apply NoDup_app in Hnd as (_ & Hnd & _). intros Hk.
      apply (Hnd k Hk). by left.
Qed.

Lemma dict_of_id d : NoDup (dict_keys d) -> dict_of d = d.
Proof. intros Hnd. by apply (dict_update_fresh d []). Qed.

Lemma find_notin_None (keys chans : list Z) :
  List.find (fun chan => bool_decide (chan ∉ chans)) keys = None
  <-> forall chan, chan ∈ keys -> chan ∈ chans.
Proof.
  induction keys as [|k keys IH]; cbn [List.find].
  - split; [|done]. by intros _ chan ?%elem_of_nil.
  - case_bool_decide as Hk.
    + split; [done|]. intros Hall. destruct Hk. apply Hall. by left.
    + rewrite IH. split.
      * intros Hall chan [->|?]%elem_of_cons; [done|by apply Hall].
      * intros Hall chan ?. apply Hall. by right.
Qed.

(** X29. [setChannelTuning] with a dict succeeds exactly when every
    channel it names was blocked out.  It then leaves the channels as
    they were, in their order, and gives each channel the value the dict
    names for it, or else the value it had; when a channel was not
    blocked out it raises [ChannelError] and changes nothing. *)
Theorem setChannelTuning_spec (items : list (Z * V)) (self : Source) :
  ((forall chan, chan ∈ dict_keys items -> chan ∈ getChannels self) ->
   exists self',
     setChannelTuning (ArgDict items) self = (Ok tt, self')
     /\ getChannels self' = getChannels self
     /\ forall ch,
          dict_get ch (getChannelTuning self')
          = match dict_get ch (dict_of items) with
            | Some v => Some v
            | None => dict_get ch (getChannelTuning self)
            end)
  /\ (forall chan, chan ∈ dict_keys items -> chan ∉ getChannels self ->
      exists msg,
        setChannelTuning (ArgDict items) self = (Raise (ChannelError msg), self)).
Proof.
  unfold setChannelTuning, getChannels, getChannelTuning. split.
  - intros Hall. rewrite (proj2 (find_notin_None _ _) Hall).
    eexists. split; [reflexivity|]. cbn [stateDict]. split.
    + by apply dict_keys_update.
    + intros ch. apply dict_get_update.
  - intros chan Hin Hout.
    destruct (List.find _ (dict_keys items)) as [c|] eqn:E; [by eexists|].
    destruct Hout. by apply (proj1 (find_notin_None _ _) E).
Qed.

Lemma off_items_keys d :
  forall chan,
    chan ∈ dict_keys (dict_of ((fun ch => (ch, zero)) <$> dict_keys d))
    -> chan ∈ dict_keys d.
Proof.
  intros chan. unfold dict_of. rewrite elem_of_dict_keys_update.
  intros [?%elem_of_nil|Hin]; [done|].
  unfold dict_keys at 1 in Hin. by rewrite <- list_fmap_compose, list_fmap_id in Hin.
Qed.

(** X30. [off] never fails on a source whose dict is a dict (no channel
    twice): it returns, the channels are as they were, and every channel
    holds [0]. *)
Theorem off_zeroes (self : Source) :
  NoDup (getChannels self) ->
  exists self',
    off zero self = (Ok tt, self')
    /\ getChannels self' = getChannels self
    /\ Forall (fun kv => kv.2 = zero) (getChannelTuning self').
Proof.
  intros Hnd. unfold off, setChannelTuning, getChannels, getChannelTuning in *.
  rewrite (proj2 (find_notin_None _ _) (off_items_keys (stateDict self))).
  eexists. split; [reflexivity|]. cbn [stateDict].
  assert (dict_keys (dict_update
            (dict_of ((fun ch => (ch, zero)) <$> dict_keys (stateDict self)))
            (stateDict self)) = dict_keys (stateDict self)) as Hkeys
    by apply dict_keys_update, off_items_keys.
  split; [done|]. apply Forall_forall. intros [k v] Hin. cbn [snd].
  assert (k ∈ dict_keys (stateDict self)) as Hk.
  { rewrite <- Hkeys. unfold dict_keys. apply list_elem_of_fmap. by exists (k, v). }
  apply dict_get_elem_of in Hin; [|by rewrite Hkeys].
  rewrite dict_get_update in Hin.
  rewrite dict_of_id in Hin by (apply NoDup_dict_update, NoDup_nil_2).
  rewrite dict_get_zeros, bool_decide_eq_true_2 in Hin by done.
  by injection Hin as <-.
Qed.

End facts.
End ElectricalSourceFacts.

(** * SHA-256 on the standard test vectors *)

Example sha256_empty :
  SHA256.hexdigest ""
  = "e3b0c44298fc1c149afbf4c8996fb92427ae41e4649b934ca495991b7852b855".
Proof. vm_compute. reflexivity. Qed.

Example sha256_abc :
  SHA256.hexdigest "abc"
  = "ba7816bf8f01cfea414140de5dae2223b00361a396177a9cb410ff61f20015ad".
Proof. vm_compute. reflexivity. Qed.

Example sha256_two_blocks :
  SHA256.hexdigest "abcdbcdecdefdefgefghfghighijhijkijkljklmklmnlmnomnopnopq"
  = "248d6a61d20638b8e5c026930c3e6039a33ce45964ff2167f6ecedd419db06c1".
Proof. vm_compute. reflexivity. Qed.

(** * The reference pickler round-trips every lab *)

Module ReferenceFacts.
Import Reference.














(** Whatever the lab, the pickler writes none of the metadata keys, and
    the unpickler gives back a lab with the same collections. *)
Lemma flatten_lab_metadata_free s :
  metadata_free (flatten (Libs:=libs) s).
Proof. repeat split. Qed.


End ReferenceFacts.

(** * Concrete runs *)

Import Sample Scenario.

(** Closes [l = r] by evaluating both sides. *)
Ltac by_vm := vm_compute; exact eq_refl.

(** C10 on a lab that holds "Keithley2": inserting another instrument of
    that name. *)
Lemma insertInstrument_duplicate_name_run :
  exists msg,
    insertInstrument keithley_moved (with_instruments [keithley])
    = (Raised (RuntimeError msg), with_instruments [keithley]).
Proof.
  apply insertInstrument_duplicate_name. vm_compute. by left.
Defined.

(** C8 on a lab whose local host is "andromeda": upserting the local
    host "cassander". *)
Lemma updateHost_rejects_second_localhost_run :
  exists extra local_name,
    updateHost [cassander] (with_hosts [andromeda])
    = (Returned tt, add_logs extra (with_hosts [andromeda]))
    /\ Forall (fun r => log_level r = WARNING) extra
    /\ {| log_level := WARNING;
          log_msg := "Localhost is already present: " +:+ local_name +:+
                     newline +:+
                     "Not updating host " +:+ host_name cassander +:+ "!" |}
       ∈ extra.
Proof.
  apply updateHost_rejects_second_localhost.
  - reflexivity.
  - exists andromeda. split; [by left|reflexivity].
  - intros h Hh _. apply list_elem_of_singleton in Hh. by subst h.
Defined.

(** C6 on the empty lab: a connection to "port9" of the ring, which has
    no such port. *)
Lemma updateConnections_invalid_port_run :
  exists msg,
    updateConnections [conn_bad] st0
    = (Raised (RuntimeError msg),
       add_logs [{| log_level := ERROR; log_msg := msg |}] st0).
Proof.
  apply updateConnections_invalid_port.
  exists conn_bad, (EDevice ring), "port9". split_and!.
  - by left.
  - right. by left.
  - vm_compute. by intros Hin%list_elem_of_singleton.
Defined.

(** C7, the failing input: one batch with two connections on
    [(Keithley2, port1)].  The call succeeds and both end up in
    [self.connections], so the pair is in two connections; the same two
    connections given in two calls leave only the second. *)
Example updateConnections_shared_port_in_batch :
  (updateConnections [conn_ring; conn_mzi] st0).1 = Returned true
  /\ connections (self (run (updateConnections [conn_ring; conn_mzi]) st0))
     = [conn_ring; conn_mzi]
  /\ ~ one_per_port
         (connections (self (run (updateConnections [conn_ring; conn_mzi])
                                 st0)))
  /\ connections (self (run (updateConnections [conn_ring] ;;
                             updateConnections [conn_mzi]) st0))
     = [conn_mzi].
Proof.
  split_and!; [done|done| |done].
  intros Hinv. specialize (Hinv (EInstrument keithley, "port1")).
  vm_compute in Hinv. lia.
Qed.

(** C9 on a lab with "Keithley2" and "OSA": deleting "OSA" leaves
    "Keithley2"; deleting a name that is not there, or one that two
    instruments carry, fails the assertion. *)
Example deleteInstrumentFromName_runs :
  deleteInstrumentFromName "OSA" (with_instruments [keithley; osa])
  = (Returned tt, with_instruments [keithley])
  /\ deleteInstrumentFromName "Agilent" (with_instruments [keithley; osa])
     = (Raised AssertionError, with_instruments [keithley; osa])
  /\ deleteInstrumentFromName "Keithley2"
       (with_instruments [keithley; keithley_moved])
     = (Raised AssertionError, with_instruments [keithley; keithley_moved]).
Proof. by split_and!. Qed.

(** The version 1 patch on a lab of the version 1 shape: the instrument
    and the device move to the top-level collections, the host is made
    anew, and "cassander" is added as the local host. *)
Example patch_labstate_v1_run :
  patch_labstate 1 old_lab
  = inr {| hosts := [plain_andromeda; LocalHost "cassander"];
           benches := [bench1];
           connections := [conn_ring];
           devices := [set_dev_bench bench1 ring];
           instruments := [old_keithley];
           meta := meta (new_LabState None) |}.
Proof. reflexivity. Qed.

(** C2 on "lab.json" with its instruments emptied by hand. *)
Lemma loadState_integrity_run :
  loadState (H:=Reference.libs) (Some "lab.json") true tampered_world
  = (Raised (corrupted
               (JStr (content_digest (H:=Reference.libs) (self lab_st)))
               (hash_sha256 (H:=Reference.libs)
                  (Reference.encode (stripped tampered_doc)))),
     tampered_world).
Proof.
  apply (loadState_integrity (H:=Reference.libs) tampered_world "lab.json"
           (Reference.encode tampered_doc) tampered_doc
           (JStr "operator") (JStr "2018-03-25T18:30:55")
           (JStr (content_digest (H:=Reference.libs) (self lab_st)))).
  - reflexivity.
  - by_vm.
  - by_vm.
  - by_vm.
  - by_vm.
  - vm_compute. discriminate.
Defined.

(** C2, the counterexample: in "lab.json" as the save wrote it, the
    space after ["instruments":] is changed into a tab.  The file has
    changed in one byte outside the metadata fields, and the verifying
    load still succeeds, with the lab that was saved. *)
Lemma loadState_accepts_whitespace_flip :
  files (world saved_st) !! "lab.json" = Some lab_text
  /\ String.substring (flip_pos - 14) 15 lab_text
     = Reference.quote +:+ "instruments" +:+ Reference.quote +:+ ": "
  /\ flipped_text = set_char flip_pos "009"%char lab_text
  /\ flipped_text ≠ lab_text
  /\ loadState (H:=Reference.libs) (Some "lab.json") true flipped_world
     = (Returned (CurrentLab flipped_loaded), flipped_world)
  /\ same_contents flipped_loaded (self lab_st).
Proof.
  split_and!; [by_vm|by_vm|reflexivity| |by_vm|].
  - apply (bool_decide_eq_false_1 _). by_vm.
  - apply (bool_decide_eq_true_1 _). by_vm.
Qed.

(** C3, the counterexample: the verifying load of "old.json", a
    well-stamped document of schema version 0, does not fail; it returns
    a lab whose version is 0, not 2. *)
Lemma loadState_returns_version_0 :
  (loadState (H:=Reference.libs) (Some "old.json") true v0_saved).1
  = Returned v0_loaded
  /\ __version__ (obj_meta v0_loaded) = 0.
Proof. split; by_vm. Qed.

(** C3 as the code has it, on "old.json". *)
Lemma loadState_older_version_run :
  exists o w',
    loadState (H:=Reference.libs) (Some "old.json") true v0_saved
    = (Returned o, w')
    /\ __version__ (obj_meta o) = 0
    /\ {| log_level := ERROR; log_msg := "Patch not found" |} ∈ logs w'
    /\ files w' = files v0_saved.
Proof.
  destruct (loadState_older_version (H:=Reference.libs) v0_saved "old.json"
              old_text old_doc (JStr "operator") (JStr "2018-03-25T18:30:55")
              (JStr (content_digest (H:=Reference.libs) (self v0_st))) 0 true)
    as [Hmissing _].
  - by_vm.
  - by_vm.
  - by_vm.
  - by_vm.
  - by_vm.
  - by_vm.
  - by_vm.
  - reflexivity.
  - destruct (Hmissing ltac:(done)
                (CurrentLab (set_meta (meta (new_LabState None)) (self lab_st))))
      as (w' & Hload & Hv & Hlog & Hfiles).
    + by_vm.
    + eexists _, w'. split_and!; [exact Hload|exact Hv|exact Hlog|exact Hfiles].
Defined.

(** C1, the counterexample: "lab.json" holds another lab than the one in
    memory and carries another digest than the one recorded in memory,
    and [saveState] raises nothing: it returns [None]. *)
Lemma saveState_conflict_returns_normally :
  loadState (H:=Reference.libs) (Some "lab.json") true (world other_st)
    = (Returned loaded_lab, loaded_world)
  /\ lab_eqb loaded_lab (self other_st) = false
  /\ bool_decide (__sha256__ (obj_meta loaded_lab)
                  = recorded_digest (H:=Reference.libs) (self other_st))
     = false
  /\ (saveState (H:=Reference.libs) (Some "lab.json") true other_st).1
     = Returned tt.
Proof. split_and!; by_vm. Qed.

(** C1 as the code has it, on the same lab and file. *)
Lemma saveState_conflict_run :
  exists w',
    saveState (H:=Reference.libs) (Some "lab.json") true other_st
    = (Returned tt,
       {| self := cached (H:=Reference.libs) (self other_st); world := w' |})
    /\ files w' = files (world other_st)
    /\ last (logs w') = Some (conflict_record "lab.json")
    /\ same_contents (cached (H:=Reference.libs) (self other_st))
                     (self other_st).
Proof.
  apply (saveState_conflict (H:=Reference.libs) other_st "lab.json" true
           loaded_lab loaded_world).
  - by_vm.
  - by_vm.
  - apply (bool_decide_eq_false_1 _). by_vm.
Defined.






(** ** Runs of the further properties *)

(** On the empty lab, the two local hosts "andromeda" and "cassander" in
    one batch: both are upserted, and the call warns that no local host
    is present. *)
Lemma updateHost_without_localhost_run :
  exists extra,
    updateHost [andromeda; cassander] st0
    = (Returned tt,
       add_logs (extra ++ [{| log_level := WARNING;
                              log_msg := "Localhost not yet present" |}])
         (put_hosts (upsert_hosts [andromeda; cassander] (hosts (self st0)))
                    st0))
    /\ Forall (fun r => log_level r = INFO) extra.
Proof. apply updateHost_without_localhost. reflexivity. Defined.

(** On a lab whose local host is "andromeda": upserting the plain host
    "andromeda". *)
Lemma updateHost_keeps_one_localhost_run :
  exists extra l',
    updateHost [plain_andromeda] local_st
    = (Returned tt, add_logs extra (put_hosts l' local_st))
    /\ NoDup (TypedList.keys l')
    /\ (length (local_hosts l') <= 1)%nat.
Proof.
  apply updateHost_keeps_one_localhost.
  - apply NoDup_singleton.
  - vm_compute. lia.
Defined.

(** Inserting "Keithley2" in the empty lab registers "bench1" and
    "andromeda". *)
Lemma insertInstrument_registers_run :
  instruments (self keithley_st) = instruments (self st0) ++ [keithley]
  /\ (forall b, instr_bench keithley = Some b -> (b ∈ benches (self keithley_st)))
  /\ (forall h, instr_host keithley = Some h -> (h ∈ hosts (self keithley_st)))
  /\ (exists new_benches new_hosts,
        benches (self keithley_st) = benches (self st0) ++ new_benches
        /\ hosts (self keithley_st) = hosts (self st0) ++ new_hosts)
  /\ devices (self keithley_st) = devices (self st0)
  /\ connections (self keithley_st) = connections (self st0)
  /\ files (world keithley_st) = files (world st0).
Proof. apply insertInstrument_registers. reflexivity. Defined.

(** On a lab whose local host is "andromeda": inserting an instrument
    whose host is the plain host "andromeda". *)
Lemma insertInstrument_host_clash_run :
  exists msg st',
    insertInstrument old_keithley local_st = (Raised (RuntimeError msg), st')
    /\ instruments (self st') = instruments (self local_st) ++ [old_keithley]
    /\ hosts (self st') = hosts (self local_st).
Proof.
  apply (insertInstrument_host_clash old_keithley plain_andromeda).
  - apply not_elem_of_nil.
  - reflexivity.
  - intros Hin%list_elem_of_singleton. discriminate.
  - by left.
Defined.

(** Inserting "Keithley2" in the empty lab, then deleting it. *)
Lemma insertInstrument_then_delete_run :
  deleteInstrumentFromName (instr_name keithley) keithley_st
  = (Returned tt, put_instruments (instruments (self st0)) keithley_st).
Proof. apply insertInstrument_then_delete. reflexivity. Defined.

(** The connection of "Keithley2" to the ring, on the first lab (which
    holds it already). *)
Lemma updateConnections_one_connection_run :
  exists extra,
    updateConnections [conn_mzi] lab_st
    = (Returned true,
       add_logs extra
         (with_connections
            (remove_conflicting conn_mzi (connections (self lab_st))
             ++ [conn_mzi]) lab_st))
    /\ one_per_port (remove_conflicting conn_mzi (connections (self lab_st))
                     ++ [conn_mzi]).
Proof.
  apply updateConnections_one_connection.
  - discriminate.
  - reflexivity.
  - intros kv. change (connections (self lab_st)) with [conn_ring].
    rewrite filter_cons, filter_nil. case_decide; cbn; lia.
Defined.

Lemma updateConnections_again_run :
  exists st1 st2,
    updateConnections [conn_ring] st0 = (Returned true, st1)
    /\ updateConnections [conn_ring] st1 = (Returned true, st2)
    /\ connections (self st1)
       = remove_conflicting conn_ring (connections (self st0)) ++ [conn_ring]
    /\ connections (self st2) = connections (self st1).
Proof. apply updateConnections_again; [discriminate|reflexivity]. Defined.

(** The two connections of "Keithley2" in one batch, on the first lab. *)
Lemma updateConnections_outcome_run :
  exists extra l',
    updateConnections [conn_mzi] lab_st
    = (Returned true, add_logs extra (with_connections l' lab_st))
    /\ (forall c, c ∈ [conn_mzi] -> connection_in c l' = true)
    /\ (forall x, x ∈ connections (self lab_st) ->
          (forall c kv, c ∈ [conn_mzi] -> kv ∈ c -> kv ∉ x) -> x ∈ l')
    /\ (forall x, x ∈ l' ->
          x ∈ [conn_mzi]
          \/ (x ∈ connections (self lab_st)
              /\ forall c kv, c ∈ [conn_mzi] -> kv ∈ c -> kv ∉ x)).
Proof.
  apply updateConnections_outcome.
  intros c k v ->%list_elem_of_singleton Hkv.
  apply elem_of_cons in Hkv as [[= -> ->]|Hkv]; [by left|].
  apply list_elem_of_singleton in Hkv as [= -> ->]. by left.
Defined.

(** "lab.json" without its ["__user__"] does not load, validated or
    not. *)
Lemma loadState_missing_field_run :
  loadState (H:=Reference.libs) (Some "lab.json") true nouser_world
  = (Raised (KeyError "__user__"), nouser_world)
  /\ loadState (H:=Reference.libs) (Some "lab.json") false nouser_world
     = (Raised (KeyError "__user__"), nouser_world).
Proof.
  split.
  - apply (loadState_missing_field (H:=Reference.libs) nouser_world "lab.json"
             (Reference.encode nouser_doc) nouser_doc true); by_vm.
  - apply (loadState_missing_field (H:=Reference.libs) nouser_world "lab.json"
             (Reference.encode nouser_doc) nouser_doc false); by_vm.
Defined.

(** "new.json", a well-stamped document of version 3, is refused. *)
Lemma loadState_newer_version_run :
  loadState (H:=Reference.libs) (Some "new.json") true v3_saved
  = (Raised newer_version_error, v3_saved).
Proof.
  apply (loadState_newer_version (H:=Reference.libs) v3_saved "new.json"
           v3_text v3_doc (JStr "operator") (JStr "2018-03-25T18:30:55")
           (JStr (content_digest (H:=Reference.libs) (self v3_st))) 3 true).
  - by_vm.
  - by_vm.
  - by_vm.
  - by_vm.
  - by_vm.
  - right. by_vm.
  - by_vm.
  - reflexivity.
Defined.


(** Loading "old.json" adds the lines about the missing patch to the log
    and touches nothing else. *)
Lemma loadState_only_logs_run : logged_more v0_saved v0_loaded_world.
Proof.
  apply (loadState_only_logs (H:=Reference.libs) (Some "old.json") true
           v0_saved (Returned v0_loaded)).
  by_vm.
Defined.


(** Saving the first lab over the tampered "lab.json". *)
Lemma saveState_unloadable_file_run :
  saveState (H:=Reference.libs) (Some "lab.json") true tampered_st
  = (Raised (corrupted
               (JStr (content_digest (H:=Reference.libs) (self lab_st)))
               (hash_sha256 (H:=Reference.libs)
                  (Reference.encode (stripped tampered_doc)))),
     {| self := self tampered_st; world := tampered_world |})
  /\ files tampered_world = files (world tampered_st).
Proof.
  apply (saveState_unloadable_file (H:=Reference.libs) tampered_st "lab.json"
           true).
  - by_vm.
  - intros p. discriminate.
Defined.

(** Saving the first lab again right after it was saved. *)
Lemma saveState_no_changes_run :
  exists w',
    saveState (H:=Reference.libs) (Some "lab.json") true saved_st
    = (Returned tt,
       {| self := cached (H:=Reference.libs) (self saved_st); world := w' |})
    /\ files w' = files (world saved_st)
    /\ last (logs w')
       = Some {| log_level := DEBUG;
                 log_msg := "Detected no changes in labstate. Nothing to do." |}
    /\ same_contents (cached (H:=Reference.libs) (self saved_st))
                     (self saved_st).
Proof.
  apply (saveState_no_changes (H:=Reference.libs) saved_st "lab.json" true
           saved_loaded (world saved_st)).
  - by_vm.
  - by_vm.
Defined.


(** The document of the first lab. *)
Lemma toJSON_verifies_run :
  lab_doc !! "__sha256__"
  = Some (JStr (hash_sha256 (H:=Reference.libs)
                  (Reference.encode (stripped lab_doc))))
  /\ lab_doc !! "__user__" = Some (JStr (env_user (world lab_st)))
  /\ lab_doc !! "__datetime__" = Some (JStr (env_now (world lab_st)))
  /\ lab_doc !! "__version__" = Some (JNum (__version__ (meta (self lab_st))))
  /\ forall w', stripped (__toJSON (H:=Reference.libs) (self lab_st) w')
                = stripped lab_doc.
Proof.
  apply (toJSON_verifies (H:=Reference.libs) (self lab_st) (world lab_st)).
  apply ReferenceFacts.flatten_lab_metadata_free.
Defined.


(** The version 1 patch on [old_lab]. *)
Lemma patch_labstate_unique_names_run :
  NoDup (TypedList.keys (instruments patched_lab))
  /\ NoDup (TypedList.keys (benches patched_lab))
  /\ NoDup (TypedList.keys (devices patched_lab))
  /\ NoDup (TypedList.keys (hosts patched_lab))
  /\ connections patched_lab = obj_connections old_lab.
Proof. apply patch_labstate_unique_names. reflexivity. Defined.

Lemma patch_labstate_keeps_names_run :
  benches patched_lab = new_bench_of <$> obj_benches old_lab
  /\ hosts patched_lab
     = TypedList.setitem "cassander" (LocalHost "cassander")
         (new_host_of <$> obj_hosts old_lab)
  /\ (forall b li i,
        b ∈ obj_benches old_lab -> old_bench_instruments b = Some li ->
        i ∈ li -> instr_name i ∈ TypedList.keys (instruments patched_lab))
  /\ (forall h li i,
        h ∈ obj_hosts old_lab -> old_host_instruments h = Some li ->
        i ∈ li -> instr_name i ∈ TypedList.keys (instruments patched_lab))
  /\ (forall b ld d,
        b ∈ obj_benches old_lab -> old_bench_devices b = Some ld ->
        d ∈ ld -> dev_name d ∈ TypedList.keys (devices patched_lab)).
Proof. apply patch_labstate_keeps_names. reflexivity. Defined.

Lemma patch_labstate_local_host_run :
  local_hosts (hosts patched_lab) = [LocalHost "cassander"].
Proof. apply (patch_labstate_local_host old_lab). reflexivity. Defined.

(** The first read of [lab] in a world without files. *)
Lemma lab_first_read_starts_fresh_run :
  exists ss' cause,
    __getattribute__ (H:=Reference.libs) "lab" (new_Session world0)
    = (Returned (PyLab (CurrentLab (new_LabState None))), ss')
    /\ initializing ss' = false
    /\ module ss' !! "lab" = Some (PyLab (CurrentLab (new_LabState None)))
    /\ files (session_world ss') = files world0
    /\ logs (session_world ss')
       = logs world0 ++ [{| log_level := ERROR; log_msg := cause |};
                         fresh_lab_record].
Proof.
  apply (lab_first_read_starts_fresh (H:=Reference.libs) world0).
  left. reflexivity.
Defined.

(** The second read of [lab] in that world. *)
Lemma lab_read_again_run :
  __getattribute__ (H:=Reference.libs) "lab" fresh_session
  = (Returned (PyLab (CurrentLab (new_LabState None))), fresh_session).
Proof.
  apply (lab_read_again (H:=Reference.libs) (new_Session world0)).
  by_vm.
Defined.

(** The reads of [lab] in a world whose default file was tampered
    with: the first raises, the second returns [None]. *)
Lemma lab_read_after_failure_run :
  exists ss1,
    __getattribute__ (H:=Reference.libs) "lab" (new_Session corrupted_world)
    = (Raised (corrupted
                 (JStr (content_digest (H:=Reference.libs) (self lab_st)))
                 (hash_sha256 (H:=Reference.libs)
                    (Reference.encode (stripped tampered_doc)))),
       ss1)
    /\ session_world ss1 = corrupted_world
    /\ __getattribute__ (H:=Reference.libs) "lab" ss1 = (Returned PyNone, ss1).
Proof.
  apply (lab_read_after_failure (H:=Reference.libs)
           (new_Session corrupted_world)).
  - reflexivity.
  - reflexivity.
  - by_vm.
  - intros [].
Defined.

(** Loading "v1.json": the lab that comes back is the one of the patch,
    and its file name is the default one. *)
Lemma loadState_version_1_forgets_origin_run :
  exists lab,
    CurrentLab patched_lab = CurrentLab lab
    /\ filename lab = _filename
    /\ __sha256__ (meta lab) = None
    /\ __user__ (meta lab) = None
    /\ __datetime__ (meta lab) = None
    /\ __version__ (meta lab) = LabState_version.
Proof.
  apply (loadState_version_1_forgets_origin (H:=Reference.libs_v1) v1_world
           "v1.json" (Reference.encode v1_doc) v1_doc (JStr "operator")
           (JStr "2018-03-25T18:30:55")
           (JStr (SHA256.hexdigest (Reference.encode v1_content))) true
           (CurrentLab patched_lab) v1_loaded_world).
  - reflexivity.
  - by_vm.
  - by_vm.
  - by_vm.
  - by_vm.
  - by_vm.
  - by_vm.
Defined.

(** Turning off a source with three channels. *)
Lemma off_zeroes_run :
  exists self',
    ElectricalSource.off 0 source3 = (ElectricalSource.Ok tt, self')
    /\ ElectricalSource.getChannels self' = ElectricalSource.getChannels source3
    /\ Forall (fun kv => kv.2 = 0) (ElectricalSource.getChannelTuning self').
Proof.
  apply ElectricalSourceFacts.off_zeroes.
  apply (bool_decide_eq_true_1 _). by_vm.
Defined.

(** Upserting "bench1" twice in the empty lab. *)
Lemma updateBench_upserts_run :
  exists l',
    updateBench [bench1; bench1] st0 = (Returned tt, put_benches l' st0)
    /\ (forall b, b ∈ l' <-> b ∈ benches (self st0) \/ b ∈ [bench1; bench1])
    /\ (NoDup (TypedList.keys (benches (self st0)))
        -> NoDup (TypedList.keys l')).
Proof. apply updateBench_upserts. Defined.

(** Inserting the ring a second time, and the mzi after the ring. *)
Lemma insertDevice_spec_run :
  (exists msg, insertDevice ring ring_st = (Raised (RuntimeError msg), ring_st))
  /\ exists extra new_benches,
       insertDevice mzi ring_st
       = (Returned tt,
          add_logs extra
            (put_benches (benches (self ring_st) ++ new_benches)
               (put_devices (devices (self ring_st) ++ [mzi]) ring_st)))
       /\ Forall (fun r => log_level r = WARNING) extra
       /\ (forall b, dev_bench mzi = Some b ->
                     (b ∈ benches (self ring_st) ++ new_benches))
       /\ (forall b, b ∈ new_benches ->
                     dev_bench mzi = Some b /\ (b ∉ benches (self ring_st))).
Proof.
  split.
  - apply (proj1 (insertDevice_spec ring ring_st)). by left.
  - apply (proj2 (insertDevice_spec mzi ring_st)).
    intros Hin%list_elem_of_singleton. discriminate.
Defined.


(** Setting channel 1 of a source with the channels 0, 1 and 2, and
    setting channel 5, which was not blocked out. *)
Lemma setChannelTuning_spec_run :
  (exists self',
     ElectricalSource.setChannelTuning (ElectricalSource.ArgDict [(1, 9)])
       source3 = (ElectricalSource.Ok tt, self')
     /\ ElectricalSource.getChannels self'
        = ElectricalSource.getChannels source3
     /\ forall ch,
          ElectricalSource.dict_get ch (ElectricalSource.getChannelTuning self')
          = match ElectricalSource.dict_get ch
                    (ElectricalSource.dict_of [(1, 9)]) with
            | Some v => Some v
            | None => ElectricalSource.dict_get ch
                        (ElectricalSource.getChannelTuning source3)
            end)
  /\ exists msg,
       ElectricalSource.setChannelTuning (ElectricalSource.ArgDict [(5, 1)])
         source3
       = (ElectricalSource.Raise (ElectricalSource.ChannelError msg), source3).
Proof.
  split.
  - apply (proj1 (ElectricalSourceFacts.setChannelTuning_spec [(1, 9)] source3)).
    intros chan ->%list_elem_of_singleton. vm_compute. right. by left.
  - apply (proj2 (ElectricalSourceFacts.setChannelTuning_spec [(5, 1)] source3) 5).
    + by left.
    + apply (bool_decide_eq_false_1 _). by_vm.
Defined.
